(** * YT-2-Stems: the pipeline worker of [yt2stems.py]

    A shallow embedding of [sanitize_filename], [StemWorker._run_subprocess]
    and [StemWorker.run], and the properties of the event stream and of the
    temp-file sweep that the specification states about them.

    Conventions.
    - A Python [str] is a list of Unicode code points ([N]).
    - Everything outside the worker (file system, child processes, yt-dlp,
      Essentia) is an oracle: one field of [World] per call site of the
      source, giving the outcome of that call (a value, a raised
      exception with its [str(e)], or a call that never returns).
    - The worker's observable behaviour is the list of effects it performs,
      in order: the Qt signals it emits and the external calls it makes. *)

From Stdlib Require Import ZArith NArith List Bool Lia String Ascii Sorted.
From Stdlib Require Import DecimalString.
Import ListNotations.

Local Open Scope Z_scope.

(* ===================================================================== *)
(** ** Python strings *)
(* ===================================================================== *)

Module PyStr.

Definition char := N.
Definition str := list char.

(** An ASCII literal of the source, as code points. *)
Definition lit (s : string) : str :=
  List.map N_of_ascii (list_ascii_of_string s).

Definition eqb (a b : str) : bool :=
  if list_eq_dec N.eq_dec a b then true else false.

(** [str.isspace] per character, which is also what [\s] matches in a
    [str] pattern: the code points CPython lists in [_PyUnicode_IsWhitespace]. *)
Definition is_space (c : char) : bool :=
  ((9 <=? c) && (c <=? 13) || (28 <=? c) && (c <=? 32)
   || (c =? 133) || (c =? 160) || (c =? 5760)
   || (8192 <=? c) && (c <=? 8202)
   || (c =? 8232) || (c =? 8233) || (c =? 8239) || (c =? 8287)
   || (c =? 12288))%N.

(** [s.lstrip(chars)], [s.rstrip(chars)], [s.strip(chars)] with the set of
    characters given as a predicate. *)
Fixpoint lstrip (p : char -> bool) (s : str) : str :=
  match s with
  | [] => []
  | c :: t => if p c then lstrip p t else s
  end.

Definition rstrip (p : char -> bool) (s : str) : str :=
  rev (lstrip p (rev s)).

Definition strip (p : char -> bool) (s : str) : str :=
  rstrip p (lstrip p s).

(** [sep.join(xs)]. *)
Fixpoint join (sep : str) (xs : list str) : str :=
  match xs with
  | [] => []
  | [x] => x
  | x :: t => x ++ sep ++ join sep t
  end.

(** [str(n)] for a Python [int]. *)
Definition of_Z (n : Z) : str := lit (NilZero.string_of_int (Z.to_int n)).

(** [needle in hay]. *)
Definition contains (hay needle : str) : Prop :=
  exists pre post, hay = pre ++ needle ++ post.

Definition startswith (s p : str) : Prop := exists rest, s = p ++ rest.

End PyStr.

Import PyStr.

(* ===================================================================== *)
(** ** [sanitize_filename] (yt2stems.py, lines 43-51) *)
(* ===================================================================== *)

Definition underscore : char := 95%N.
Definition space : char := 32%N.

(** The character class of the first substitution: less-than, greater-than,
    colon, double quote, slash, backslash, bar, question mark, star. *)
Definition is_unsafe (c : char) : bool :=
  existsb (N.eqb c) [60; 62; 58; 34; 47; 92; 124; 63; 42]%N.

(** The character class of the second substitution: whitespace or
    underscore. *)
Definition is_sep (c : char) : bool := is_space c || (c =? underscore)%N.

(** The first [re.sub]: every character of the class is a match of its
    own and is replaced by an underscore. *)
Definition replace_unsafe (name : str) : str :=
  List.map (fun c => if is_unsafe c then underscore else c) name.

(** The second [re.sub], on one or more characters of that class: the
    matches are the maximal runs, left to right, each replaced by a single
    underscore; [in_run] says that the previous character belonged to the
    run being replaced. *)
Fixpoint collapse_runs (in_run : bool) (s : str) : str :=
  match s with
  | [] => []
  | c :: t =>
      if is_sep c
      then if in_run then collapse_runs true t
           else underscore :: collapse_runs true t
      else c :: collapse_runs false t
  end.

(** The argument of [strip]: underscore and space. *)
Definition is_trim (c : char) : bool := (c =? underscore)%N || (c =? space)%N.

Definition sanitize_filename (name : str) : str :=
  let sanitized := replace_unsafe name in
  let sanitized := collapse_runs false sanitized in
  let sanitized := strip is_trim sanitized in
  sanitized.

(* ===================================================================== *)
(** ** The percent pattern of [_run_subprocess] (line 78) *)
(* ===================================================================== *)

(** Code points of the digit zero of every decimal-digit block of the
    Unicode character database (version 14, CPython 3.11): in a [str]
    pattern [\d] matches any of them, and [int] reads them all. Each block
    holds the ten digits in order. *)
Definition decimal_zeros : list N :=
  [0x30; 0x660; 0x6f0; 0x7c0; 0x966; 0x9e6; 0xa66; 0xae6; 0xb66; 0xbe6;
   0xc66; 0xce6; 0xd66; 0xde6; 0xe50; 0xed0; 0xf20; 0x1040; 0x1090;
   0x17e0; 0x1810; 0x1946; 0x19d0; 0x1a80; 0x1a90; 0x1b50; 0x1bb0;
   0x1c40; 0x1c50; 0xa620; 0xa8d0; 0xa900; 0xa9d0; 0xa9f0; 0xaa50;
   0xabf0; 0xff10; 0x104a0; 0x10d30; 0x11066; 0x110f0; 0x11136; 0x111d0;
   0x112f0; 0x11450; 0x114d0; 0x11650; 0x116c0; 0x11730; 0x118e0;
   0x11950; 0x11c50; 0x11d50; 0x11da0; 0x16a60; 0x16ac0; 0x16b50;
   0x1d7ce; 0x1d7d8; 0x1d7e2; 0x1d7ec; 0x1d7f6; 0x1e140; 0x1e2f0;
   0x1e950; 0x1fbf0]%N.

Definition decimal_value (c : char) : option Z :=
  match find (fun z => (z <=? c) && (c <? z + 10))%N decimal_zeros with
  | Some z => Some (Z.of_N (c - z))
  | None => None
  end.

Definition percent_sign : char := 37%N.

(** Exactly [k] decimal characters, then a percent sign, at the head of
    [s]; the result is the digits of the group. *)
Fixpoint digits_then_percent (k : nat) (s : str) : option (list Z) :=
  match k, s with
  | O, c :: _ => if (c =? percent_sign)%N then Some [] else None
  | S k', c :: t =>
      match decimal_value c with
      | Some d => option_map (cons d) (digits_then_percent k' t)
      | None => None
      end
  | _, [] => None
  end.

(** The pattern at one position: the quantifier is greedy, so three digits
    are tried first, then two, then one. *)
Definition match_here (s : str) : option (list Z) :=
  match digits_then_percent 3 s with
  | Some ds => Some ds
  | None =>
      match digits_then_percent 2 s with
      | Some ds => Some ds
      | None => digits_then_percent 1 s
      end
  end.

(** [pattern.search(line)]: the leftmost position where the pattern
    matches. *)
Fixpoint search (s : str) : option (list Z) :=
  match match_here s with
  | Some ds => Some ds
  | None => match s with [] => None | _ :: t => search t end
  end.

(** [int(m.group(1))]. *)
Definition int_of_digits (ds : list Z) : Z :=
  fold_left (fun acc d => 10 * acc + d) ds 0.

Definition scrape_percent (line : str) : option Z :=
  option_map int_of_digits (search line).

(* ===================================================================== *)
(** ** [pathlib.Path], POSIX flavour *)
(* ===================================================================== *)

Module PyPath.

Definition slash : char := 47%N.
Definition dot : char := 46%N.

(** A path is its root (empty, one slash, or two) and its components. *)
Record Path := { root : str; parts : list str }.

Fixpoint split_slash (s : str) : list str :=
  match s with
  | [] => [[]]
  | c :: t =>
      if (c =? slash)%N then [] :: split_slash t
      else match split_slash t with
           | [] => [[c]]
           | p :: ps => (c :: p) :: ps
           end
  end.

(** Empty components and single dots are dropped when a path is parsed. *)
Definition parse_parts (s : str) : list str :=
  filter (fun p => negb (eqb p [] || eqb p [dot])) (split_slash s).

(** Exactly two leading slashes are kept; three or more are one. *)
Definition parse_root (s : str) : str :=
  match s with
  | c1 :: c2 :: c3 :: _ =>
      if (c1 =? slash)%N
      then if (c2 =? slash)%N && negb (c3 =? slash)%N
           then [slash; slash] else [slash]
      else []
  | [c1; c2] =>
      if (c1 =? slash)%N
      then if (c2 =? slash)%N then [slash; slash] else [slash]
      else []
  | [c1] => if (c1 =? slash)%N then [slash] else []
  | [] => []
  end.

(** [Path(s)]. *)
Definition of_str (s : str) : Path :=
  {| root := parse_root s; parts := parse_parts s |}.

(** [p / s]: a rooted right operand replaces the left one. *)
Definition div (p : Path) (s : str) : Path :=
  match parse_root s with
  | [] => {| root := root p; parts := parts p ++ parse_parts s |}
  | _ => of_str s
  end.

(** [str(p)]. *)
Definition to_str (p : Path) : str :=
  match root p, parts p with
  | [], [] => [dot]
  | r, ps => r ++ join [slash] ps
  end.

(** [p == q]. *)
Definition eqb (p q : Path) : bool :=
  PyStr.eqb (root p) (root q)
  && (if list_eq_dec (list_eq_dec N.eq_dec) (parts p) (parts q)
      then true else false).

(** [p.name]: the last component, empty when there is none. *)
Definition name (p : Path) : str := last (parts p) [].

(** [s.rfind(c)]; [None] stands for -1. *)
Fixpoint rfind (c : char) (s : str) : option nat :=
  match s with
  | [] => None
  | x :: t =>
      match rfind c t with
      | Some i => Some (S i)
      | None => if (x =? c)%N then Some O else None
      end
  end.

(** The test [0 < i < len(name) - 1] of [suffix] and [stem]. *)
Definition suffix_index (nm : str) : option nat :=
  match rfind dot nm with
  | Some i =>
      if (0 <? Z.of_nat i) && (Z.of_nat i <? Z.of_nat (List.length nm) - 1)
      then Some i else None
  | None => None
  end.

(** [p.suffix]. *)
Definition suffix (p : Path) : str :=
  match suffix_index (name p) with
  | Some i => skipn i (name p)
  | None => []
  end.

(** [p.stem]. *)
Definition stem (p : Path) : str :=
  match suffix_index (name p) with
  | Some i => firstn i (name p)
  | None => name p
  end.

End PyPath.

Abbreviation Path := PyPath.Path.
Infix "//" := PyPath.div (at level 40, left associativity).

(* ===================================================================== *)
(** ** Signals, external calls and the worker's monad *)
(* ===================================================================== *)

(** The three Qt signals of [StemWorker]: [log], [prog] and [done]. *)
Inductive event :=
| LogLine (text : str)
| Progress (percent : Z)
| Done (message : str).

(** What the worker does, in order: a signal emitted, or a call that leaves
    the worker (recorded when it is made, whatever its outcome). *)
Inductive effect :=
| Emit (e : event)
| Copy2 (src dst : Path)
| ImportYtDlp
| YtDlp (url outtmpl : str)
| Essentia (path : str)
| Popen (cmd : list str)
| Exists (p : Path)
| Mkdir (p : Path)
| Iterdir (p : Path)
| Move (src dst : str)
| Rmtree (p : Path)
| Unlink (p : Path).

(** A call returns a value, raises, or never returns; an exception is its
    [str(e)]. *)
Inductive outcome (A : Type) :=
| Returned (a : A)
| Raised (e : str)
| Stuck.
Arguments Returned {A} a.
Arguments Raised {A} e.
Arguments Stuck {A}.

(** One piece of the [try] block: the effects it performed, the list
    [files_to_cleanup] as it leaves it, and how it ended. *)
Record step (A : Type) := mkStep {
  emitted : list effect;
  registry : list Path;
  result : outcome A
}.
Arguments mkStep {A}.
Arguments emitted {A}.
Arguments registry {A}.
Arguments result {A}.

(** A computation reads [files_to_cleanup] as it finds it. *)
Definition M (A : Type) := list Path -> step A.

Definition ret {A} (a : A) : M A := fun reg => mkStep [] reg (Returned a).

Definition raise {A} (e : str) : M A := fun reg => mkStep [] reg (Raised e).

Definition bind {A B} (m : M A) (k : A -> M B) : M B :=
  fun reg =>
    let s := m reg in
    match result s with
    | Returned a =>
        let s' := k a (registry s) in
        mkStep (emitted s ++ emitted s') (registry s') (result s')
    | Raised e => mkStep (emitted s) (registry s) (Raised e)
    | Stuck => mkStep (emitted s) (registry s) Stuck
    end.

Notation "x <- m ;; k" := (bind m (fun x => k))
  (at level 61, m at next level, right associativity).
Notation "m ;; k" := (bind m (fun _ => k))
  (at level 61, right associativity).

Definition emit (e : event) : M unit :=
  fun reg => mkStep [Emit e] reg (Returned tt).

(** An external call [c] whose outcome the world decides. *)
Definition call {A} (c : effect) (o : outcome A) : M A :=
  fun reg => mkStep [c] reg o.

(** The end of something the worker waits for, with no effect of its
    own. *)
Definition ended (o : outcome unit) : M unit :=
  fun reg => mkStep [] reg o.

(** Several effects at once, with nothing to return. *)
Definition tell (tr : list effect) : M unit :=
  fun reg => mkStep tr reg (Returned tt).

(** [files_to_cleanup.append(p)]. *)
Definition register (p : Path) : M unit :=
  fun reg => mkStep [] (reg ++ [p]) (Returned tt).

(* ===================================================================== *)
(** ** The world around the worker *)
(* ===================================================================== *)

(** What the worker gets from a child that [subprocess.Popen] has started:
    the lines the loop over [proc.stderr] receives and how that loop ends
    (the pipe is closed, decoding the text raises, or the loop waits for
    ever, as when the child is blocked on its other pipe); the same for
    the loop over [proc.stdout]; and [proc.returncode] after
    [proc.wait()]. *)
Record proc_output := {
  stderr_lines : list str;
  stderr_end : outcome unit;
  stdout_lines : list str;
  stdout_end : outcome unit;
  returncode : Z
}.

(** One field per call site of the source. Calls made in a loop are
    indexed by the iteration. *)
Record World := {
  gettempdir : outcome str;                         (* line 108 *)
  sys_executable : str;                             (* line 164 *)
  DEMUCS_RUNNER : Path;                             (* line 26 *)
  local_copy : Path -> Path -> outcome unit;        (* line 121 *)
  yt_dlp_import : outcome unit;                     (* line 125 *)
  yt_dlp_fetch : str -> str -> outcome str;         (* lines 133-135 *)
  essentia : str -> outcome (Z * str * str);        (* lines 34-40 *)
  ffmpeg_proc : list str -> outcome proc_output;    (* line 155 *)
  demucs_proc : list str -> outcome proc_output;    (* line 170 *)
  stems_exists : Path -> outcome bool;              (* line 178 *)
  stems_mkdir : Path -> outcome unit;               (* line 179 *)
  stems_iterdir : Path -> outcome (list Path);      (* line 180 *)
  stem_move : nat -> str -> str -> outcome unit;    (* line 182 *)
  mp3_copy : Path -> Path -> outcome unit;          (* line 192 *)
  sweep_exists : nat -> Path -> outcome bool;       (* line 203 *)
  sweep_unlink : nat -> Path -> outcome unit        (* line 204 *)
}.

(** The arguments of [StemWorker.__init__]. *)
Record Job := {
  url : str;
  bitrate : str;
  model : str;
  two_stem : bool;
  outdir : Path;
  is_file : bool
}.

(* ===================================================================== *)
(** ** [analyze_bpm_key] (lines 29-40) *)
(* ===================================================================== *)

(** The three Essentia calls are one oracle call that gives the tempo
    already passed through [int(round(bpm))], the key and the scale, or
    raises. *)
Definition analyze_bpm_key (w : World) (path : str) : M (Z * str) :=
  r <- call (Essentia path) (essentia w path) ;;
  let '(bpm, key, scale) := r in
  let key_name := key ++ lit " " ++ scale in
  ret (bpm, key_name).

(* ===================================================================== *)
(** ** [StemWorker._run_subprocess] (lines 69-105) *)
(* ===================================================================== *)

(** The prefix of a forwarded line: two spaces, a rightwards arrow, a
    space. *)
Definition arrow_prefix : str := lit "  " ++ [0x2192%N] ++ lit " ".

(** The body of the loop over [proc.stderr] (lines 83-92), for one line;
    appending to [stderr_lines] is in [failure_message]. *)
Definition scan_line (progress_offset progress_span : Z) (line : str)
  : list effect :=
  (let stripped := strip is_space line in
   match stripped with
   | [] => []
   | _ => [Emit (LogLine (arrow_prefix ++ stripped))]
   end)
  ++
  (if progress_span =? 0 then []
   else match scrape_percent line with
        | Some pct =>
            [Emit (Progress (progress_offset + pct * progress_span / 100))]
        | None => []
        end).

(** The argument of [RuntimeError] (lines 102-105). *)
Definition failure_message (proc : proc_output) : str :=
  let error_output := List.concat (stderr_lines proc) in
  let stdout_output := List.concat (stdout_lines proc) in
  let full_output :=
    match stdout_output with
    | [] => error_output
    | _ => lit "STDERR:" ++ [10%N] ++ error_output ++ [10%N]
           ++ lit "STDOUT:" ++ [10%N] ++ stdout_output
    end in
  lit "Command failed (exit " ++ of_Z (returncode proc) ++ lit "):"
  ++ [10%N] ++ full_output.

(** [spawn] is the outcome of [Popen] for this call site. *)
Definition _run_subprocess (spawn : list str -> outcome proc_output)
    (cmd : list str) (progress_offset progress_span : Z) : M unit :=
  proc <- call (Popen cmd) (spawn cmd) ;;
  tell (flat_map (scan_line progress_offset progress_span)
                 (stderr_lines proc)) ;;
  ended (stderr_end proc) ;;
  ended (stdout_end proc) ;;
  if returncode proc =? 0 then ret tt
  else raise (failure_message proc).

(* ===================================================================== *)
(** ** [StemWorker.run] (lines 107-206) *)
(* ===================================================================== *)

Definition msg_local_file : str := [0x1f4c1%N] ++ lit "  Using local file: ".
Definition msg_fetching : str :=
  [0x2b07%N] ++ lit "  Fetching & downloading audio " ++ [0x2026%N].
Definition msg_tempo : str := [0x1f39a; 0xfe0f]%N ++ lit "  Detected tempo: ".
Definition msg_key : str := [0x1f511%N] ++ lit "  Estimated key: ".
Definition msg_transcoding : str :=
  [0x1f504%N] ++ lit "  Transcoding to MP3 " ++ [0x2026%N].
Definition msg_splitting (model : str) : str :=
  [0x1f39b; 0xfe0f]%N ++ lit "  Splitting with Demucs (" ++ model
  ++ lit ") " ++ [0x2026%N].
Definition msg_moving : str :=
  [0x1f4e6%N] ++ lit "  Moving stems to output folder " ++ [0x2026%N].
Definition msg_missing (stems_source : Path) : str :=
  [0x26a0; 0xfe0f]%N ++ lit "  Warning: Expected stems folder not found at "
  ++ PyPath.to_str stems_source.
(** The check mark and the cross that open the two [done] messages. *)
Definition check_mark : char := 0x2705%N.
Definition cross_mark : char := 0x274c%N.
Definition msg_finished (stems_dest : Path) : str :=
  [check_mark] ++ lit "  Finished " ++ [0x2013%N] ++ lit " stems ready in "
  ++ PyPath.to_str stems_dest.
Definition msg_error (e : str) : str := [cross_mark] ++ lit "  Error: " ++ e.

(** Step 1, lines 113-138: the input file and the title. *)
Definition acquire (w : World) (j : Job) (tmp_dir : Path) : M (Path * str) :=
  if is_file j then
    let source_path := PyPath.of_str (url j) in
    let title := sanitize_filename (PyPath.stem source_path) in
    emit (LogLine (msg_local_file ++ PyPath.name source_path)) ;;
    let tmp_path := tmp_dir // (title ++ PyPath.suffix source_path) in
    (if PyPath.eqb source_path tmp_path then ret tt
     else call (Copy2 source_path tmp_path)
               (local_copy w source_path tmp_path) ;;
          register tmp_path) ;;
    emit (Progress 10) ;;
    ret (tmp_path, title)
  else
    call ImportYtDlp (yt_dlp_import w) ;;
    emit (LogLine msg_fetching) ;;
    emit (Progress 0) ;;
    let outtmpl := PyPath.to_str (tmp_dir // lit "%(title)s.%(ext)s") in
    filename <- call (YtDlp (url j) outtmpl)
                     (yt_dlp_fetch w (url j) outtmpl) ;;
    let tmp_path := PyPath.of_str filename in
    let title := sanitize_filename (PyPath.stem tmp_path) in
    register tmp_path ;;
    emit (Progress 10) ;;
    ret (tmp_path, title).

(** Lines 140-143. *)
Definition analyze (w : World) (tmp_path : Path) : M unit :=
  r <- analyze_bpm_key w (PyPath.to_str tmp_path) ;;
  let '(bpm, key) := r in
  emit (LogLine (msg_tempo ++ of_Z bpm ++ lit " BPM")) ;;
  emit (LogLine (msg_key ++ key)).

(** Step 2, lines 145-156. *)
Definition transcode (w : World) (j : Job) (tmp_dir tmp_path : Path)
    (title : str) : M (str * Path) :=
  emit (LogLine msg_transcoding) ;;
  let mp3_filename := title ++ lit "_" ++ bitrate j ++ lit "k.mp3" in
  let mp3_temp_path := tmp_dir // mp3_filename in
  register mp3_temp_path ;;
  let ff_cmd :=
    [lit "ffmpeg"; lit "-y"; lit "-i"; PyPath.to_str tmp_path;
     lit "-vn"; lit "-c:a"; lit "libmp3lame"; lit "-b:a";
     bitrate j ++ lit "k"; PyPath.to_str mp3_temp_path] in
  _run_subprocess (ffmpeg_proc w) ff_cmd 0 0 ;;
  emit (Progress 40) ;;
  ret (mp3_filename, mp3_temp_path).

(** The command line of lines 163-168. *)
Definition demucs_cmd (w : World) (j : Job) (demucs_temp_out : Path)
    (mp3_temp_path : Path) : list str :=
  [sys_executable w; PyPath.to_str (DEMUCS_RUNNER w);
   PyPath.to_str mp3_temp_path; lit "-o"; PyPath.to_str demucs_temp_out;
   lit "-n"; model j]
  ++ (if two_stem j then [lit "--two-stems"; lit "vocals"] else []).

(** Step 3, lines 158-171. *)
Definition separate (w : World) (j : Job) (tmp_dir mp3_temp_path : Path)
  : M Path :=
  emit (LogLine (msg_splitting (model j))) ;;
  let demucs_temp_out := tmp_dir // lit "demucs_output" in
  _run_subprocess (demucs_proc w)
                  (demucs_cmd w j demucs_temp_out mp3_temp_path) 40 50 ;;
  emit (Progress 90) ;;
  ret demucs_temp_out.

(** The loop of lines 180-183; [i] counts the iterations and [move] is
    the outcome of [shutil.move] at each. *)
Fixpoint move_stems (move : nat -> str -> str -> outcome unit)
    (stems_dest : Path) (i : nat) (files : list Path) : M unit :=
  match files with
  | [] => ret tt
  | stem_file :: rest =>
      let dest_file := stems_dest // PyPath.name stem_file in
      call (Move (PyPath.to_str stem_file) (PyPath.to_str dest_file))
           (move i (PyPath.to_str stem_file) (PyPath.to_str dest_file)) ;;
      emit (LogLine (arrow_prefix ++ PyPath.name stem_file)) ;;
      move_stems move stems_dest (S i) rest
  end.

(** Step 4, lines 173-192. [shutil.rmtree] is called with
    [ignore_errors=True] and so never raises. *)
Definition relocate (w : World) (j : Job) (demucs_temp_out : Path)
    (mp3_filename : str) (mp3_temp_path : Path) (title : str) : M Path :=
  emit (LogLine msg_moving) ;;
  let stems_source :=
    demucs_temp_out // model j // PyPath.stem mp3_temp_path in
  let stems_dest := outdir j // model j // title in
  present <- call (Exists stems_source) (stems_exists w stems_source) ;;
  (if present : bool then
     call (Mkdir stems_dest) (stems_mkdir w stems_dest) ;;
     files <- call (Iterdir stems_source) (stems_iterdir w stems_source) ;;
     move_stems (stem_move w) stems_dest 0 files ;;
     call (Rmtree demucs_temp_out) (Returned tt)
   else
     emit (LogLine (msg_missing stems_source))) ;;
  let mp3_final_path := outdir j // mp3_filename in
  call (Copy2 mp3_temp_path mp3_final_path)
       (mp3_copy w mp3_temp_path mp3_final_path) ;;
  ret stems_dest.

(** Lines 112-156: everything before the separation. *)
Definition prepare (w : World) (j : Job) (tmp_dir : Path)
  : M (str * str * Path) :=
  a <- acquire w j tmp_dir ;;
  let '(tmp_path, title) := a in
  analyze w tmp_path ;;
  t <- transcode w j tmp_dir tmp_path title ;;
  let '(mp3_filename, mp3_temp_path) := t in
  ret (title, mp3_filename, mp3_temp_path).

(** Lines 112-192: the four steps. *)
Definition stages (w : World) (j : Job) (tmp_dir : Path) : M Path :=
  x <- prepare w j tmp_dir ;;
  let '(title, mp3_filename, mp3_temp_path) := x in
  demucs_temp_out <- separate w j tmp_dir mp3_temp_path ;;
  relocate w j demucs_temp_out mp3_filename mp3_temp_path title.

(** The [try] block, lines 112-195. *)
Definition try_block (w : World) (j : Job) (tmp_dir : Path) : M unit :=
  stems_dest <- stages w j tmp_dir ;;
  emit (Progress 100) ;;
  emit (Done (msg_finished stems_dest)).

(** The [except] clause, lines 197-198. *)
Definition handler (r : outcome unit) : list effect :=
  match r with
  | Returned _ => []
  | Raised e => [Emit (Done (msg_error e))]
  | Stuck => []
  end.

(** One turn of the loop of the [finally] clause, lines 201-206: the calls
    made for [f], and whether the loop goes on. An exception of [exists]
    or of [unlink] is dropped; a call that never returns ends it all. *)
Definition sweep_one (w : World) (i : nat) (f : Path) : list effect * bool :=
  match sweep_exists w i f with
  | Returned true =>
      match sweep_unlink w i f with
      | Returned _ => ([Exists f; Unlink f], true)
      | Raised _ => ([Exists f; Unlink f], true)
      | Stuck => ([Exists f; Unlink f], false)
      end
  | Returned false => ([Exists f], true)
  | Raised _ => ([Exists f], true)
  | Stuck => ([Exists f], false)
  end.

(** The [finally] clause, lines 199-206. [i] counts the iterations. *)
Fixpoint sweep (w : World) (i : nat) (files : list Path) : list effect :=
  match files with
  | [] => []
  | f :: rest =>
      fst (sweep_one w i f)
      ++ (if snd (sweep_one w i f) then sweep w (S i) rest else [])
  end.

(** The state of the worker when the [try] block is left, or where it
    waits for ever. *)
Definition tried (w : World) (j : Job) (tmp_dir : Path) : step unit :=
  let files_to_cleanup := [] in
  try_block w j tmp_dir files_to_cleanup.

(** What follows the [try] block: the [except] clause and the [finally]
    clause; nothing when the block is never left. *)
Definition leave (w : World) (s : step unit) : list effect :=
  match result s with
  | Stuck => []
  | r => handler r ++ sweep w 0 (registry s)
  end.

(** Line 108 stands before [try]: when [tempfile.gettempdir()] raises, the
    exception leaves [run] and nothing is emitted. *)
Definition run (w : World) (j : Job) : list effect :=
  match gettempdir w with
  | Returned d =>
      let tmp_dir := PyPath.of_str d in
      let s := tried w j tmp_dir in
      emitted s ++ leave w s
  | Raised _ => []
  | Stuck => []
  end.

(* ===================================================================== *)
(** ** [MainWindow]: the handlers around the worker (lines 310-371) *)
(* ===================================================================== *)

(** A backtracking matcher for the two patterns of [_is_valid_url]: a
    matcher is given what has to match after it and the text left. *)
Module Re.

Definition matcher := (str -> bool) -> str -> bool.

(** A run of literal characters. *)
Fixpoint chars (p : str) : matcher :=
  fun k s =>
    match p with
    | [] => k s
    | c :: p' =>
        match s with
        | [] => false
        | x :: s' => (x =? c)%N && chars p' k s'
        end
    end.

(** [m?]: greedy, so [m] is tried before skipping it. *)
Definition opt (m : matcher) : matcher := fun k s => m k s || k s.

(** [m1|m2]. *)
Definition alt (m1 m2 : matcher) : matcher := fun k s => m1 k s || m2 k s.

(** [m1 m2]. *)
Definition seq (m1 m2 : matcher) : matcher := fun k s => m1 (m2 k) s.

(** [re.match(pattern, text)] as a truth value: the pattern has to match
    at the start of the text, and the text may go on. *)
Definition matches (m : matcher) (text : str) : bool := m (fun _ => true) text.

End Re.

Module MainWindow.

(** The optional scheme and the optional [www.] that open both
    patterns. *)
Definition scheme_www (host : Re.matcher) : Re.matcher :=
  Re.seq (Re.opt (Re.seq (Re.chars (lit "http"))
                         (Re.seq (Re.opt (Re.chars (lit "s")))
                                 (Re.chars (lit "://")))))
         (Re.seq (Re.opt (Re.chars (lit "www.")))
                 (Re.seq host (Re.chars (lit "/")))).

(** Line 369. *)
Definition youtube_pattern : Re.matcher :=
  scheme_www (Re.alt (Re.chars (lit "youtube.com"))
                     (Re.chars (lit "youtu.be"))).

(** Line 370. *)
Definition soundcloud_pattern : Re.matcher :=
  scheme_www (Re.chars (lit "soundcloud.com")).

(** Lines 366-372. *)
Definition _is_valid_url (text : str) : bool :=
  let patterns := [youtube_pattern; soundcloud_pattern] in
  existsb (fun pattern => Re.matches pattern text) patterns.

(** What a handler does to the widgets, in order. *)
Inductive gui_effect :=
| AppendLog (msg : str)
| SetProgress (value : Z)
| SetRunEnabled (enabled : bool)
| StartWorker (j : Job).

(** What [start_job] reads: the widgets, and the two tests it makes on
    the file system. *)
Record Window := {
  url_text : str;                (* url_edit.text() *)
  bitrate_data : str;            (* bitrate_combo.currentData() *)
  model_data : str;              (* model_combo.currentData() *)
  two_checked : bool;            (* twoStemChk.isChecked() *)
  out_dir : Path;                (* self.out_dir *)
  path_is_file : Path -> outcome bool;  (* Path(url).is_file(), line 312 *)
  runner_exists : outcome bool;  (* DEMUCS_RUNNER.exists(), line 317 *)
  runner_path : Path             (* DEMUCS_RUNNER *)
}.

(** Lines 334-336. *)
Definition log (msg : str) : list gui_effect := [AppendLog msg].

(** Lines 338-339. *)
Definition job_done (msg : str) : list gui_effect :=
  log msg ++ [SetRunEnabled true].

Definition msg_paste : str := lit "Paste a link first.".
Definition msg_no_runner (runner : Path) : str :=
  [cross_mark] ++ lit " Error: demucs_runner.py not found at "
  ++ PyPath.to_str runner.
Definition msg_ensure : str :=
  lit "Please ensure demucs_runner.py is in the same directory as yt2stems.py".
Definition msg_new_job (br model : str) (two : bool) : str :=
  [10%N] ++ lit "---  New job  ( " ++ br ++ lit " kbps  |  " ++ model
  ++ lit "  |  " ++ (if two then lit "2-stem" else lit "full") ++ lit ") ---".

(** What is left of lines 313-332 once [is_file] is known. *)
Definition start_job_from (g : Window) (url : str) (is_file : bool)
  : list gui_effect :=
  match url with
  | [] => log msg_paste
  | _ =>
      match runner_exists g with
      | Returned false =>
          log (msg_no_runner (runner_path g)) ++ log msg_ensure
      | Returned true =>
          let br := bitrate_data g in
          let model := model_data g in
          let two := two_checked g in
          log (msg_new_job br model two)
          ++ [SetProgress 0; SetRunEnabled false]
          ++ [StartWorker {| url := url; bitrate := br; model := model;
                             two_stem := two; outdir := out_dir g;
                             is_file := is_file |}]
      | Raised _ => []
      | Stuck => []
      end
  end.

(** Lines 310-332. An exception of [is_file] or of [exists] leaves the
    handler before it has done anything. *)
Definition start_job (g : Window) : list gui_effect :=
  let url := strip is_space (url_text g) in
  match path_is_file g (PyPath.of_str url) with
  | Returned is_file => start_job_from g url is_file
  | Raised _ => []
  | Stuck => []
  end.

(** The three connections of lines 329-331: what the window does with a
    signal of the worker. *)
Definition on_signal (e : event) : list gui_effect :=
  match e with
  | LogLine text => log text
  | Progress percent => [SetProgress percent]
  | Done message => job_done message
  end.

(** The job [start_job] has started, if any. *)
Definition started (fx : list gui_effect) : option Job :=
  match flat_map (fun x => match x with StartWorker j => [j] | _ => [] end) fx
  with
  | j :: _ => Some j
  | [] => None
  end.

End MainWindow.

(* ===================================================================== *)
(** ** [demucs_runner.py] *)
(* ===================================================================== *)

Module DemucsRunner.

(** The values of [subtype] that [patched_save] passes to
    [soundfile.write]. *)
Inductive subtype := PCM_16 | PCM_24 | PCM_32 | FLOAT.

(** [s.rsplit('.', 1)[-1]]: what follows the last dot, or all of [s] when
    it has none. *)
Definition after_last_dot (s : str) : str :=
  match PyPath.rfind PyPath.dot s with
  | Some i => skipn (S i) s
  | None => s
  end.

(** Lines 34-35; [lower] is [str.lower]. *)
Definition save_format (lower : str -> str) (format : option str)
    (uri : str) : str :=
  match format with
  | Some f => f
  | None => lower (after_last_dot uri)
  end.

(** [bits_per_sample == n]; the default [None] equals no number. *)
Definition bits_is (bits_per_sample : option Z) (n : Z) : bool :=
  match bits_per_sample with
  | Some b => b =? n
  | None => false
  end.

(** Lines 38-54. *)
Definition save_subtype (format : str) (bits_per_sample : option Z)
  : option subtype :=
  if PyStr.eqb format (lit "wav") then
    if bits_is bits_per_sample 16 then Some PCM_16
    else if bits_is bits_per_sample 24 then Some PCM_24
    else if bits_is bits_per_sample 32 then Some PCM_32
    else Some FLOAT
  else if PyStr.eqb format (lit "flac") then
    if bits_is bits_per_sample 16 then Some PCM_16
    else if bits_is bits_per_sample 24 then Some PCM_24
    else Some PCM_24
  else None.

(** The file and the subtype of the [sf.write] call of line 57. *)
Definition patched_save (lower : str -> str) (uri : str)
    (format : option str) (bits_per_sample : option Z)
  : str * option subtype :=
  (uri, save_subtype (save_format lower format uri) bits_per_sample).

(** Line 72: [sys.argv[0:1] + sys.argv[1:]]. *)
Definition main_argv (argv : list str) : list str :=
  firstn 1 argv ++ skipn 1 argv.

End DemucsRunner.

(* ===================================================================== *)
(** ** Sample jobs and worlds *)
(* ===================================================================== *)

Module Sample.

Definition ok_proc (err_lines : list str) : proc_output :=
  {| stderr_lines := err_lines; stderr_end := Returned tt;
     stdout_lines := []; stdout_end := Returned tt; returncode := 0 |}.

(** A host where every call succeeds, but for the four outcomes given:
    the analysis, the separation tool, the test for the stems folder and
    the copy of the MP3. *)
Definition world (analysis : outcome (Z * str * str))
    (demucs : outcome proc_output) (stems : outcome bool)
    (copy : outcome unit) : World := {|
  gettempdir := Returned (lit "/tmp");
  sys_executable := lit "/usr/bin/python3";
  DEMUCS_RUNNER := PyPath.of_str (lit "/opt/yt2stems/demucs_runner.py");
  local_copy := fun _ _ => Returned tt;
  yt_dlp_import := Returned tt;
  yt_dlp_fetch := fun _ _ => Returned (lit "/tmp/Some Track.webm");
  essentia := fun _ => analysis;
  ffmpeg_proc := fun _ => Returned (ok_proc [lit "size=1024kB time=00:01:00"]);
  demucs_proc := fun _ => demucs;
  stems_exists := fun _ => stems;
  stems_mkdir := fun _ => Returned tt;
  stems_iterdir := fun p =>
    Returned [p // lit "drums.wav"; p // lit "vocals.wav"];
  stem_move := fun _ _ _ => Returned tt;
  mp3_copy := fun _ _ => copy;
  sweep_exists := fun _ _ => Returned true;
  sweep_unlink := fun _ _ => Returned tt
|}.

Definition c_major : outcome (Z * str * str) :=
  Returned (120, lit "C", lit "major").

Definition three_marks : proc_output :=
  ok_proc [lit " 10%|#"; lit " 50%|#####"; lit "100%|##########"].

(** Everything succeeds; the separation tool reports 10, 50 and 100
    percent. *)
Definition fair : World :=
  world c_major (Returned three_marks) (Returned true) (Returned tt).

(** The separation tool runs a bag of two models and draws one progress
    bar for each, so its percentage starts again from zero. *)
Definition restarting : World :=
  world c_major
    (Returned (ok_proc [lit " 50%|#####     |"; lit "100%|##########|";
                        lit "  0%|          |"; lit "100%|##########|"]))
    (Returned true) (Returned tt).

(** A line of the separation tool carries a percentage above 100. *)
Definition overshooting : World :=
  world c_major (Returned (ok_proc [lit "resampling at 150% speed"]))
    (Returned true) (Returned tt).

(** The separation tool exits with code 1. *)
Definition crashed : proc_output := {|
  stderr_lines := [lit " 10%|#"; lit "RuntimeError: out of memory"];
  stderr_end := Returned tt;
  stdout_lines := [lit "Separating track"];
  stdout_end := Returned tt;
  returncode := 1
|}.

Definition crashing : World :=
  world c_major (Returned crashed) (Returned true) (Returned tt).

(** Essentia cannot read the audio; nothing else fails. *)
Definition deaf : World :=
  world (Raised (lit "Error while configuring MonoLoader"))
    (Returned three_marks) (Returned true) (Returned tt).

(** The separation tool leaves no folder for the track. *)
Definition hollow : World :=
  world c_major (Returned three_marks) (Returned false) (Returned tt).

(** No folder for the track, and the output directory cannot be written. *)
Definition hollow_readonly : World :=
  world c_major (Returned three_marks) (Returned false)
    (Raised (lit "[Errno 13] Permission denied")).

(** The temp files cannot be deleted. *)
Definition sticky (w : World) : World := {|
  gettempdir := gettempdir w;
  sys_executable := sys_executable w;
  DEMUCS_RUNNER := DEMUCS_RUNNER w;
  local_copy := local_copy w;
  yt_dlp_import := yt_dlp_import w;
  yt_dlp_fetch := yt_dlp_fetch w;
  essentia := essentia w;
  ffmpeg_proc := ffmpeg_proc w;
  demucs_proc := demucs_proc w;
  stems_exists := stems_exists w;
  stems_mkdir := stems_mkdir w;
  stems_iterdir := stems_iterdir w;
  stem_move := stem_move w;
  mp3_copy := mp3_copy w;
  sweep_exists := fun i _ =>
    if Nat.even i then Returned true
    else Raised (lit "[Errno 5] Input/output error");
  sweep_unlink := fun _ _ => Raised (lit "[Errno 13] Permission denied")
|}.

Definition local_job : Job := {|
  url := lit "/home/ann/Music/My Song.wav";
  bitrate := lit "320";
  model := lit "htdemucs";
  two_stem := false;
  outdir := PyPath.of_str (lit "/home/ann/stems");
  is_file := true
|}.

Definition remote_job : Job := {|
  url := lit "https://youtu.be/abc";
  bitrate := lit "128";
  model := lit "mdx";
  two_stem := true;
  outdir := PyPath.of_str (lit "/home/ann/stems");
  is_file := false
|}.

(** [fair], but the copy of the local file into the temp directory
    fails. *)
Definition full_disk : World := {|
  gettempdir := gettempdir fair;
  sys_executable := sys_executable fair;
  DEMUCS_RUNNER := DEMUCS_RUNNER fair;
  local_copy := fun _ _ => Raised (lit "[Errno 28] No space left on device");
  yt_dlp_import := yt_dlp_import fair;
  yt_dlp_fetch := yt_dlp_fetch fair;
  essentia := essentia fair;
  ffmpeg_proc := ffmpeg_proc fair;
  demucs_proc := demucs_proc fair;
  stems_exists := stems_exists fair;
  stems_mkdir := stems_mkdir fair;
  stems_iterdir := stems_iterdir fair;
  stem_move := stem_move fair;
  mp3_copy := mp3_copy fair;
  sweep_exists := sweep_exists fair;
  sweep_unlink := sweep_unlink fair
|}.

(** [fair], but the encoder exits with code 1. *)
Definition bad_codec : World := {|
  gettempdir := gettempdir fair;
  sys_executable := sys_executable fair;
  DEMUCS_RUNNER := DEMUCS_RUNNER fair;
  local_copy := local_copy fair;
  yt_dlp_import := yt_dlp_import fair;
  yt_dlp_fetch := yt_dlp_fetch fair;
  essentia := essentia fair;
  ffmpeg_proc := fun _ =>
    Returned {| stderr_lines := [lit "Invalid data found"];
                stderr_end := Returned tt;
                stdout_lines := []; stdout_end := Returned tt;
                returncode := 1 |};
  demucs_proc := demucs_proc fair;
  stems_exists := stems_exists fair;
  stems_mkdir := stems_mkdir fair;
  stems_iterdir := stems_iterdir fair;
  stem_move := stem_move fair;
  mp3_copy := mp3_copy fair;
  sweep_exists := sweep_exists fair;
  sweep_unlink := sweep_unlink fair
|}.

(** A local file whose name is made of underscores only. *)
Definition nameless_job : Job := {|
  url := lit "/home/ann/___";
  bitrate := lit "320";
  model := lit "htdemucs";
  two_stem := false;
  outdir := PyPath.of_str (lit "/home/ann/stems");
  is_file := true
|}.

(** Three stems, and a move that fails at the second. *)
Definition three_stems : list Path :=
  [PyPath.of_str (lit "/tmp/demucs_output/htdemucs/a_320k/bass.wav");
   PyPath.of_str (lit "/tmp/demucs_output/htdemucs/a_320k/drums.wav");
   PyPath.of_str (lit "/tmp/demucs_output/htdemucs/a_320k/vocals.wav")].

Definition second_move_fails (i : nat) (src dst : str) : outcome unit :=
  match i with
  | 1%nat => Raised (lit "[Errno 13] Permission denied")
  | _ => Returned tt
  end.

(** The window with a link in the field and the wrapper in place. *)
Definition window (text : str) (runner : outcome bool)
  : MainWindow.Window := {|
  MainWindow.url_text := text;
  MainWindow.bitrate_data := lit "320";
  MainWindow.model_data := lit "htdemucs";
  MainWindow.two_checked := false;
  MainWindow.out_dir := PyPath.of_str (lit "/home/ann/stems");
  MainWindow.path_is_file := fun _ => Returned false;
  MainWindow.runner_exists := runner;
  MainWindow.runner_path :=
    PyPath.of_str (lit "/opt/yt2stems/demucs_runner.py")
|}.

(** The separation tool writes a line, then bytes that are no text, and
    exits with code 1; the loop over its diagnostic stream raises. *)
Definition garbled : proc_output := {|
  stderr_lines := [lit "CUDA out of memory"];
  stderr_end :=
    Raised (lit "'utf-8' codec can't decode byte 0xff in position 0: invalid start byte");
  stdout_lines := [];
  stdout_end := Returned tt;
  returncode := 1
|}.


(** The separation tool fills its other pipe before it writes any
    diagnostic line: it waits for the worker, and the worker for it. *)
Definition blocked : proc_output := {|
  stderr_lines := [];
  stderr_end := Stuck;
  stdout_lines := [];
  stdout_end := Returned tt;
  returncode := 0
|}.

Definition blocking : World :=
  world c_major (Returned blocked) (Returned true) (Returned tt).

(** [fair], but no directory for temp files can be found. *)
Definition homeless : World := {|
  gettempdir :=
    Raised (lit "[Errno 2] No usable temporary directory found");
  sys_executable := sys_executable fair;
  DEMUCS_RUNNER := DEMUCS_RUNNER fair;
  local_copy := local_copy fair;
  yt_dlp_import := yt_dlp_import fair;
  yt_dlp_fetch := yt_dlp_fetch fair;
  essentia := essentia fair;
  ffmpeg_proc := ffmpeg_proc fair;
  demucs_proc := demucs_proc fair;
  stems_exists := stems_exists fair;
  stems_mkdir := stems_mkdir fair;
  stems_iterdir := stems_iterdir fair;
  stem_move := stem_move fair;
  mp3_copy := mp3_copy fair;
  sweep_exists := sweep_exists fair;
  sweep_unlink := sweep_unlink fair
|}.

(** A window whose field holds a text too long for a file name: the file
    test raises. *)
Definition long_text_window : MainWindow.Window := {|
  MainWindow.url_text := lit "https://youtu.be/" ++ List.repeat 97%N 300;
  MainWindow.bitrate_data := lit "320";
  MainWindow.model_data := lit "htdemucs";
  MainWindow.two_checked := false;
  MainWindow.out_dir := PyPath.of_str (lit "/home/ann/stems");
  MainWindow.path_is_file :=
    fun _ => Raised (lit "[Errno 36] File name too long");
  MainWindow.runner_exists := Returned true;
  MainWindow.runner_path :=
    PyPath.of_str (lit "/opt/yt2stems/demucs_runner.py")
|}.

(** [str.lower] on ASCII text. *)
Definition ascii_lower (s : str) : str :=
  List.map (fun c => if (65 <=? c)%N && (c <=? 90)%N then (c + 32)%N else c) s.

End Sample.

Definition events (tr : list effect) : list event :=
  flat_map (fun x => match x with Emit e => [e] | _ => [] end) tr.

Definition progress_values (tr : list effect) : list Z :=
  flat_map (fun x => match x with Emit (Progress p) => [p] | _ => [] end) tr.

(* ===================================================================== *)
(** ** Vocabulary of the properties *)
(* ===================================================================== *)

(** The worker has one [done] signal; the user tells success from failure
    by the mark that opens the message. *)
Definition reports_success (message : str) : Prop :=
  startswith message [check_mark].

Definition reports_failure (message : str) : Prop :=
  startswith message [cross_mark].

(** A job completed successfully: it emitted a [Done] that reports
    success. *)
Definition succeeded (tr : list effect) : Prop :=
  exists message, In (Done message) (events tr) /\ reports_success message.

(** Every pair of consecutive elements is in order. *)
Definition nondecreasing (l : list Z) : Prop :=
  forall pre p q post, l = pre ++ p :: q :: post -> p <= q.

(** Every pair of consecutive [Progress] events is in order. *)
Definition progress_nondecreasing (tr : list effect) : Prop :=
  nondecreasing (progress_values tr).

(** The percentages that [_run_subprocess] scrapes from a child's
    diagnostic stream, in order. *)
Definition scraped (proc : proc_output) : list Z :=
  flat_map (fun line => match scrape_percent line with
                        | Some pct => [pct]
                        | None => []
                        end) (stderr_lines proc).

(** A child whose percentages never go back and never pass 100. *)
Definition steady (proc : proc_output) : Prop :=
  nondecreasing (scraped proc) /\ Forall (fun pct => pct <= 100) (scraped proc).

(** A list in order that stays between two bounds. *)
Definition ranged (lo hi : Z) (l : list Z) : Prop :=
  lo <= hi /\ Sorted Z.le l /\ Forall (fun x => lo <= x <= hi) l.

(** The [Progress] values of a computation are in order between [lo] and
    [hi]. *)
Definition within {A} (lo hi : Z) (m : M A) : Prop :=
  forall reg, ranged lo hi (progress_values (emitted (m reg))).

(** The bitrates and models the window offers (lines 212-218, 235). *)
Definition valid_bitrate (b : str) : Prop :=
  In b [lit "96"; lit "128"; lit "192"; lit "320"].

Definition valid_model (m : str) : Prop :=
  In m [lit "htdemucs"; lit "htdemucs_ft"; lit "htdemucs_6s"; lit "mdx";
        lit "mdx_extra_q"].

(** A string that [sanitize_filename] leaves alone up to trimming: no
    unsafe character, and every separator is a lone underscore.
    [after_sep] says that the character before was a separator. *)
Fixpoint tidy (after_sep : bool) (s : str) : bool :=
  match s with
  | [] => true
  | c :: t =>
      if is_sep c
      then negb after_sep && (c =? underscore)%N && tidy true t
      else negb (is_unsafe c) && tidy false t
  end.

(** No character to trim at the head. *)
Definition head_kept (p : char -> bool) (s : str) : bool :=
  match s with
  | [] => true
  | c :: _ => negb (p c)
  end.

(** Characters that [sanitize_filename] never touches. *)
Definition is_plain (c : char) : bool := negb (is_unsafe c) && negb (is_sep c).

Definition count_plain (s : str) : nat := List.length (filter is_plain s).

(** Every effect of a computation satisfies [P], whatever the registry it
    starts from. *)
Definition quiet {A} (P : effect -> Prop) (m : M A) : Prop :=
  forall reg, Forall P (emitted (m reg)).

Definition not_done (x : effect) : Prop :=
  match x with Emit (Done _) => False | _ => True end.

Definition not_unlink (x : effect) : Prop :=
  match x with Unlink _ => False | _ => True end.

Definition not_emit (x : effect) : Prop :=
  match x with Emit _ => False | _ => True end.

(** The four steps of a job, from an empty [files_to_cleanup]. *)
Definition body (w : World) (j : Job) (tmp_dir : Path) : step Path :=
  stages w j tmp_dir [].

(** The job gets into the [try] block and out of it: the temp directory
    is found and no call of the block waits for ever. *)
Definition finishes (w : World) (j : Job) : Prop :=
  exists d,
    gettempdir w = Returned d
    /\ result (tried w j (PyPath.of_str d)) <> Stuck.

(** No call of the sweep waits for ever. *)
Definition sweep_returns (w : World) : Prop :=
  forall i f, sweep_exists w i f <> Stuck /\ sweep_unlink w i f <> Stuck.



Definition not_popen (x : effect) : Prop :=
  match x with Popen _ => False | _ => True end.

(** The files the sweep looks at, and those it tries to delete. *)
Definition probed (tr : list effect) : list Path :=
  flat_map (fun x => match x with Exists p => [p] | _ => [] end) tr.

Definition unlinked (tr : list effect) : list Path :=
  flat_map (fun x => match x with Unlink p => [p] | _ => [] end) tr.


(** C7 as the specification words it: after a failed analysis the encoder
    and the separation tool are still started, and no [Done] reports
    failure. *)
Definition analysis_failure_tolerated (w : World) (j : Job) : Prop :=
  (exists cmd, In (Popen cmd) (run w j))
  /\ (forall m, In (Emit (Done m)) (run w j) -> ~ reports_failure m).

(** Two worlds that differ at most in what [exists] and [unlink] do during
    the sweep. *)
Definition same_outside_sweep (w w' : World) : Prop :=
  gettempdir w = gettempdir w' /\ sys_executable w = sys_executable w' /\
  DEMUCS_RUNNER w = DEMUCS_RUNNER w' /\ local_copy w = local_copy w' /\
  yt_dlp_import w = yt_dlp_import w' /\ yt_dlp_fetch w = yt_dlp_fetch w' /\
  essentia w = essentia w' /\ ffmpeg_proc w = ffmpeg_proc w' /\
  demucs_proc w = demucs_proc w' /\ stems_exists w = stems_exists w' /\
  stems_mkdir w = stems_mkdir w' /\ stems_iterdir w = stems_iterdir w' /\
  stem_move w = stem_move w' /\ mp3_copy w = mp3_copy w'.

(** A computation that leaves [files_to_cleanup] as it finds it. *)
Definition frames {A} (m : M A) : Prop :=
  forall reg, registry (m reg) = reg.

(** A computation that registers only paths that satisfy [I], and whose
    value, when it returns one, satisfies [Q]. *)
Definition keeps {A} (I : Path -> Prop) (m : M A) (Q : A -> Prop) : Prop :=
  forall reg,
    Forall I reg ->
    Forall I (registry (m reg))
    /\ (forall a, result (m reg) = Returned a -> Q a).

Definition no_slash (s : str) : Prop := Forall (fun c => c <> PyPath.slash) s.

(** The texts of the [LogLine] events of a trace, in order. *)
Definition log_lines (tr : list effect) : list str :=
  flat_map (fun x => match x with Emit (LogLine t) => [t] | _ => [] end) tr.

(** A line that is empty once stripped: the test [if stripped] fails. *)
Definition is_blank (line : str) : bool :=
  match strip is_space line with
  | [] => true
  | _ :: _ => false
  end.

(** A [Progress] between two bounds; any other effect. *)
Definition progress_in (lo hi : Z) (x : effect) : Prop :=
  match x with
  | Emit (Progress p) => lo <= p <= hi
  | _ => True
  end.

(** No percentage scraped from the separation tool is above [cap]. *)
Definition capped (w : World) (cap : Z) : Prop :=
  forall cmd proc,
    demucs_proc w cmd = Returned proc ->
    Forall (fun pct => pct <= cap) (scraped proc).

(** A click on the run button and what follows: the effects of
    [start_job], then, when it has started a worker, those of the slots
    connected to the worker's signals, in the order the signals are
    emitted. *)
Definition window_session (g : MainWindow.Window) (w : World)
  : list MainWindow.gui_effect :=
  let fx := MainWindow.start_job g in
  fx ++
  match MainWindow.started fx with
  | Some j => flat_map MainWindow.on_signal (events (run w j))
  | None => []
  end.

(** The arguments of the encoder, lines 151-154. *)
Definition ff_cmd (j : Job) (tmp_path mp3_temp_path : Path) : list str :=
  [lit "ffmpeg"; lit "-y"; lit "-i"; PyPath.to_str tmp_path;
   lit "-vn"; lit "-c:a"; lit "libmp3lame"; lit "-b:a";
   bitrate j ++ lit "k"; PyPath.to_str mp3_temp_path].

(** What the loop of lines 180-183 does for one stem that moves. *)
Definition moved (stems_dest stem_file : Path) : list effect :=
  [Move (PyPath.to_str stem_file)
        (PyPath.to_str (stems_dest // PyPath.name stem_file));
   Emit (LogLine (arrow_prefix ++ PyPath.name stem_file))].

(** A matcher that matches exactly the strings of [heads] at the start of
    a text. *)
Definition accepts (m : Re.matcher) (heads : list str) : Prop :=
  forall k s,
    m k s = true <->
    exists p rest, In p heads /\ s = p ++ rest /\ k rest = true.

(** Each string of the first list followed by each of the second. *)
Definition products (l1 l2 : list str) : list str :=
  flat_map (fun a => List.map (app a) l2) l1.

(** Whether the run button is enabled once the effects have been applied,
    given whether it was before. *)
Definition run_enabled_after (fx : list MainWindow.gui_effect)
    (enabled : bool) : bool :=
  fold_left (fun st x => match x with
                         | MainWindow.SetRunEnabled b => b
                         | _ => st
                         end) fx enabled.

(** The ways a link may begin: an optional scheme, an optional [www.],
    one of the three hosts, a slash. *)
Definition url_schemes : list str := [lit "https://"; lit "http://"; []].
Definition url_wwws : list str := [lit "www."; []].
Definition url_hosts : list str :=
  [lit "youtube.com"; lit "youtu.be"; lit "soundcloud.com"].
Definition url_heads : list str :=
  products url_schemes (products url_wwws (products url_hosts [lit "/"])).

(** Every member of the first list is in the second. *)
Definition all_among (l1 l2 : list str) : bool :=
  forallb (fun p => existsb (PyStr.eqb p) l2) l1.

(* ===================================================================== *)
(** * Properties *)
(* ===================================================================== *)

(** ** Trimming *)

Section Strip.
Variable p : char -> bool.

Lemma lstrip_split (s : str) :
  exists d, s = d ++ lstrip p s /\ Forall (fun c => p c = true) d.
Proof.
  induction s as [|c t [d [E F]]]; simpl.
  - exists []. split; [reflexivity | constructor].
  - destruct (p c) eqn:Hc.
    + exists (c :: d). split; [simpl; congruence | constructor; assumption].
    + exists []. split; [reflexivity | constructor].
Qed.

Lemma rstrip_split (s : str) :
  exists d, s = rstrip p s ++ d /\ Forall (fun c => p c = true) d.
Proof.
  unfold rstrip. destruct (lstrip_split (rev s)) as [d [E F]].
  exists (rev d). split.
  - rewrite <- rev_app_distr, <- E, rev_involutive. reflexivity.
  - apply Forall_rev. assumption.
Qed.

Lemma lstrip_head_kept (s : str) : head_kept p (lstrip p s) = true.
Proof.
  induction s as [|c t IH]; simpl; [reflexivity|].
  destruct (p c) eqn:Hc; [assumption | simpl; rewrite Hc; reflexivity].
Qed.

Lemma head_kept_lstrip (s : str) : head_kept p s = true -> lstrip p s = s.
Proof.
  destruct s as [|c t]; simpl; [reflexivity|].
  destruct (p c); [discriminate | reflexivity].
Qed.

Lemma head_kept_prefix (s d : str) :
  head_kept p (s ++ d) = true -> head_kept p s = true.
Proof. destruct s; simpl; auto. Qed.

Lemma lstrip_idem (s : str) : lstrip p (lstrip p s) = lstrip p s.
Proof. apply head_kept_lstrip, lstrip_head_kept. Qed.

Lemma rstrip_idem (s : str) : rstrip p (rstrip p s) = rstrip p s.
Proof. unfold rstrip. rewrite rev_involutive, lstrip_idem. reflexivity. Qed.

Lemma strip_idem (s : str) : strip p (strip p s) = strip p s.
Proof.
  unfold strip.
  assert (H : lstrip p (rstrip p (lstrip p s)) = rstrip p (lstrip p s)).
  { apply head_kept_lstrip.
    destruct (rstrip_split (lstrip p s)) as [d [E _]].
    apply head_kept_prefix with (d := d). rewrite <- E.
    apply lstrip_head_kept. }
  rewrite H. apply rstrip_idem.
Qed.

End Strip.

(** ** [sanitize_filename] *)

Lemma tidy_weaken (s : str) : tidy true s = true -> tidy false s = true.
Proof.
  destruct s as [|c t]; simpl; [reflexivity|].
  destruct (is_sep c); [discriminate | auto].
Qed.

Lemma tidy_tail (b : bool) (c : char) (t : str) :
  tidy b (c :: t) = true -> tidy false t = true.
Proof.
  simpl. destruct (is_sep c); intros H.
  - apply tidy_weaken. apply andb_true_iff in H. apply H.
  - apply andb_true_iff in H. apply H.
Qed.

Lemma tidy_prefix (s d : str) (b : bool) :
  tidy b (s ++ d) = true -> tidy b s = true.
Proof.
  revert b. induction s as [|c t IH]; intros b; simpl; [reflexivity|].
  destruct (is_sep c); intros H; apply andb_true_iff in H;
    destruct H as [H1 H2]; rewrite H1; simpl; eauto.
Qed.

Lemma tidy_lstrip (p : char -> bool) (s : str) :
  tidy false s = true -> tidy false (lstrip p s) = true.
Proof.
  induction s as [|c t IH]; intros H; simpl; [reflexivity|].
  destruct (p c); [apply IH; eapply tidy_tail; eassumption | assumption].
Qed.

Lemma tidy_strip (p : char -> bool) (s : str) :
  tidy false s = true -> tidy false (strip p s) = true.
Proof.
  intros H. unfold strip.
  destruct (rstrip_split p (lstrip p s)) as [d [E _]].
  apply tidy_prefix with (d := d). rewrite <- E. apply tidy_lstrip, H.
Qed.

Lemma collapse_replace_tidy (s : str) (b : bool) :
  tidy b (collapse_runs b (replace_unsafe s)) = true.
Proof.
  revert b. induction s as [|c t IH]; intros b; simpl; [reflexivity|].
  destruct (is_sep (if is_unsafe c then underscore else c)) eqn:Hs.
  - destruct b; simpl; [apply IH|]. apply IH.
  - simpl. rewrite Hs. rewrite IH.
    destruct (is_unsafe c) eqn:Hu; [discriminate Hs | rewrite Hu; reflexivity].
Qed.

Lemma tidy_replace (s : str) (b : bool) :
  tidy b s = true -> replace_unsafe s = s.
Proof.
  revert b. induction s as [|c t IH]; intros b; simpl; [reflexivity|].
  destruct (is_sep c) eqn:Hs; intros H; apply andb_true_iff in H;
    destruct H as [H1 H2].
  - apply andb_true_iff in H1. destruct H1 as [_ H1].
    apply N.eqb_eq in H1. subst c. simpl. f_equal. eapply IH; eassumption.
  - apply negb_true_iff in H1. rewrite H1. f_equal. eapply IH; eassumption.
Qed.

Lemma tidy_collapse (s : str) (b : bool) :
  tidy b s = true -> collapse_runs b s = s.
Proof.
  revert b. induction s as [|c t IH]; intros b; simpl; [reflexivity|].
  destruct (is_sep c) eqn:Hs; intros H; apply andb_true_iff in H;
    destruct H as [H1 H2].
  - apply andb_true_iff in H1. destruct H1 as [Hb H1].
    apply N.eqb_eq in H1. apply negb_true_iff in Hb. subst c b.
    f_equal. apply IH, H2.
  - f_equal. apply IH, H2.
Qed.

Lemma sanitize_tidy (s : str) : tidy false (sanitize_filename s) = true.
Proof. apply tidy_strip, collapse_replace_tidy. Qed.

(** C4. [sanitize_filename] is idempotent: sanitizing a sanitized name
    gives it back, for every string. *)
Theorem sanitize_filename_idempotent (s : str) :
  sanitize_filename (sanitize_filename s) = sanitize_filename s.
Proof.
  pose proof (sanitize_tidy s) as T.
  unfold sanitize_filename at 1.
  rewrite (tidy_replace _ _ T), (tidy_collapse _ _ T).
  unfold sanitize_filename. apply strip_idem.
Qed.

Example sanitize_my_song :
  sanitize_filename (lit "My: Song / Mix") = lit "My_Song_Mix".
Proof. reflexivity. Qed.

Example scrape_first_match :
  scrape_percent (lit " 45%|####      | 3/7 [00:01<00:02, 70%]") = Some 45.
Proof. reflexivity. Qed.

Example scrape_four_digits : scrape_percent (lit "1000%") = Some 0.
Proof. reflexivity. Qed.

Example scrape_none : scrape_percent (lit "50 % done") = None.
Proof. reflexivity. Qed.

Example scrape_arabic_indic :
  scrape_percent [0x665; 0x660; 37]%N = Some 50.
Proof. reflexivity. Qed.

Example path_join :
  PyPath.to_str (PyPath.of_str (lit "/tmp/./a//b.tar.gz") // lit "c.mp3")
  = lit "/tmp/a/b.tar.gz/c.mp3".
Proof. reflexivity. Qed.

Example path_join_rooted :
  PyPath.to_str (PyPath.of_str (lit "/tmp") // lit "/etc/x") = lit "/etc/x".
Proof. reflexivity. Qed.

Example path_stem_suffix :
  PyPath.stem (PyPath.of_str (lit "/tmp/a/b.tar.gz")) = lit "b.tar"
  /\ PyPath.suffix (PyPath.of_str (lit "/tmp/a/b.tar.gz")) = lit ".gz"
  /\ PyPath.stem (PyPath.of_str (lit ".bashrc")) = lit ".bashrc"
  /\ PyPath.suffix (PyPath.of_str (lit "a.")) = [].
Proof. repeat split; reflexivity. Qed.

Example sanitize_edges :
  sanitize_filename (lit "  __a  b__ ") = lit "a_b".
Proof. reflexivity. Qed.

(** ** The monad *)

Lemma emitted_bind {A B} (m : M A) (k : A -> M B) (reg : list Path) :
  emitted (bind m k reg) =
  emitted (m reg) ++
  match result (m reg) with
  | Returned a => emitted (k a (registry (m reg)))
  | _ => []
  end.
Proof.
  unfold bind. destruct (result (m reg)); simpl;
    rewrite ?app_nil_r; reflexivity.
Qed.

Lemma bind_returned {A B} (m : M A) (k : A -> M B) reg tr reg' a :
  m reg = mkStep tr reg' (Returned a) ->
  bind m k reg =
  mkStep (tr ++ emitted (k a reg')) (registry (k a reg')) (result (k a reg')).
Proof. intros E. unfold bind. rewrite E. reflexivity. Qed.

Lemma bind_raised {A B} (m : M A) (k : A -> M B) reg tr reg' e :
  m reg = mkStep tr reg' (Raised e) ->
  bind m k reg = mkStep tr reg' (Raised e).
Proof. intros E. unfold bind. rewrite E. reflexivity. Qed.

Lemma bind_stuck {A B} (m : M A) (k : A -> M B) reg tr reg' :
  m reg = mkStep tr reg' Stuck ->
  bind m k reg = mkStep tr reg' Stuck.
Proof. intros E. unfold bind. rewrite E. reflexivity. Qed.

Section Quiet.
Variable P : effect -> Prop.

Lemma quiet_ret {A} (a : A) : quiet P (ret a).
Proof. intros reg. constructor. Qed.

Lemma quiet_raise {A} (e : str) : quiet P (@raise A e).
Proof. intros reg. constructor. Qed.

Lemma quiet_register (p : Path) : quiet P (register p).
Proof. intros reg. constructor. Qed.

Lemma quiet_ended (o : outcome unit) : quiet P (ended o).
Proof. intros reg. constructor. Qed.

Lemma quiet_emit (e : event) : P (Emit e) -> quiet P (emit e).
Proof. intros H reg. repeat constructor. exact H. Qed.

Lemma quiet_call {A} (c : effect) (o : outcome A) : P c -> quiet P (call c o).
Proof. intros H reg. repeat constructor. exact H. Qed.

Lemma quiet_bind {A B} (m : M A) (k : A -> M B) :
  quiet P m -> (forall a, quiet P (k a)) -> quiet P (bind m k).
Proof.
  intros Hm Hk reg. rewrite emitted_bind. apply Forall_app. split.
  - apply Hm.
  - destruct (result (m reg)); [apply Hk | constructor | constructor].
Qed.

End Quiet.

Ltac quiet_tac :=
  repeat first
    [ apply quiet_ret | apply quiet_raise | apply quiet_register
    | apply quiet_emit | apply quiet_call
    | apply quiet_bind; [| intros ]
    | match goal with
      | |- quiet _ (if ?b then _ else _) => destruct b
      | |- quiet _ (let '(_, _) := ?x in _) => destruct x
      | |- quiet _ (match ?x with _ => _ end) => destruct x
      end ];
  try exact I.

(** A predicate that holds of every signal but [done] and of every call of
    the [try] block. *)
Definition passes_body (P : effect -> Prop) : Prop :=
  (forall t, P (Emit (LogLine t))) /\ (forall p, P (Emit (Progress p))) /\
  (forall x, not_emit x -> not_unlink x -> P x).

Lemma not_done_passes : passes_body not_done.
Proof.
  repeat split; intros; try exact I. destruct x; try exact I.
  destruct H.
Qed.

Lemma not_unlink_passes : passes_body not_unlink.
Proof. repeat split; intros; try exact I. assumption. Qed.

Section Body.
Variable P : effect -> Prop.
Hypothesis HP : passes_body P.

Lemma passes_log t : P (Emit (LogLine t)).
Proof. exact (proj1 HP t). Qed.

Lemma passes_progress p : P (Emit (Progress p)).
Proof. exact (proj1 (proj2 HP) p). Qed.

Lemma passes_call x : not_emit x -> not_unlink x -> P x.
Proof. exact (proj2 (proj2 HP) x). Qed.

Lemma scan_line_passes offset span line :
  Forall P (scan_line offset span line).
Proof.
  unfold scan_line. apply Forall_app. split.
  - destruct (strip is_space line); repeat constructor. apply passes_log.
  - destruct (span =? 0); [constructor|].
    destruct (scrape_percent line); repeat constructor. apply passes_progress.
Qed.

Lemma run_subprocess_quiet spawn cmd offset span :
  quiet P (_run_subprocess spawn cmd offset span).
Proof.
  unfold _run_subprocess.
  apply quiet_bind; [apply quiet_call, passes_call; exact I | intros proc].
  apply quiet_bind.
  - intros reg. simpl. apply Forall_flat_map, Forall_forall.
    intros line _. apply scan_line_passes.
  - intros _.
    apply quiet_bind; [apply quiet_ended | intros _].
    apply quiet_bind; [apply quiet_ended | intros _].
    destruct (returncode proc =? 0); [apply quiet_ret | apply quiet_raise].
Qed.

Ltac body_tac :=
  repeat first
    [ apply run_subprocess_quiet
    | apply quiet_ret | apply quiet_raise | apply quiet_register
    | apply quiet_emit; first [apply passes_log | apply passes_progress]
    | apply quiet_call; apply passes_call; exact I
    | apply quiet_bind; [| intros ]
    | match goal with
      | |- quiet _ (if ?b then _ else _) => destruct b
      | |- quiet _ (let '(_, _) := ?x in _) => destruct x
      end ].

Lemma acquire_quiet w j tmp_dir : quiet P (acquire w j tmp_dir).
Proof. unfold acquire. body_tac. Qed.

Lemma analyze_quiet w tmp_path : quiet P (analyze w tmp_path).
Proof. unfold analyze, analyze_bpm_key. body_tac. Qed.

Lemma transcode_quiet w j tmp_dir tmp_path title :
  quiet P (transcode w j tmp_dir tmp_path title).
Proof. unfold transcode. body_tac. Qed.

Lemma separate_quiet w j tmp_dir mp3 : quiet P (separate w j tmp_dir mp3).
Proof. unfold separate. body_tac. Qed.

Lemma move_stems_quiet mv dest files i : quiet P (move_stems mv dest i files).
Proof.
  revert i. induction files as [|f rest IH]; intros i; simpl.
  - apply quiet_ret.
  - apply quiet_bind; [body_tac | intros _].
    apply quiet_bind; [body_tac | intros _]. apply IH.
Qed.

Lemma relocate_quiet w j out fn mp3 title :
  quiet P (relocate w j out fn mp3 title).
Proof.
  unfold relocate.
  apply quiet_bind; [body_tac | intros _].
  apply quiet_bind; [body_tac | intros present].
  apply quiet_bind; [| intros _; body_tac].
  destruct present; [| body_tac].
  apply quiet_bind; [body_tac | intros _].
  apply quiet_bind; [body_tac | intros files].
  apply quiet_bind; [apply move_stems_quiet | intros _; body_tac].
Qed.

Lemma prepare_quiet w j tmp_dir : quiet P (prepare w j tmp_dir).
Proof.
  unfold prepare.
  apply quiet_bind; [apply acquire_quiet | intros [tmp_path title]].
  apply quiet_bind; [apply analyze_quiet | intros _].
  apply quiet_bind; [apply transcode_quiet | intros [fn mp3]].
  apply quiet_ret.
Qed.

Lemma stages_quiet w j tmp_dir : quiet P (stages w j tmp_dir).
Proof.
  unfold stages.
  apply quiet_bind; [apply prepare_quiet | intros [[title fn] mp3]].
  apply quiet_bind; [apply separate_quiet | intros out].
  apply relocate_quiet.
Qed.

End Body.

(** ** The shape of a run *)

Lemma run_shape (w : World) (j : Job) (d : str) :
  gettempdir w = Returned d ->
  run w j =
  emitted (body w j (PyPath.of_str d)) ++
  match result (body w j (PyPath.of_str d)) with
  | Returned dest =>
      [Emit (Progress 100); Emit (Done (msg_finished dest))]
      ++ sweep w 0 (registry (body w j (PyPath.of_str d)))
  | Raised e =>
      [Emit (Done (msg_error e))]
      ++ sweep w 0 (registry (body w j (PyPath.of_str d)))
  | Stuck => []
  end.
Proof.
  intros E. unfold run. rewrite E.
  unfold leave, tried, try_block, body, bind.
  destruct (stages w j (PyPath.of_str d) []) as [tr reg [dest|e|]]; simpl.
  - rewrite <- !app_assoc. reflexivity.
  - reflexivity.
  - reflexivity.
Qed.

Lemma run_idle (w : World) (j : Job) :
  (forall d, gettempdir w <> Returned d) -> run w j = [].
Proof.
  intros H. unfold run. destruct (gettempdir w) as [d| |];
    [destruct (H d eq_refl) | reflexivity | reflexivity].
Qed.

Lemma run_cases (w : World) (j : Job) :
  (exists d, gettempdir w = Returned d) \/ run w j = [].
Proof.
  unfold run. destruct (gettempdir w) as [d| |]; eauto.
Qed.

Lemma tried_result (w : World) (j : Job) (tmp_dir : Path) :
  result (tried w j tmp_dir) =
  match result (body w j tmp_dir) with
  | Returned _ => Returned tt
  | Raised e => Raised e
  | Stuck => Stuck
  end.
Proof.
  unfold tried, try_block, body, bind.
  destruct (stages w j tmp_dir []) as [tr reg [dest|e|]]; reflexivity.
Qed.

Lemma events_app (a b : list effect) : events (a ++ b) = events a ++ events b.
Proof. apply flat_map_app. Qed.

Lemma sweep_only_probes (w : World) (files : list Path) (i : nat) :
  Forall (fun x => exists p, x = Exists p \/ x = Unlink p) (sweep w i files).
Proof.
  revert i. induction files as [|f rest IH]; intros i; simpl; [constructor|].
  unfold sweep_one.
  destruct (sweep_exists w i f) as [[|]| |];
    [destruct (sweep_unlink w i f)| | |]; simpl;
    repeat constructor; eauto; try apply IH.
Qed.

Lemma sweep_silent (w : World) (files : list Path) (i : nat) :
  events (sweep w i files) = [].
Proof.
  pose proof (sweep_only_probes w files i) as H.
  induction H as [|x l [p [E|E]] _ IH]; [reflexivity | |]; subst; exact IH.
Qed.

Lemma not_done_events (tr : list effect) (m : str) :
  Forall not_done tr -> ~ In (Done m) (events tr).
Proof.
  induction 1 as [|x l Hx _ IH]; [intros []|].
  unfold events; simpl. fold (events l). intros H.
  apply in_app_or in H. destruct H as [H|H]; [|exact (IH H)].
  destruct x as [[| |]| | | | | | | | | | |]; simpl in H;
    try solve [destruct H as [H|[]]; discriminate H | destruct H].
  exact Hx.
Qed.

Lemma finished_reports_success (d : Path) : reports_success (msg_finished d).
Proof. unfold reports_success, startswith, msg_finished. eauto. Qed.

Lemma error_reports_failure (e : str) : reports_failure (msg_error e).
Proof. unfold reports_failure, startswith, msg_error. eauto. Qed.

Lemma failure_not_success (m : str) : reports_failure m -> ~ reports_success m.
Proof. intros [r1 E1] [r2 E2]. subst m. discriminate E2. Qed.

Lemma run_raised_not_succeeded (w : World) (j : Job) (d e : str) :
  gettempdir w = Returned d ->
  result (body w j (PyPath.of_str d)) = Raised e -> ~ succeeded (run w j).
Proof.
  intros Ed E [m [Hin Hm]].
  assert (Q : Forall not_done (emitted (body w j (PyPath.of_str d))))
    by apply (stages_quiet not_done not_done_passes).
  rewrite (run_shape w j d Ed), E, events_app in Hin.
  apply in_app_or in Hin. destruct Hin as [Hin|Hin].
  - exact (not_done_events _ _ Q Hin).
  - rewrite events_app, sweep_silent in Hin. simpl in Hin.
    destruct Hin as [Hin|[]]. inversion Hin; subst m.
    exact (failure_not_success _ (error_reports_failure e) Hm).
Qed.

(** C1. A job that completes successfully (whatever its bitrate and model,
    so in particular for the four bitrates and five models of the window)
    emits [Progress 100] and then, with nothing in between, a [Done] that
    reports success; no signal follows. *)
Theorem success_ends_with_full_progress (w : World) (j : Job) :
  succeeded (run w j) ->
  exists before message after,
    run w j = before ++ Emit (Progress 100) :: Emit (Done message) :: after
    /\ reports_success message
    /\ events after = []
    /\ events (run w j) = events before ++ [Progress 100; Done message].
Proof.
  intros [m [Hin Hm]].
  destruct (run_cases w j) as [[d Ed]|E0];
    [| rewrite E0 in Hin; destruct Hin].
  pose proof (stages_quiet not_done not_done_passes w j
                (PyPath.of_str d) []) as Q.
  fold (body w j (PyPath.of_str d)) in Q.
  rewrite (run_shape w j d Ed) in *.
  destruct (result (body w j (PyPath.of_str d))) as [dest|e|].
  - exists (emitted (body w j (PyPath.of_str d))), (msg_finished dest),
           (sweep w 0 (registry (body w j (PyPath.of_str d)))).
    split; [reflexivity|]. split; [apply finished_reports_success|].
    split; [apply sweep_silent|].
    rewrite !events_app, sweep_silent, app_nil_r. reflexivity.
  - exfalso. rewrite !events_app, sweep_silent, app_nil_r in Hin.
    apply in_app_or in Hin. destruct Hin as [Hin|Hin].
    + exact (not_done_events _ _ Q Hin).
    + simpl in Hin. destruct Hin as [Hin|[]]. inversion Hin; subst m.
      exact (failure_not_success _ (error_reports_failure e) Hm).
  - exfalso. rewrite app_nil_r in Hin. exact (not_done_events _ _ Q Hin).
Qed.

(** ** Lists in order *)

Lemma sorted_nondecreasing (l : list Z) : Sorted Z.le l -> nondecreasing l.
Proof.
  induction 1 as [|x l HS IH Hd]; intros pre p q post E.
  - destruct pre; discriminate E.
  - destruct pre as [|z pre]; simpl in E; inversion E; subst.
    + inversion Hd; subst. assumption.
    + eapply IH. reflexivity.
Qed.

Lemma nondecreasing_sorted (l : list Z) : nondecreasing l -> Sorted Z.le l.
Proof.
  induction l as [|x l IH]; intros H; constructor.
  - apply IH. intros pre p q post E. apply (H (x :: pre) p q post).
    simpl. rewrite E. reflexivity.
  - destruct l as [|y l]; constructor. apply (H [] x y l). reflexivity.
Qed.

Lemma ranged_nil (lo hi : Z) : lo <= hi -> ranged lo hi [].
Proof. intros H. repeat split; [assumption | constructor | constructor]. Qed.

Lemma ranged_one (p : Z) : ranged p p [p].
Proof.
  repeat split; [lia | repeat constructor | repeat constructor; lia].
Qed.

Lemma ranged_weaken (a b a' b' : Z) (l : list Z) :
  a' <= a -> b <= b' -> ranged a b l -> ranged a' b' l.
Proof.
  intros Ha Hb [H1 [H2 H3]]. repeat split; [lia | assumption |].
  eapply Forall_impl; [|exact H3]. simpl. intros; lia.
Qed.

Lemma ranged_app (a b c : Z) (l1 l2 : list Z) :
  ranged a b l1 -> ranged b c l2 -> ranged a c (l1 ++ l2).
Proof.
  intros [Hab [S1 F1]] [Hbc [S2 F2]]. repeat split; [lia | |].
  - induction l1 as [|x l1 IH]; simpl; [assumption|].
    inversion S1; subst. inversion F1; subst.
    constructor; [apply IH; assumption|].
    destruct l1 as [|y l1]; simpl.
    + destruct l2 as [|z l2]; constructor.
      inversion F2; subst. lia.
    + constructor. inversion H2; subst. assumption.
  - apply Forall_app. split; (eapply Forall_impl; [|eassumption]);
      simpl; intros; lia.
Qed.

(** ** The percent pattern *)

Lemma decimal_value_range (c : char) (d : Z) :
  decimal_value c = Some d -> 0 <= d <= 9.
Proof.
  unfold decimal_value.
  destruct (find _ decimal_zeros) as [z|] eqn:E; [|discriminate].
  apply find_some in E. destruct E as [_ E].
  apply andb_true_iff in E. destruct E as [E1 E2].
  apply N.leb_le in E1. apply N.ltb_lt in E2.
  intros H. inversion H; subst. lia.
Qed.

Lemma digits_then_percent_range (k : nat) (s : str) (ds : list Z) :
  digits_then_percent k s = Some ds -> Forall (fun d => 0 <= d <= 9) ds.
Proof.
  revert s ds. induction k as [|k IH]; intros [|c t] ds; simpl;
    try discriminate.
  - destruct (c =? percent_sign)%N; [|discriminate].
    intros H; inversion H. constructor.
  - destruct (decimal_value c) as [d|] eqn:Ed; [|discriminate].
    destruct (digits_then_percent k t) as [ds'|] eqn:E; [|discriminate].
    intros H. inversion H; subst. constructor.
    + eapply decimal_value_range; eassumption.
    + eapply IH; eassumption.
Qed.

Lemma match_here_range (s : str) (ds : list Z) :
  match_here s = Some ds -> Forall (fun d => 0 <= d <= 9) ds.
Proof.
  unfold match_here.
  destruct (digits_then_percent 3 s) eqn:E3;
    [intros H; inversion H; subst; eapply digits_then_percent_range; eassumption|].
  destruct (digits_then_percent 2 s) eqn:E2;
    [intros H; inversion H; subst; eapply digits_then_percent_range; eassumption|].
  apply digits_then_percent_range.
Qed.

Lemma search_cons (c : char) (t : str) :
  search (c :: t) =
  match match_here (c :: t) with Some ds => Some ds | None => search t end.
Proof. reflexivity. Qed.

Lemma search_range (s : str) (ds : list Z) :
  search s = Some ds -> Forall (fun d => 0 <= d <= 9) ds.
Proof.
  induction s as [|c t IH].
  - discriminate.
  - rewrite search_cons.
    destruct (match_here (c :: t)) eqn:E; [|exact IH].
    intros H; inversion H; subst. eapply match_here_range; eassumption.
Qed.

Lemma int_of_digits_nonneg (ds : list Z) :
  Forall (fun d => 0 <= d <= 9) ds -> 0 <= int_of_digits ds.
Proof.
  unfold int_of_digits. intros H.
  assert (G : forall acc, 0 <= acc ->
            0 <= fold_left (fun a d => 10 * a + d) ds acc).
  { induction H as [|d ds Hd _ IH]; intros acc Hacc; cbn [fold_left];
      [assumption|].
    apply IH. cbv beta in Hd. lia. }
  apply G. lia.
Qed.

Lemma scrape_percent_nonneg (line : str) (pct : Z) :
  scrape_percent line = Some pct -> 0 <= pct.
Proof.
  unfold scrape_percent. destruct (search line) as [ds|] eqn:E; [|discriminate].
  intros H. inversion H. apply int_of_digits_nonneg.
  eapply search_range; eassumption.
Qed.

Lemma scraped_nonneg (proc : proc_output) :
  Forall (fun pct => 0 <= pct) (scraped proc).
Proof.
  unfold scraped. apply Forall_flat_map, Forall_forall. intros line _.
  destruct (scrape_percent line) eqn:E; repeat constructor.
  eapply scrape_percent_nonneg; eassumption.
Qed.

(** ** Progress values of a computation *)

Lemma progress_values_app (a b : list effect) :
  progress_values (a ++ b) = progress_values a ++ progress_values b.
Proof. apply flat_map_app. Qed.

Lemma scan_line_progress (offset span : Z) (line : str) :
  progress_values (scan_line offset span line) =
  if span =? 0 then []
  else match scrape_percent line with
       | Some pct => [offset + pct * span / 100]
       | None => []
       end.
Proof.
  unfold scan_line. rewrite progress_values_app.
  assert (E : progress_values
                match strip is_space line with
                | [] => []
                | _ :: _ => [Emit (LogLine (arrow_prefix ++ strip is_space line))]
                end = []) by (destruct (strip is_space line); reflexivity).
  cbv zeta. rewrite E. simpl.
  destruct (span =? 0); [reflexivity|].
  destruct (scrape_percent line); reflexivity.
Qed.

Lemma scan_progress (offset span : Z) (proc : proc_output) :
  progress_values (flat_map (scan_line offset span) (stderr_lines proc)) =
  if span =? 0 then []
  else List.map (fun pct => offset + pct * span / 100) (scraped proc).
Proof.
  unfold scraped. induction (stderr_lines proc) as [|line rest IH]; simpl.
  - destruct (span =? 0); reflexivity.
  - rewrite progress_values_app, IH, scan_line_progress.
    destruct (span =? 0); [reflexivity|].
    rewrite map_app. destruct (scrape_percent line); reflexivity.
Qed.

Lemma run_subprocess_emitted spawn cmd offset span reg :
  emitted (_run_subprocess spawn cmd offset span reg) =
  Popen cmd ::
  match spawn cmd with
  | Returned proc => flat_map (scan_line offset span) (stderr_lines proc)
  | _ => []
  end.
Proof.
  unfold _run_subprocess, bind, call, ended. simpl.
  destruct (spawn cmd) as [proc|e|]; simpl; [|reflexivity|reflexivity].
  destruct (stderr_end proc) as [[]|e1|]; simpl;
    [|rewrite app_nil_r; reflexivity|rewrite app_nil_r; reflexivity].
  destruct (stdout_end proc) as [[]|e2|]; simpl;
    [|rewrite app_nil_r; reflexivity|rewrite app_nil_r; reflexivity].
  destruct (returncode proc =? 0); simpl; rewrite app_nil_r; reflexivity.
Qed.

Lemma within_ret {A} (a b : Z) (x : A) : a <= b -> within a b (ret x).
Proof. intros H reg. apply ranged_nil, H. Qed.

Lemma within_register (a : Z) (p : Path) : within a a (register p).
Proof. intros reg. apply ranged_nil. lia. Qed.

Lemma within_log (a : Z) (t : str) : within a a (emit (LogLine t)).
Proof. intros reg. apply ranged_nil. lia. Qed.

Lemma within_call {A} (a : Z) (c : effect) (o : outcome A) :
  not_emit c -> within a a (call c o).
Proof.
  intros H reg. destruct c; try destruct H; apply ranged_nil; lia.
Qed.

Lemma within_progress (a p : Z) : a <= p -> within a p (emit (Progress p)).
Proof.
  intros H reg. apply ranged_weaken with (a := p) (b := p); try lia.
  apply ranged_one.
Qed.

Lemma within_bind {A B} (a b c : Z) (m : M A) (k : A -> M B) :
  b <= c ->
  within a b m -> (forall x, within b c (k x)) -> within a c (bind m k).
Proof.
  intros Hbc Hm Hk reg. rewrite emitted_bind, progress_values_app.
  eapply ranged_app; [apply Hm|].
  destruct (result (m reg));
    [apply Hk | apply ranged_nil, Hbc | apply ranged_nil, Hbc].
Qed.

(** A computation that stays at [a] and then goes on. *)
Lemma within_then {A B} (a c : Z) (m : M A) (k : A -> M B) :
  a <= c ->
  within a a m -> (forall x, within a c (k x)) -> within a c (bind m k).
Proof. intros. eapply within_bind; eauto. Qed.

Lemma run_subprocess_flat spawn cmd offset (a : Z) :
  within a a (_run_subprocess spawn cmd offset 0).
Proof.
  intros reg. rewrite run_subprocess_emitted. simpl.
  destruct (spawn cmd) as [proc|e|]; try (apply ranged_nil; lia).
  rewrite scan_progress. simpl. apply ranged_nil. lia.
Qed.

Lemma mapped_ranged (l : list Z) :
  Sorted Z.le l -> Forall (fun pct => 0 <= pct) l ->
  Forall (fun pct => pct <= 100) l ->
  ranged 40 90 (List.map (fun pct => 40 + pct * 50 / 100) l).
Proof.
  intros HS H0 H100. repeat split; [lia | |].
  - induction HS as [|x l HS IH Hd]; cbn [List.map]; constructor.
    + inversion H0; inversion H100; subst. apply IH; assumption.
    + destruct Hd as [|y l Hxy]; cbn [List.map]; constructor.
      assert (x * 50 / 100 <= y * 50 / 100)
        by (apply Z.div_le_mono; lia).
      lia.
  - apply Forall_map. rewrite Forall_forall in *. intros x Hx.
    specialize (H0 x Hx). specialize (H100 x Hx). cbv beta in *.
    assert (0 <= x * 50 / 100) by (apply Z.div_pos; lia).
    assert (x * 50 / 100 <= 50)
      by (apply Z.div_le_upper_bound; lia).
    lia.
Qed.

Lemma run_subprocess_steady spawn cmd :
  (forall proc, spawn cmd = Returned proc -> steady proc) ->
  within 40 90 (_run_subprocess spawn cmd 40 50).
Proof.
  intros H reg. rewrite run_subprocess_emitted. simpl.
  destruct (spawn cmd) as [proc|e|]; try (apply ranged_nil; lia).
  rewrite scan_progress. simpl.
  destruct (H proc eq_refl) as [Hs H100].
  apply mapped_ranged;
    [apply nondecreasing_sorted, Hs | apply scraped_nonneg | exact H100].
Qed.

Lemma acquire_within w j tmp_dir : within 0 10 (acquire w j tmp_dir).
Proof.
  unfold acquire. destruct (is_file j).
  - apply within_then; [lia | apply within_log | intros _].
    apply within_then; [lia | | intros _].
    + destruct (PyPath.eqb _ _); [apply within_ret; lia|].
      apply within_then; [lia | apply within_call; exact I | intros _].
      apply within_register.
    + apply within_bind with (b := 10);
        [lia | apply within_progress; lia | intros _; apply within_ret; lia].
  - apply within_then; [lia | apply within_call; exact I | intros _].
    apply within_then; [lia | apply within_log | intros _].
    apply within_bind with (b := 0);
      [lia | apply within_progress; lia | intros _].
    apply within_then; [lia | apply within_call; exact I | intros fn].
    apply within_then; [lia | apply within_register | intros _].
    apply within_bind with (b := 10);
      [lia | apply within_progress; lia | intros _; apply within_ret; lia].
Qed.

Lemma analyze_within w tmp_path (a : Z) : within a a (analyze w tmp_path).
Proof.
  unfold analyze, analyze_bpm_key.
  apply within_then; [lia | | intros [bpm key]].
  - apply within_then; [lia | apply within_call; exact I | intros [[b k] sc]].
    apply within_ret; lia.
  - apply within_then; [lia | apply within_log | intros _; apply within_log].
Qed.

Lemma transcode_within w j tmp_dir tmp_path title :
  within 10 40 (transcode w j tmp_dir tmp_path title).
Proof.
  unfold transcode.
  apply within_then; [lia | apply within_log | intros _].
  apply within_then; [lia | apply within_register | intros _].
  apply within_then; [lia | apply run_subprocess_flat | intros _].
  apply within_bind with (b := 40);
    [lia | apply within_progress; lia | intros _; apply within_ret; lia].
Qed.

Lemma separate_within w j tmp_dir mp3 :
  (forall cmd proc, demucs_proc w cmd = Returned proc -> steady proc) ->
  within 40 90 (separate w j tmp_dir mp3).
Proof.
  intros H. unfold separate.
  apply within_then; [lia | apply within_log | intros _].
  apply within_bind with (b := 90);
    [lia | apply run_subprocess_steady; intros proc; apply H | intros _].
  apply within_bind with (b := 90);
    [lia | apply within_progress; lia | intros _; apply within_ret; lia].
Qed.

Lemma move_stems_within mv dest files i (a : Z) :
  within a a (move_stems mv dest i files).
Proof.
  revert i. induction files as [|f rest IH]; intros i; simpl.
  - apply within_ret; lia.
  - apply within_then; [lia | apply within_call; exact I | intros _].
    apply within_then; [lia | apply within_log | intros _]. apply IH.
Qed.

Lemma relocate_within w j out fn mp3 title (a : Z) :
  within a a (relocate w j out fn mp3 title).
Proof.
  unfold relocate.
  apply within_then; [lia | apply within_log | intros _].
  apply within_then; [lia | apply within_call; exact I | intros present].
  apply within_then; [lia | | intros _].
  - destruct present; [|apply within_log].
    apply within_then; [lia | apply within_call; exact I | intros _].
    apply within_then; [lia | apply within_call; exact I | intros files].
    apply within_then; [lia | apply move_stems_within | intros _].
    apply within_call; exact I.
  - apply within_then; [lia | apply within_call; exact I | intros _].
    apply within_ret; lia.
Qed.

Lemma stages_within w j tmp_dir :
  (forall cmd proc, demucs_proc w cmd = Returned proc -> steady proc) ->
  within 0 90 (stages w j tmp_dir).
Proof.
  intros H. unfold stages, prepare.
  apply within_bind with (b := 40); [lia | | intros [[title fn] mp3]].
  - apply within_bind with (b := 10);
      [lia | apply acquire_within | intros [tmp_path title]].
    apply within_then; [lia | apply analyze_within | intros _].
    apply within_bind with (b := 40);
      [lia | apply transcode_within | intros [fn mp3]].
    apply within_ret; lia.
  - apply within_bind with (b := 90);
      [lia | apply separate_within, H | intros out].
    apply relocate_within.
Qed.

Lemma sweep_no_progress (w : World) (files : list Path) (i : nat) :
  progress_values (sweep w i files) = [].
Proof.
  pose proof (sweep_only_probes w files i) as H.
  induction H as [|x l [p [E|E]] _ IH]; [reflexivity | |]; subst; exact IH.
Qed.

(** C2, as amended. When the percentages scraped from the separation
    tool never go back and never pass 100, the [Progress] events of the job
    are in order. *)
Theorem progress_in_order_for_steady_tool (w : World) (j : Job) :
  (forall cmd proc, demucs_proc w cmd = Returned proc -> steady proc) ->
  progress_nondecreasing (run w j).
Proof.
  intros H. apply sorted_nondecreasing.
  destruct (run_cases w j) as [[d Ed]|E0]; [| rewrite E0; constructor].
  pose proof (stages_within w j (PyPath.of_str d) H []) as R.
  fold (body w j (PyPath.of_str d)) in R.
  rewrite (run_shape w j d Ed), progress_values_app.
  assert (G : ranged 0 100
                (progress_values (emitted (body w j (PyPath.of_str d))) ++
                 progress_values
                   match result (body w j (PyPath.of_str d)) with
                   | Returned dest =>
                       [Emit (Progress 100); Emit (Done (msg_finished dest))]
                       ++ sweep w 0 (registry (body w j (PyPath.of_str d)))
                   | Raised e =>
                       [Emit (Done (msg_error e))]
                       ++ sweep w 0 (registry (body w j (PyPath.of_str d)))
                   | Stuck => []
                   end)).
  { eapply ranged_app; [exact R|].
    destruct (result (body w j (PyPath.of_str d)));
      rewrite ?progress_values_app, ?sweep_no_progress; simpl.
    - apply ranged_weaken with (a := 100) (b := 100); try lia.
      apply ranged_one.
    - apply ranged_nil. lia.
    - apply ranged_nil. lia. }
  apply G.
Qed.

Lemma restarting_progress :
  progress_values (run Sample.restarting Sample.local_job) =
  [10; 40; 65; 90; 40; 90; 90; 100].
Proof. vm_compute. reflexivity. Qed.

Lemma overshooting_progress :
  progress_values (run Sample.overshooting Sample.local_job) =
  [10; 40; 115; 90; 100].
Proof. vm_compute. reflexivity. Qed.

(** C2, as stated, fails: with a separation tool that draws a second
    progress bar, [Progress 90] is followed by [Progress 40]; and with a
    line that carries 150 percent, [Progress 115] is followed by
    [Progress 90]. *)
Lemma progress_goes_back :
  ~ progress_nondecreasing (run Sample.restarting Sample.local_job)
  /\ ~ progress_nondecreasing (run Sample.overshooting Sample.local_job).
Proof.
  split; intros H.
  - specialize (H [10; 40; 65] 90 40 [90; 90; 100] restarting_progress). lia.
  - specialize (H [10; 40] 115 90 [100] overshooting_progress). lia.
Qed.

(** The amended C2 on the sample job: 10, 50 and 100 percent. *)
Lemma progress_in_order_witness :
  (forall cmd proc,
      demucs_proc Sample.fair cmd = Returned proc -> steady proc)
  /\ progress_nondecreasing (run Sample.fair Sample.local_job).
Proof.
  assert (H : forall cmd proc,
             demucs_proc Sample.fair cmd = Returned proc -> steady proc).
  { intros cmd proc E. injection E as E. subst proc. split.
    - apply sorted_nondecreasing. vm_compute. repeat constructor; discriminate.
    - vm_compute. repeat constructor; discriminate. }
  split; [exact H|].
  apply (progress_in_order_for_steady_tool Sample.fair Sample.local_job H).
Defined.

(** C3. The code leaves the range 0..100: a diagnostic line that carries
    150 percent makes the worker emit [Progress 115]. *)
Theorem progress_leaves_range :
  In (Emit (Progress 115)) (run Sample.overshooting Sample.local_job)
  /\ ~ (0 <= 115 <= 100).
Proof.
  split; [|lia]. vm_compute.
  repeat (first [left; reflexivity | right]).
Qed.

(** C5. For a line of the diagnostic stream where the percent pattern
    matches with value [pct], and a window whose span is not zero, the
    runner emits [Progress (offset + pct * span / 100)], and nothing else as
    progress for that line; with offset 40, span 50 and 50 percent this is
    65. *)
Theorem scraped_percent_is_mapped
    (spawn : list str -> outcome proc_output) (cmd : list str)
    (offset span : Z) (proc : proc_output) (reg : list Path)
    (line : str) (pct : Z) :
  spawn cmd = Returned proc ->
  In line (stderr_lines proc) ->
  scrape_percent line = Some pct ->
  span <> 0 ->
  In (Emit (Progress (offset + pct * span / 100)))
     (emitted (_run_subprocess spawn cmd offset span reg))
  /\ progress_values (scan_line offset span line)
     = [offset + pct * span / 100]
  /\ (offset = 40 -> span = 50 -> pct = 50 ->
      offset + pct * span / 100 = 65).
Proof.
  intros Hs Hl Hp Hn.
  assert (E : progress_values (scan_line offset span line)
              = [offset + pct * span / 100]).
  { rewrite scan_line_progress, Hp.
    destruct (Z.eqb_spec span 0); [contradiction | reflexivity]. }
  split; [|split; [exact E|]].
  - rewrite run_subprocess_emitted, Hs. right.
    apply in_flat_map. exists line. split; [exact Hl|].
    unfold scan_line. apply in_or_app. right. rewrite Hp.
    destruct (Z.eqb_spec span 0); [contradiction | left; reflexivity].
  - intros -> -> ->. reflexivity.
Qed.

(** C5 on the example of the specification: offset 40, span 50, 50 percent. *)
Lemma scraped_percent_witness :
  In (Emit (Progress 65))
     (emitted (_run_subprocess
                 (fun _ => Returned (Sample.ok_proc [lit " 50%|#####     |"]))
                 [lit "demucs"] 40 50 []))
  /\ progress_values (scan_line 40 50 (lit " 50%|#####     |")) = [65].
Proof.
  destruct (scraped_percent_is_mapped
              (fun _ => Returned (Sample.ok_proc [lit " 50%|#####     |"]))
              [lit "demucs"] 40 50
              (Sample.ok_proc [lit " 50%|#####     |"]) []
              (lit " 50%|#####     |") 50
              eq_refl (or_introl eq_refl) eq_refl)
    as [H1 [H2 _]]; [discriminate|].
  split; [exact H1 | exact H2].
Defined.

(** C1 on the sample job, in the world where everything succeeds. *)
Lemma success_witness :
  valid_bitrate (bitrate Sample.local_job)
  /\ valid_model (model Sample.local_job)
  /\ succeeded (run Sample.fair Sample.local_job)
  /\ exists before message after,
      run Sample.fair Sample.local_job
      = before ++ Emit (Progress 100) :: Emit (Done message) :: after
      /\ reports_success message
      /\ events after = []
      /\ events (run Sample.fair Sample.local_job)
         = events before ++ [Progress 100; Done message].
Proof.
  assert (H : succeeded (run Sample.fair Sample.local_job)).
  { exists (msg_finished (PyPath.of_str (lit "/home/ann/stems/htdemucs/My_Song"))).
    split; [|apply finished_reports_success].
    vm_compute. repeat (first [left; reflexivity | right]). }
  split; [do 3 right; left; reflexivity|].
  split; [left; reflexivity|].
  split; [exact H|].
  exact (success_ends_with_full_progress Sample.fair Sample.local_job H).
Defined.

(** ** The separation step *)

(** The run of a child whose two pipes are read to the end. *)
Lemma run_subprocess_read spawn cmd offset span proc reg :
  spawn cmd = Returned proc ->
  stderr_end proc = Returned tt -> stdout_end proc = Returned tt ->
  _run_subprocess spawn cmd offset span reg =
  mkStep (Popen cmd :: flat_map (scan_line offset span) (stderr_lines proc))
         reg
         (if returncode proc =? 0 then Returned tt
          else Raised (failure_message proc)).
Proof.
  intros E E1 E2. unfold _run_subprocess, bind, call, ended. cbn.
  rewrite E. cbn. rewrite E1. cbn. rewrite E2. cbn.
  destruct (returncode proc =? 0); cbn; rewrite app_nil_r; reflexivity.
Qed.

Lemma run_subprocess_failed spawn cmd offset span proc reg :
  spawn cmd = Returned proc ->
  stderr_end proc = Returned tt -> stdout_end proc = Returned tt ->
  returncode proc <> 0 ->
  _run_subprocess spawn cmd offset span reg =
  mkStep (Popen cmd :: flat_map (scan_line offset span) (stderr_lines proc))
         reg (Raised (failure_message proc)).
Proof.
  intros E E1 E2 H.
  rewrite (run_subprocess_read _ _ _ _ _ _ E E1 E2).
  destruct (Z.eqb_spec (returncode proc) 0); [contradiction | reflexivity].
Qed.




Lemma contains_middle (a x b : str) : contains (a ++ x ++ b) x.
Proof. exists a, b. reflexivity. Qed.

Lemma contains_right (a m : str) (x : str) :
  contains m x -> contains (a ++ m) x.
Proof.
  intros [pre [post E]]. exists (a ++ pre), post.
  rewrite E, <- app_assoc. reflexivity.
Qed.

Lemma contains_end (a x : str) : contains (a ++ x) x.
Proof. exists a, []. rewrite app_nil_r. reflexivity. Qed.

Lemma contains_refl (x : str) : contains x x.
Proof. exists [], []. rewrite app_nil_r. reflexivity. Qed.

Lemma contains_start (x b : str) : contains (x ++ b) x.
Proof. exists [], b. reflexivity. Qed.


Lemma failure_message_exit_code (proc : proc_output) :
  contains (failure_message proc) (of_Z (returncode proc)).
Proof. unfold failure_message. apply contains_middle. Qed.

Lemma failure_message_stderr (proc : proc_output) :
  contains (failure_message proc) (List.concat (stderr_lines proc)).
Proof.
  unfold failure_message.
  do 4 apply contains_right.
  destruct (List.concat (stdout_lines proc)).
  - apply contains_refl.
  - do 2 apply contains_right. apply contains_start.
Qed.






(** ** The analysis step *)

Lemma analyze_raised w tmp_path e reg :
  essentia w (PyPath.to_str tmp_path) = Raised e ->
  analyze w tmp_path reg
  = mkStep [Essentia (PyPath.to_str tmp_path)] reg (Raised e).
Proof.
  intros E. unfold analyze, analyze_bpm_key, bind, call. cbn. rewrite E.
  reflexivity.
Qed.

Lemma acquire_no_popen w j tmp_dir : quiet not_popen (acquire w j tmp_dir).
Proof. unfold acquire. quiet_tac. Qed.

Lemma sweep_no_popen (w : World) (files : list Path) (i : nat) (cmd : list str) :
  ~ In (Popen cmd) (sweep w i files).
Proof.
  intros H. pose proof (sweep_only_probes w files i) as F.
  rewrite Forall_forall in F. destruct (F _ H) as [p [E|E]]; discriminate E.
Qed.

(** C7, as amended. When the temp directory is found, the input has been
    acquired and the analysis raises, the job stops there: the worker emits one [Done] that reports
    failure and carries the error of the analysis, sweeps the temp files,
    and starts neither the encoder nor the separation tool. *)
Theorem analysis_failure_aborts (w : World) (j : Job) (d : str)
    (tr : list effect) (reg : list Path) (tmp_path : Path) (title e : str) :
  gettempdir w = Returned d ->
  acquire w j (PyPath.of_str d) []
  = mkStep tr reg (Returned (tmp_path, title)) ->
  essentia w (PyPath.to_str tmp_path) = Raised e ->
  run w j
  = tr ++ Essentia (PyPath.to_str tmp_path) :: Emit (Done (msg_error e))
       :: sweep w 0 reg
  /\ reports_failure (msg_error e)
  /\ contains (msg_error e) e
  /\ (forall cmd, ~ In (Popen cmd) (run w j))
  /\ ~ succeeded (run w j).
Proof.
  intros Ed Hacq Hess.
  assert (Hbody : body w j (PyPath.of_str d)
                  = mkStep (tr ++ [Essentia (PyPath.to_str tmp_path)]) reg
                           (Raised e)).
  { unfold body, stages, prepare.
    rewrite (bind_raised _ _ [] (tr ++ [Essentia (PyPath.to_str tmp_path)])
               reg e); [reflexivity|].
    rewrite (bind_returned _ _ _ _ _ _ Hacq). cbv iota beta.
    rewrite (bind_raised _ _ _ _ _ _ (analyze_raised w tmp_path e reg Hess)).
    reflexivity. }
  assert (Hrun : run w j
                 = tr ++ Essentia (PyPath.to_str tmp_path)
                      :: Emit (Done (msg_error e)) :: sweep w 0 reg).
  { rewrite (run_shape w j d Ed), Hbody. cbn [emitted result registry].
    rewrite <- app_assoc. reflexivity. }
  split; [exact Hrun|].
  split; [apply error_reports_failure|].
  split; [unfold msg_error; apply contains_right, contains_end|].
  split.
  - intros cmd H. rewrite Hrun in H.
    apply in_app_or in H. destruct H as [H|H].
    + pose proof (acquire_no_popen w j (PyPath.of_str d) []) as Q.
      rewrite Hacq in Q. cbn [emitted] in Q. rewrite Forall_forall in Q.
      exact (Q _ H).
    + destruct H as [H|[H|H]]; try discriminate H.
      exact (sweep_no_popen _ _ _ _ H).
  - apply run_raised_not_succeeded with (d := d) (e := e); [exact Ed|].
    rewrite Hbody. reflexivity.
Qed.

Lemma deaf_run :
  run Sample.deaf Sample.local_job
  = [Emit (LogLine (msg_local_file ++ lit "My Song.wav"));
     Copy2 (PyPath.of_str (lit "/home/ann/Music/My Song.wav"))
           (PyPath.of_str (lit "/tmp/My_Song.wav"));
     Emit (Progress 10);
     Essentia (lit "/tmp/My_Song.wav");
     Emit (Done (msg_error (lit "Error while configuring MonoLoader")));
     Exists (PyPath.of_str (lit "/tmp/My_Song.wav"));
     Unlink (PyPath.of_str (lit "/tmp/My_Song.wav"))].
Proof. vm_compute. reflexivity. Qed.

(** C7, as stated, fails: in a world where only the analysis fails, the job
    ends with a [Done] that reports failure and no child process is
    started. *)
Lemma analysis_failure_is_fatal :
  ~ analysis_failure_tolerated Sample.deaf Sample.local_job.
Proof.
  intros [_ H].
  apply (H (msg_error (lit "Error while configuring MonoLoader"))).
  - rewrite deaf_run. do 4 right. left. reflexivity.
  - apply error_reports_failure.
Qed.

(** The amended C7 on the sample job, with an analysis that raises. *)
Lemma analysis_failure_witness :
  run Sample.deaf Sample.local_job
  = [Emit (LogLine (msg_local_file ++ lit "My Song.wav"));
     Copy2 (PyPath.of_str (lit "/home/ann/Music/My Song.wav"))
           (PyPath.of_str (lit "/tmp/My_Song.wav"));
     Emit (Progress 10)]
    ++ Essentia (lit "/tmp/My_Song.wav")
    :: Emit (Done (msg_error (lit "Error while configuring MonoLoader")))
    :: sweep Sample.deaf 0 [PyPath.of_str (lit "/tmp/My_Song.wav")]
  /\ ~ succeeded (run Sample.deaf Sample.local_job).
Proof.
  assert (Hacq : acquire Sample.deaf Sample.local_job
                   (PyPath.of_str (lit "/tmp")) []
                 = mkStep
                     [Emit (LogLine (msg_local_file ++ lit "My Song.wav"));
                      Copy2 (PyPath.of_str (lit "/home/ann/Music/My Song.wav"))
                            (PyPath.of_str (lit "/tmp/My_Song.wav"));
                      Emit (Progress 10)]
                     [PyPath.of_str (lit "/tmp/My_Song.wav")]
                     (Returned (PyPath.of_str (lit "/tmp/My_Song.wav"),
                                lit "My_Song")))
    by (vm_compute; reflexivity).
  destruct (analysis_failure_aborts Sample.deaf Sample.local_job
              (lit "/tmp") _ _ _ _
              (lit "Error while configuring MonoLoader") eq_refl Hacq eq_refl)
    as [Hrun [_ [_ [_ Hn]]]].
  split; [exact Hrun | exact Hn].
Defined.

(** ** The relocation step *)

Lemma relocate_missing w j out fn mp3 title reg :
  stems_exists w (out // model j // PyPath.stem mp3) = Returned false ->
  mp3_copy w mp3 (outdir j // fn) = Returned tt ->
  relocate w j out fn mp3 title reg
  = mkStep [Emit (LogLine msg_moving);
            Exists (out // model j // PyPath.stem mp3);
            Emit (LogLine (msg_missing (out // model j // PyPath.stem mp3)));
            Copy2 mp3 (outdir j // fn)]
           reg (Returned (outdir j // model j // title)).
Proof.
  intros E C. unfold relocate, bind, call, emit, ret. cbn.
  rewrite E. cbn. rewrite C. reflexivity.
Qed.

(** C8, as amended. When the temp directory is found, the separation has
    gone through, the folder the
    stems are expected in does not exist, and the copy of the MP3 into the
    output directory goes through, the worker logs the warning and ends
    with [Progress 100] and a [Done] that reports success. *)
Theorem missing_stems_still_succeed (w : World) (j : Job) (d : str)
    (tr1 tr2 : list effect) (reg1 reg2 : list Path)
    (title mp3_filename : str) (mp3_temp_path demucs_temp_out : Path) :
  let tmp_dir := PyPath.of_str d in
  let stems_source :=
    demucs_temp_out // model j // PyPath.stem mp3_temp_path in
  let stems_dest := outdir j // model j // title in
  gettempdir w = Returned d ->
  prepare w j tmp_dir []
  = mkStep tr1 reg1 (Returned (title, mp3_filename, mp3_temp_path)) ->
  separate w j tmp_dir mp3_temp_path reg1
  = mkStep tr2 reg2 (Returned demucs_temp_out) ->
  stems_exists w stems_source = Returned false ->
  mp3_copy w mp3_temp_path (outdir j // mp3_filename) = Returned tt ->
  run w j
  = tr1 ++ tr2
    ++ [Emit (LogLine msg_moving);
        Exists stems_source;
        Emit (LogLine (msg_missing stems_source));
        Copy2 mp3_temp_path (outdir j // mp3_filename);
        Emit (Progress 100);
        Emit (Done (msg_finished stems_dest))]
    ++ sweep w 0 reg2
  /\ reports_success (msg_finished stems_dest)
  /\ succeeded (run w j).
Proof.
  intros tmp_dir stems_source stems_dest Ed Hprep Hsep Hex Hcp.
  assert (Hbody : body w j tmp_dir
                  = mkStep (tr1 ++ tr2
                            ++ [Emit (LogLine msg_moving);
                                Exists stems_source;
                                Emit (LogLine (msg_missing stems_source));
                                Copy2 mp3_temp_path (outdir j // mp3_filename)])
                           reg2 (Returned stems_dest)).
  { unfold body, stages.
    rewrite (bind_returned _ _ _ _ _ _ Hprep). cbv iota beta.
    rewrite (bind_returned _ _ _ _ _ _ Hsep).
    rewrite (relocate_missing w j demucs_temp_out mp3_filename mp3_temp_path
               title reg2 Hex Hcp).
    reflexivity. }
  assert (Hrun : run w j
                 = tr1 ++ tr2
                   ++ [Emit (LogLine msg_moving);
                       Exists stems_source;
                       Emit (LogLine (msg_missing stems_source));
                       Copy2 mp3_temp_path (outdir j // mp3_filename);
                       Emit (Progress 100);
                       Emit (Done (msg_finished stems_dest))]
                   ++ sweep w 0 reg2).
  { rewrite (run_shape w j d Ed). fold tmp_dir. rewrite Hbody.
    cbn [emitted result registry]. rewrite <- !app_assoc. reflexivity. }
  split; [exact Hrun|]. split; [apply finished_reports_success|].
  exists (msg_finished stems_dest).
  split; [|apply finished_reports_success].
  rewrite Hrun, !events_app. apply in_or_app. right. apply in_or_app. right.
  apply in_or_app. left. simpl. do 3 right. left. reflexivity.
Qed.

Lemma hollow_readonly_run :
  events (run Sample.hollow_readonly Sample.local_job)
  = [LogLine (msg_local_file ++ lit "My Song.wav");
     Progress 10;
     LogLine (msg_tempo ++ lit "120 BPM");
     LogLine (msg_key ++ lit "C major");
     LogLine msg_transcoding;
     LogLine (arrow_prefix ++ lit "size=1024kB time=00:01:00");
     Progress 40;
     LogLine (msg_splitting (lit "htdemucs"));
     LogLine (arrow_prefix ++ lit "10%|#"); Progress 45;
     LogLine (arrow_prefix ++ lit "50%|#####"); Progress 65;
     LogLine (arrow_prefix ++ lit "100%|##########"); Progress 90;
     Progress 90;
     LogLine msg_moving;
     LogLine (msg_missing
                (PyPath.of_str (lit "/tmp/demucs_output/htdemucs/My_Song_320k")));
     Done (msg_error (lit "[Errno 13] Permission denied"))].
Proof. vm_compute. reflexivity. Qed.

(** C8, as stated, fails: the separation goes through, the folder of the
    stems is missing and the warning is logged, but the copy of the MP3
    raises, and the job ends with a [Done] that reports failure, without
    [Progress 100]. *)
Lemma missing_stems_can_fail :
  In (Progress 90) (events (run Sample.hollow_readonly Sample.local_job))
  /\ In (LogLine (msg_missing
           (PyPath.of_str (lit "/tmp/demucs_output/htdemucs/My_Song_320k"))))
        (events (run Sample.hollow_readonly Sample.local_job))
  /\ ~ In (Progress 100) (events (run Sample.hollow_readonly Sample.local_job))
  /\ ~ succeeded (run Sample.hollow_readonly Sample.local_job).
Proof.
  split; [|split; [|split]].
  - rewrite hollow_readonly_run. do 13 right. left. reflexivity.
  - rewrite hollow_readonly_run. do 16 right. left. reflexivity.
  - rewrite hollow_readonly_run. intros H.
    repeat (destruct H as [H|H]; [discriminate H|]). destruct H.
  - apply run_raised_not_succeeded
      with (d := lit "/tmp") (e := lit "[Errno 13] Permission denied");
      vm_compute; reflexivity.
Qed.

(** The amended C8 on the sample job, with no folder for the stems. *)
Lemma missing_stems_witness :
  succeeded (run Sample.hollow Sample.local_job)
  /\ exists before,
      run Sample.hollow Sample.local_job
      = before
        ++ [Emit (LogLine msg_moving);
            Exists (PyPath.of_str
                      (lit "/tmp/demucs_output/htdemucs/My_Song_320k"));
            Emit (LogLine (msg_missing
                    (PyPath.of_str
                       (lit "/tmp/demucs_output/htdemucs/My_Song_320k"))));
            Copy2 (PyPath.of_str (lit "/tmp/My_Song_320k.mp3"))
                  (PyPath.of_str (lit "/home/ann/stems/My_Song_320k.mp3"));
            Emit (Progress 100);
            Emit (Done (msg_finished
                          (PyPath.of_str
                             (lit "/home/ann/stems/htdemucs/My_Song"))))]
        ++ sweep Sample.hollow 0
             [PyPath.of_str (lit "/tmp/My_Song.wav");
              PyPath.of_str (lit "/tmp/My_Song_320k.mp3")].
Proof.
  pose (tmp_dir := PyPath.of_str (lit "/tmp")).
  pose (s1 := prepare Sample.hollow Sample.local_job tmp_dir []).
  pose (mp3 := PyPath.of_str (lit "/tmp/My_Song_320k.mp3")).
  pose (reg := [PyPath.of_str (lit "/tmp/My_Song.wav"); mp3]).
  pose (s2 := separate Sample.hollow Sample.local_job tmp_dir mp3 reg).
  assert (Hprep : prepare Sample.hollow Sample.local_job tmp_dir []
                  = mkStep (emitted s1) reg
                      (Returned (lit "My_Song", lit "My_Song_320k.mp3", mp3)))
    by (vm_compute; reflexivity).
  assert (Hsep : separate Sample.hollow Sample.local_job tmp_dir mp3 reg
                 = mkStep (emitted s2) reg
                     (Returned (PyPath.of_str (lit "/tmp/demucs_output"))))
    by (vm_compute; reflexivity).
  destruct (missing_stems_still_succeed Sample.hollow Sample.local_job
              (lit "/tmp") _ _ _ _ _ _ _ _ eq_refl Hprep Hsep eq_refl eq_refl)
    as [Hrun [_ Hs]].
  split; [exact Hs|].
  exists (emitted s1 ++ emitted s2).
  rewrite Hrun, <- !app_assoc. reflexivity.
Defined.

(** ** The sweep *)

Lemma registry_tried (w : World) (j : Job) (tmp_dir : Path) :
  registry (tried w j tmp_dir) = registry (body w j tmp_dir).
Proof.
  unfold tried, try_block, body, bind.
  destruct (stages w j tmp_dir []) as [tr reg [dest|e|]]; reflexivity.
Qed.

Lemma body_same (w w' : World) (j : Job) (tmp_dir : Path) :
  same_outside_sweep w w' -> body w j tmp_dir = body w' j tmp_dir.
Proof.
  destruct w, w'. unfold same_outside_sweep. cbn.
  intros (E1 & E2 & E3 & E4 & E5 & E6 & E7 & E8 & E9 & E10 & E11 & E12
          & E13 & E14).
  subst. reflexivity.
Qed.

Lemma sweep_probed (w : World) (files : list Path) (i : nat) :
  sweep_returns w -> probed (sweep w i files) = files.
Proof.
  intros Hw.
  revert i. induction files as [|f rest IH]; intros i; [reflexivity|].
  cbn [sweep]. unfold probed in *. rewrite flat_map_app.
  destruct (Hw i f) as [Hx Hu]. unfold sweep_one.
  destruct (sweep_exists w i f) as [[|]| |];
    [destruct (sweep_unlink w i f)| | |]; try contradiction;
    cbn [fst snd flat_map app]; rewrite IH; reflexivity.
Qed.

(** The sweep never looks at a file that is not registered, and at none
    twice. *)
Lemma sweep_probed_prefix (w : World) (files : list Path) (i : nat) :
  exists rest, files = probed (sweep w i files) ++ rest.
Proof.
  revert i. induction files as [|f tl IH]; intros i; [exists []; reflexivity|].
  cbn [sweep]. unfold probed in *. rewrite flat_map_app.
  destruct (IH (S i)) as [rest E]. unfold sweep_one.
  destruct (sweep_exists w i f) as [[|]| |];
    [destruct (sweep_unlink w i f)| | |]; cbn [fst snd flat_map app];
    first [ exists rest; rewrite <- E; reflexivity
          | exists tl; reflexivity ].
Qed.

Lemma sweep_unlinks_registered (w : World) (files : list Path) (i : nat)
    (f : Path) :
  In (Unlink f) (sweep w i files) -> In f files.
Proof.
  revert i. induction files as [|g rest IH]; intros i; [intros []|].
  cbn [sweep]. intros H.
  apply in_app_or in H. destruct H as [H|H].
  - left. unfold sweep_one in H.
    destruct (sweep_exists w i g) as [[|]| |];
      [destruct (sweep_unlink w i g)| | |]; cbn [fst] in H;
      (destruct H as [H|H]; [discriminate H|]);
      try (destruct H as [H|H]; [inversion H; reflexivity|]);
      destruct H.
  - right. destruct (snd (sweep_one w i g)); [|destruct H].
    eapply IH; exact H.
Qed.

Lemma sweep_attempts (w : World) (files : list Path) (i n : nat) (f : Path) :
  sweep_returns w ->
  nth_error files n = Some f ->
  sweep_exists w (i + n) f = Returned true ->
  In (Unlink f) (sweep w i files).
Proof.
  intros Hw.
  revert i n. induction files as [|g rest IH]; intros i [|n];
    cbn [nth_error sweep]; try discriminate.
  - intros E. inversion E; subst g. rewrite Nat.add_0_r. intros Hx.
    apply in_or_app. left. unfold sweep_one. rewrite Hx.
    destruct (sweep_unlink w i f); right; left; reflexivity.
  - intros E Hx. apply in_or_app. right.
    destruct (Hw i g) as [H1 H2]. unfold sweep_one.
    assert (G : In (Unlink f) (sweep w (S i) rest)).
    { apply (IH (S i) n E).
      replace (S i + n)%nat with (i + S n)%nat by lia. exact Hx. }
    destruct (sweep_exists w i g) as [[|]| |];
      [destruct (sweep_unlink w i g)| | |]; try contradiction; exact G.
Qed.

(** C9, as amended. Whatever the outcome of a job that finds the temp
    directory and gets out of the [try] block, its run is the [try] block,
    ended by one [Done], followed by one sweep over [files_to_cleanup]:
    nothing is deleted and no [Done] is emitted before it; the sweep looks
    at registered files only, once each and in order, and, when none of its
    calls waits for ever, at every one of them, and calls [unlink] on each
    one found to exist; the sweep emits no signal, and what [exists] and
    [unlink] do during the sweep, raising included, changes no signal of
    the job. *)
Theorem cleanup_runs_once (w w' : World) (j : Job) (d : str) :
  let files_to_cleanup := registry (tried w j (PyPath.of_str d)) in
  gettempdir w = Returned d ->
  result (tried w j (PyPath.of_str d)) <> Stuck ->
  same_outside_sweep w w' ->
  (exists before message,
      run w j
      = before ++ Emit (Done message) :: sweep w 0 files_to_cleanup
      /\ Forall not_done before /\ Forall not_unlink before)
  /\ (exists rest,
         files_to_cleanup = probed (sweep w 0 files_to_cleanup) ++ rest)
  /\ (sweep_returns w ->
      probed (sweep w 0 files_to_cleanup) = files_to_cleanup
      /\ forall n f,
           nth_error files_to_cleanup n = Some f ->
           sweep_exists w n f = Returned true ->
           In (Unlink f) (sweep w 0 files_to_cleanup))
  /\ (forall f, In (Unlink f) (run w j) -> In f files_to_cleanup)
  /\ events (sweep w 0 files_to_cleanup) = []
  /\ events (run w' j) = events (run w j).
Proof.
  intros files_to_cleanup Ed Hleft Hsame.
  assert (Qd : Forall not_done (emitted (body w j (PyPath.of_str d))))
    by apply (stages_quiet not_done not_done_passes).
  assert (Qu : Forall not_unlink (emitted (body w j (PyPath.of_str d))))
    by apply (stages_quiet not_unlink not_unlink_passes).
  unfold files_to_cleanup. clear files_to_cleanup.
  rewrite tried_result in Hleft. rewrite registry_tried.
  assert (Hshape : exists before message,
             run w j
             = before ++ Emit (Done message)
                 :: sweep w 0 (registry (body w j (PyPath.of_str d)))
             /\ Forall not_done before /\ Forall not_unlink before).
  { rewrite (run_shape w j d Ed).
    destruct (result (body w j (PyPath.of_str d))) as [dest|e|].
    - exists (emitted (body w j (PyPath.of_str d)) ++ [Emit (Progress 100)]),
             (msg_finished dest).
      split; [rewrite <- app_assoc; reflexivity|].
      split; apply Forall_app; split; try assumption; repeat constructor.
    - exists (emitted (body w j (PyPath.of_str d))), (msg_error e).
      split; [reflexivity | split; assumption].
    - destruct (Hleft eq_refl). }
  split; [exact Hshape|].
  split; [apply sweep_probed_prefix|].
  split; [intros Hw; split;
          [apply sweep_probed, Hw
          | intros n f Hn Hx; apply (sweep_attempts w _ 0 n f Hw Hn Hx)]|].
  split.
  - destruct Hshape as [before [message [Hrun [_ Hu]]]].
    intros f H. rewrite Hrun in H. apply in_app_or in H.
    destruct H as [H|[H|H]].
    + rewrite Forall_forall in Hu. destruct (Hu _ H).
    + discriminate H.
    + eapply sweep_unlinks_registered. exact H.
  - split; [apply sweep_silent|].
    assert (Ed' : gettempdir w' = Returned d)
      by (rewrite <- (proj1 Hsame); exact Ed).
    rewrite (run_shape w j d Ed), (run_shape w' j d Ed'),
      <- (body_same w w' j (PyPath.of_str d) Hsame).
    rewrite !events_app.
    destruct (result (body w j (PyPath.of_str d)));
      rewrite ?events_app, ?sweep_silent; reflexivity.
Qed.

Lemma blocking_run :
  run Sample.blocking Sample.local_job
  = [Emit (LogLine (msg_local_file ++ lit "My Song.wav"));
     Copy2 (PyPath.of_str (lit "/home/ann/Music/My Song.wav"))
           (PyPath.of_str (lit "/tmp/My_Song.wav"));
     Emit (Progress 10);
     Essentia (lit "/tmp/My_Song.wav");
     Emit (LogLine (msg_tempo ++ lit "120 BPM"));
     Emit (LogLine (msg_key ++ lit "C major"));
     Emit (LogLine msg_transcoding);
     Popen (ff_cmd Sample.local_job
              (PyPath.of_str (lit "/tmp/My_Song.wav"))
              (PyPath.of_str (lit "/tmp/My_Song_320k.mp3")));
     Emit (LogLine (arrow_prefix ++ lit "size=1024kB time=00:01:00"));
     Emit (Progress 40);
     Emit (LogLine (msg_splitting (lit "htdemucs")));
     Popen (demucs_cmd Sample.blocking Sample.local_job
              (PyPath.of_str (lit "/tmp/demucs_output"))
              (PyPath.of_str (lit "/tmp/My_Song_320k.mp3")))].
Proof. vm_compute. reflexivity. Qed.

(** C9, as stated, fails. When no directory for temp files can be found,
    line 108 raises before the [try] statement is entered: the run emits
    nothing, neither a [Done] nor a sweep. And when the separation tool
    waits on its other pipe, the worker waits in the loop over the
    diagnostic stream: two temp files are registered, and the run holds no
    [Done] and no call of [exists] or [unlink]. *)
Lemma cleanup_can_be_skipped :
  run Sample.homeless Sample.local_job = []
  /\ registry (tried Sample.blocking Sample.local_job
                 (PyPath.of_str (lit "/tmp")))
     = [PyPath.of_str (lit "/tmp/My_Song.wav");
        PyPath.of_str (lit "/tmp/My_Song_320k.mp3")]
  /\ (forall x, In x (run Sample.blocking Sample.local_job) ->
        not_done x /\ not_unlink x /\ forall f, x <> Exists f).
Proof.
  split; [reflexivity|]. split; [vm_compute; reflexivity|].
  intros x H. rewrite blocking_run in H.
  repeat (destruct H as [H|H];
          [subst x; split; [exact I|split; [exact I|discriminate]]|]).
  destruct H.
Qed.

Lemma sticky_returns (w : World) : sweep_returns (Sample.sticky w).
Proof.
  intros i f. split; cbn; [destruct (Nat.even i)|]; discriminate.
Qed.

(** The amended C9 on a failed job, in a world where no temp file can be
    deleted, against the world where each one can. *)
Lemma cleanup_witness :
  events (run Sample.crashing Sample.local_job)
  = events (run (Sample.sticky Sample.crashing) Sample.local_job)
  /\ probed (sweep (Sample.sticky Sample.crashing) 0
               (registry (tried (Sample.sticky Sample.crashing)
                            Sample.local_job (PyPath.of_str (lit "/tmp")))))
     = [PyPath.of_str (lit "/tmp/My_Song.wav");
        PyPath.of_str (lit "/tmp/My_Song_320k.mp3")].
Proof.
  assert (Hleft : result (tried (Sample.sticky Sample.crashing)
                            Sample.local_job (PyPath.of_str (lit "/tmp")))
                  <> Stuck) by (vm_compute; discriminate).
  assert (Hsame : same_outside_sweep (Sample.sticky Sample.crashing)
                    Sample.crashing) by (repeat split).
  destruct (cleanup_runs_once (Sample.sticky Sample.crashing) Sample.crashing
              Sample.local_job (lit "/tmp") eq_refl Hleft Hsame)
    as [_ [_ [Hp [_ [_ He]]]]].
  split; [exact He|].
  rewrite (proj1 (Hp (sticky_returns Sample.crashing))).
  vm_compute. reflexivity.
Defined.

(** ** Plain characters survive [sanitize_filename] *)

Lemma trim_not_plain (c : char) : is_trim c = true -> is_plain c = false.
Proof.
  unfold is_trim. intros H. apply orb_true_iff in H.
  destruct H as [H|H]; apply N.eqb_eq in H; subst c; reflexivity.
Qed.

Lemma filter_plain_dropped (d : str) :
  Forall (fun c => is_trim c = true) d -> filter is_plain d = [].
Proof.
  induction 1 as [|c d Hc _ IH]; [reflexivity|].
  simpl. rewrite (trim_not_plain c Hc). exact IH.
Qed.

Lemma filter_plain_strip (s : str) :
  filter is_plain (strip is_trim s) = filter is_plain s.
Proof.
  unfold strip.
  destruct (lstrip_split is_trim s) as [d1 [E1 F1]].
  destruct (rstrip_split is_trim (lstrip is_trim s)) as [d2 [E2 F2]].
  rewrite E1 at 2. rewrite E2 at 2.
  rewrite !filter_app, (filter_plain_dropped d1 F1),
    (filter_plain_dropped d2 F2), app_nil_r.
  reflexivity.
Qed.

Lemma filter_plain_collapse (s : str) (b : bool) :
  filter is_plain (collapse_runs b s) = filter is_plain s.
Proof.
  revert b. induction s as [|c t IH]; intros b; [reflexivity|].
  cbn [collapse_runs filter]. unfold is_plain at 2.
  destruct (is_sep c) eqn:Hs.
  - rewrite andb_false_r. destruct b; [apply IH|].
    cbn [filter]. change (is_plain underscore) with false. apply IH.
  - cbn [filter]. unfold is_plain at 1. rewrite Hs, IH. reflexivity.
Qed.

Lemma filter_plain_replace (s : str) :
  filter is_plain (replace_unsafe s) = filter is_plain s.
Proof.
  induction s as [|c t IH]; [reflexivity|].
  cbn [replace_unsafe List.map filter]. fold (replace_unsafe t). rewrite IH.
  destruct (is_unsafe c) eqn:Hu; [|reflexivity].
  change (is_plain underscore) with false.
  unfold is_plain. rewrite Hu. reflexivity.
Qed.

Lemma count_plain_sanitize (s : str) :
  count_plain (sanitize_filename s) = count_plain s.
Proof.
  unfold count_plain, sanitize_filename.
  rewrite filter_plain_strip, filter_plain_collapse, filter_plain_replace.
  reflexivity.
Qed.

Lemma count_plain_app (a b : str) :
  count_plain (a ++ b) = (count_plain a + count_plain b)%nat.
Proof. unfold count_plain. rewrite filter_app, length_app. reflexivity. Qed.

Lemma tidy_safe (s : str) (b : bool) :
  tidy b s = true -> Forall (fun c => is_unsafe c = false) s.
Proof.
  revert b. induction s as [|c t IH]; intros b; [constructor|].
  simpl. destruct (is_sep c); intros H; apply andb_true_iff in H;
    destruct H as [H1 H2]; constructor; try (eapply IH; eassumption).
  - apply andb_true_iff in H1. destruct H1 as [_ H1].
    apply N.eqb_eq in H1. subst c. reflexivity.
  - apply negb_true_iff, H1.
Qed.

Lemma sanitize_no_slash (s : str) : no_slash (sanitize_filename s).
Proof.
  pose proof (tidy_safe _ _ (sanitize_tidy s)) as H.
  unfold no_slash. eapply Forall_impl; [|exact H].
  intros c Hc E. subst c. discriminate Hc.
Qed.

(** ** Paths *)

Lemma str_eqb_eq (a b : str) : PyStr.eqb a b = true <-> a = b.
Proof.
  unfold PyStr.eqb. destruct (list_eq_dec N.eq_dec a b); split;
    intros H; try reflexivity; try assumption; try discriminate; contradiction.
Qed.

Lemma path_eqb_eq (p q : Path) : PyPath.eqb p q = true <-> p = q.
Proof.
  unfold PyPath.eqb. destruct p as [r1 ps1], q as [r2 ps2].
  cbn [PyPath.root PyPath.parts]. split.
  - intros H. apply andb_true_iff in H. destruct H as [H1 H2].
    apply str_eqb_eq in H1.
    destruct (list_eq_dec (list_eq_dec N.eq_dec) ps1 ps2);
      [|discriminate H2].
    subst. reflexivity.
  - intros H. inversion H; subst. apply andb_true_iff. split.
    + apply str_eqb_eq. reflexivity.
    + destruct (list_eq_dec (list_eq_dec N.eq_dec) ps2 ps2);
        [reflexivity | contradiction].
Qed.

Lemma no_slash_app (a b : str) : no_slash a -> no_slash b -> no_slash (a ++ b).
Proof. intros Ha Hb. apply Forall_app. split; assumption. Qed.

Lemma no_slash_root (s : str) : no_slash s -> PyPath.parse_root s = [].
Proof.
  intros H. destruct s as [|c1 t]; [reflexivity|].
  inversion H as [|? ? H1 _]; subst.
  apply N.eqb_neq in H1. unfold PyPath.parse_root.
  destruct t as [|c2 [|c3 r]]; rewrite H1; reflexivity.
Qed.

Lemma no_slash_split (s : str) : no_slash s -> PyPath.split_slash s = [s].
Proof.
  induction 1 as [|c t Hc _ IH]; [reflexivity|].
  cbn [PyPath.split_slash]. apply N.eqb_neq in Hc. rewrite Hc, IH.
  reflexivity.
Qed.

Lemma no_slash_parts (s : str) :
  no_slash s -> (2 <= List.length s)%nat -> PyPath.parse_parts s = [s].
Proof.
  intros H L. unfold PyPath.parse_parts. rewrite (no_slash_split s H).
  cbn [filter].
  destruct (PyStr.eqb s []) eqn:E1;
    [apply str_eqb_eq in E1; subst s; simpl in L; lia|].
  destruct (PyStr.eqb s [PyPath.dot]) eqn:E2;
    [apply str_eqb_eq in E2; subst s; simpl in L; lia|].
  reflexivity.
Qed.

Lemma div_name (d : Path) (s : str) :
  no_slash s -> (2 <= List.length s)%nat -> PyPath.name (d // s) = s.
Proof.
  intros H L. unfold PyPath.div, PyPath.name.
  rewrite (no_slash_root s H), (no_slash_parts s H L). cbn [PyPath.parts].
  apply last_last.
Qed.

Lemma rfind_mp3 (x : str) :
  PyPath.rfind PyPath.dot (x ++ PyPath.dot :: lit "mp3")
  = Some (List.length x).
Proof.
  induction x as [|c x IH]; [reflexivity|].
  cbn [app PyPath.rfind List.length]. rewrite IH. reflexivity.
Qed.

Lemma firstn_length_app {A} (x y : list A) : firstn (List.length x) (x ++ y) = x.
Proof. induction x as [|a x IH]; simpl; [destruct y|]; congruence. Qed.

Lemma stem_of_mp3_name (p : Path) (x : str) :
  PyPath.name p = x ++ PyPath.dot :: lit "mp3" ->
  (1 <= List.length x)%nat ->
  PyPath.stem p = x.
Proof.
  intros E L. unfold PyPath.stem, PyPath.suffix_index.
  rewrite E, rfind_mp3, length_app.
  change (List.length (PyPath.dot :: lit "mp3")) with 4%nat.
  destruct (0 <? Z.of_nat (List.length x)) eqn:H1;
    [|apply Z.ltb_ge in H1; lia].
  destruct (Z.of_nat (List.length x)
            <? Z.of_nat (List.length x + 4) - 1) eqn:H2;
    [|apply Z.ltb_ge in H2; lia].
  cbn [andb]. apply firstn_length_app.
Qed.

(** The transcoded file is never the source: a name [T_<bitrate>k.mp3]
    would have to sanitize to [T], and it has more plain characters. *)
Lemma mp3_temp_path_not_source (tmp_dir : Path) (u b : str) :
  no_slash b ->
  tmp_dir // (sanitize_filename (PyPath.stem (PyPath.of_str u))
              ++ lit "_" ++ b ++ lit "k.mp3")
  <> PyPath.of_str u.
Proof.
  intros Hb E.
  set (source_path := PyPath.of_str u) in *.
  set (title := sanitize_filename (PyPath.stem source_path)) in *.
  set (x := title ++ lit "_" ++ b ++ lit "k").
  assert (Ex : title ++ lit "_" ++ b ++ lit "k.mp3"
               = x ++ PyPath.dot :: lit "mp3").
  { unfold x. change (lit "k.mp3") with (lit "k" ++ PyPath.dot :: lit "mp3").
    rewrite <- !app_assoc. reflexivity. }
  assert (Lx : (2 <= List.length x)%nat).
  { unfold x. rewrite !length_app. simpl. lia. }
  assert (Hs : no_slash (x ++ PyPath.dot :: lit "mp3")).
  { unfold x. repeat apply no_slash_app;
      try apply sanitize_no_slash; try assumption;
      repeat constructor; discriminate. }
  rewrite Ex in E.
  assert (Hn : PyPath.name source_path = x ++ PyPath.dot :: lit "mp3").
  { rewrite <- E. apply div_name; [exact Hs|].
    rewrite length_app. lia. }
  assert (Hst : PyPath.stem source_path = x)
    by (apply stem_of_mp3_name; [exact Hn | lia]).
  assert (Hc : count_plain title = count_plain x).
  { unfold title at 1. rewrite Hst. apply count_plain_sanitize. }
  unfold x in Hc. rewrite !count_plain_app in Hc.
  change (count_plain (lit "k")) with 1%nat in Hc. lia.
Qed.

Lemma valid_bitrate_no_slash (b : str) : valid_bitrate b -> no_slash b.
Proof.
  intros [H|[H|[H|[H|[]]]]]; subst b; repeat constructor; discriminate.
Qed.

(** ** What gets registered *)

Lemma registry_bind {A B} (m : M A) (k : A -> M B) (reg : list Path) :
  registry (bind m k reg) =
  match result (m reg) with
  | Returned a => registry (k a (registry (m reg)))
  | _ => registry (m reg)
  end.
Proof. unfold bind. destruct (result (m reg)); reflexivity. Qed.

Lemma result_bind {A B} (m : M A) (k : A -> M B) (reg : list Path) :
  result (bind m k reg) =
  match result (m reg) with
  | Returned a => result (k a (registry (m reg)))
  | Raised e => Raised e
  | Stuck => Stuck
  end.
Proof. unfold bind. destruct (result (m reg)); reflexivity. Qed.

Lemma frames_bind {A B} (m : M A) (k : A -> M B) :
  frames m -> (forall a, frames (k a)) -> frames (bind m k).
Proof.
  intros Hm Hk reg. rewrite registry_bind.
  destruct (result (m reg)); rewrite Hm;
    [apply Hk | reflexivity | reflexivity].
Qed.

Lemma frames_ret {A} (a : A) : frames (ret a).
Proof. intros reg. reflexivity. Qed.

Lemma frames_raise {A} (e : str) : frames (@raise A e).
Proof. intros reg. reflexivity. Qed.

Lemma frames_emit (e : event) : frames (emit e).
Proof. intros reg. reflexivity. Qed.

Lemma frames_call {A} (c : effect) (o : outcome A) : frames (call c o).
Proof. intros reg. reflexivity. Qed.

Lemma frames_ended (o : outcome unit) : frames (ended o).
Proof. intros reg. reflexivity. Qed.

Ltac frames_tac :=
  repeat first
    [ apply frames_ret | apply frames_raise | apply frames_emit
    | apply frames_call
    | apply frames_bind; [| intros ]
    | match goal with
      | |- frames (if ?b then _ else _) => destruct b
      | |- frames (let '(_, _) := ?x in _) => destruct x
      end ].

Lemma run_subprocess_frames spawn cmd offset span :
  frames (_run_subprocess spawn cmd offset span).
Proof.
  unfold _run_subprocess.
  apply frames_bind; [apply frames_call | intros proc].
  apply frames_bind; [intros reg; reflexivity | intros _].
  apply frames_bind; [apply frames_ended | intros _].
  apply frames_bind; [apply frames_ended | intros _].
  destruct (returncode proc =? 0); [apply frames_ret | apply frames_raise].
Qed.

Lemma analyze_frames w tmp_path : frames (analyze w tmp_path).
Proof.
  unfold analyze, analyze_bpm_key.
  apply frames_bind; [|intros [bpm key]; frames_tac].
  apply frames_bind; [apply frames_call | intros [[b k] sc]; apply frames_ret].
Qed.

Lemma separate_frames w j tmp_dir mp3 : frames (separate w j tmp_dir mp3).
Proof.
  unfold separate.
  apply frames_bind; [apply frames_emit | intros _].
  apply frames_bind; [apply run_subprocess_frames | intros _]. frames_tac.
Qed.

Lemma move_stems_frames mv dest files i : frames (move_stems mv dest i files).
Proof.
  revert i. induction files as [|f rest IH]; intros i; cbn [move_stems].
  - apply frames_ret.
  - apply frames_bind; [apply frames_call | intros _].
    apply frames_bind; [apply frames_emit | intros _]. apply IH.
Qed.

Lemma relocate_frames w j out fn mp3 title :
  frames (relocate w j out fn mp3 title).
Proof.
  unfold relocate.
  apply frames_bind; [apply frames_emit | intros _].
  apply frames_bind; [apply frames_call | intros present].
  apply frames_bind; [| intros _; frames_tac].
  destruct present; [|apply frames_emit].
  apply frames_bind; [apply frames_call | intros _].
  apply frames_bind; [apply frames_call | intros files].
  apply frames_bind; [apply move_stems_frames | intros _; apply frames_call].
Qed.

Section Keeps.
Variable I : Path -> Prop.

Lemma keeps_frames {A} (m : M A) : frames m -> keeps I m (fun _ => True).
Proof. intros H reg Hreg. rewrite H. split; [exact Hreg | trivial]. Qed.

Lemma keeps_ret {A} (a : A) (Q : A -> Prop) : Q a -> keeps I (ret a) Q.
Proof.
  intros H reg Hreg. split; [exact Hreg|].
  intros a' E. inversion E; subst. exact H.
Qed.

Lemma keeps_register (p : Path) : I p -> keeps I (register p) (fun _ => True).
Proof.
  intros H reg Hreg. split; [|trivial]. cbn.
  apply Forall_app. split; [exact Hreg | repeat constructor; exact H].
Qed.

Lemma keeps_bind {A B} (m : M A) (k : A -> M B) (Q : A -> Prop)
    (R : B -> Prop) :
  keeps I m Q -> (forall a, Q a -> keeps I (k a) R) -> keeps I (bind m k) R.
Proof.
  intros Hm Hk reg Hreg. destruct (Hm reg Hreg) as [H1 H2].
  rewrite registry_bind, result_bind.
  destruct (result (m reg)) as [a|e|].
  - apply (Hk a (H2 a eq_refl)). exact H1.
  - split; [exact H1 | discriminate].
  - split; [exact H1 | discriminate].
Qed.

End Keeps.

(** Lines 113-123: only the scratch copy is registered, and it is another
    path than the source. *)
Lemma acquire_local_keeps (w : World) (j : Job) (tmp_dir : Path) :
  is_file j = true ->
  keeps (fun p => p <> PyPath.of_str (url j)) (acquire w j tmp_dir)
        (fun a => snd a
                  = sanitize_filename (PyPath.stem (PyPath.of_str (url j)))).
Proof.
  intros Hf. unfold acquire. rewrite Hf.
  eapply keeps_bind; [apply keeps_frames, frames_emit | intros _ _].
  eapply keeps_bind with (Q := fun _ => True).
  - destruct (PyPath.eqb _ _) eqn:E; [apply keeps_ret; exact Logic.I|].
    eapply keeps_bind; [apply keeps_frames, frames_call | intros _ _].
    apply keeps_register. intros Heq.
    symmetry in Heq. apply path_eqb_eq in Heq. congruence.
  - intros _ _.
    eapply keeps_bind; [apply keeps_frames, frames_emit | intros _ _].
    apply keeps_ret. reflexivity.
Qed.

Lemma transcode_keeps (w : World) (j : Job) (tmp_dir tmp_path : Path)
    (title : str) (I : Path -> Prop) :
  I (tmp_dir // (title ++ lit "_" ++ bitrate j ++ lit "k.mp3")) ->
  keeps I (transcode w j tmp_dir tmp_path title) (fun _ => True).
Proof.
  intros H. unfold transcode.
  eapply keeps_bind; [apply keeps_frames, frames_emit | intros _ _].
  eapply keeps_bind; [apply keeps_register, H | intros _ _].
  eapply keeps_bind;
    [apply keeps_frames, run_subprocess_frames | intros _ _].
  eapply keeps_bind; [apply keeps_frames, frames_emit | intros _ _].
  apply keeps_ret. exact Logic.I.
Qed.

Lemma stages_local_keeps (w : World) (j : Job) (tmp_dir : Path) :
  is_file j = true -> no_slash (bitrate j) ->
  keeps (fun p => p <> PyPath.of_str (url j)) (stages w j tmp_dir)
        (fun _ => True).
Proof.
  intros Hf Hb. unfold stages, prepare.
  eapply keeps_bind with (Q := fun _ => True).
  - eapply keeps_bind; [apply acquire_local_keeps, Hf|].
    intros [tmp_path title] Ht. cbn [snd] in Ht. subst title.
    eapply keeps_bind; [apply keeps_frames, analyze_frames | intros _ _].
    eapply keeps_bind.
    + apply transcode_keeps. apply mp3_temp_path_not_source, Hb.
    + intros [fn mp3] _. apply keeps_ret. exact Logic.I.
  - intros [[title fn] mp3] _.
    eapply keeps_bind; [apply keeps_frames, separate_frames | intros out _].
    apply keeps_frames, relocate_frames.
Qed.

(** Lines 119-122, when the source already is the scratch path. *)
Lemma acquire_in_place (w : World) (j : Job) (tmp_dir : Path)
    (reg : list Path) :
  is_file j = true ->
  PyPath.of_str (url j)
  = tmp_dir // (sanitize_filename (PyPath.stem (PyPath.of_str (url j)))
                ++ PyPath.suffix (PyPath.of_str (url j))) ->
  registry (acquire w j tmp_dir reg) = reg
  /\ forall src dst, ~ In (Copy2 src dst) (emitted (acquire w j tmp_dir reg)).
Proof.
  intros Hf E. apply path_eqb_eq in E.
  unfold acquire. rewrite Hf. unfold bind, emit, ret. cbn.
  rewrite E. cbn. split; [reflexivity|].
  intros src dst [H|[H|[]]]; discriminate H.
Qed.

(** Lines 113-123: whatever is registered there is the scratch copy. *)
Lemma acquire_local_registers (w : World) (j : Job) (tmp_dir : Path) :
  is_file j = true ->
  Forall (fun p =>
            p = tmp_dir // (sanitize_filename
                              (PyPath.stem (PyPath.of_str (url j)))
                            ++ PyPath.suffix (PyPath.of_str (url j))))
         (registry (acquire w j tmp_dir [])).
Proof.
  intros Hf. unfold acquire. rewrite Hf. unfold bind, emit, ret, call. cbn.
  destruct (PyPath.eqb _ _); cbn; [constructor|].
  destruct (local_copy w _ _); cbn; repeat constructor.
Qed.

(** C10. For a job on a local file, with one of the bitrates of the
    window, and whatever the temp directory [d] is, the source file is
    never in [files_to_cleanup] and [unlink] is never called on it,
    whatever the outcome; the first step registers nothing but the scratch
    copy, and when the source already is the scratch path it registers
    nothing and copies nothing. *)
Theorem source_file_is_kept (w : World) (j : Job) (d : str) :
  is_file j = true ->
  valid_bitrate (bitrate j) ->
  let source_path := PyPath.of_str (url j) in
  let tmp_dir := PyPath.of_str d in
  let tmp_path :=
    tmp_dir // (sanitize_filename (PyPath.stem source_path)
                ++ PyPath.suffix source_path) in
  ~ In source_path (registry (tried w j tmp_dir))
  /\ ~ In (Unlink source_path) (run w j)
  /\ Forall (fun p => p = tmp_path /\ p <> source_path)
            (registry (acquire w j tmp_dir []))
  /\ (source_path = tmp_path ->
      registry (acquire w j tmp_dir []) = []
      /\ forall src dst,
          ~ In (Copy2 src dst) (emitted (acquire w j tmp_dir []))).
Proof.
  intros Hf Hb source_path tmp_dir tmp_path.
  assert (Hreg : forall t,
             Forall (fun p => p <> source_path) (registry (body w j t))).
  { intros t.
    apply (stages_local_keeps w j t Hf (valid_bitrate_no_slash _ Hb) []).
    constructor. }
  assert (Hnot : forall t, ~ In source_path (registry (body w j t))).
  { intros t H. specialize (Hreg t). rewrite Forall_forall in Hreg.
    exact (Hreg _ H eq_refl). }
  split; [rewrite registry_tried; apply Hnot|]. split; [|split].
  - intros H.
    destruct (run_cases w j) as [[d' Ed]|E0]; [|rewrite E0 in H; destruct H].
    rewrite (run_shape w j d' Ed) in H.
    assert (Qu : Forall not_unlink (emitted (body w j (PyPath.of_str d'))))
      by apply (stages_quiet not_unlink not_unlink_passes).
    apply in_app_or in H. destruct H as [H|H].
    + rewrite Forall_forall in Qu. exact (Qu _ H).
    + assert (G : In (Unlink source_path)
                     (sweep w 0 (registry (body w j (PyPath.of_str d'))))).
      { destruct (result (body w j (PyPath.of_str d')));
          repeat (destruct H as [H|H]; [discriminate H|]);
          first [exact H | destruct H]. }
      apply (Hnot (PyPath.of_str d')).
      eapply sweep_unlinks_registered. exact G.
  - pose proof (acquire_local_registers w j tmp_dir Hf) as H1.
    destruct (acquire_local_keeps w j tmp_dir Hf [] (Forall_nil _)) as [H2 _].
    rewrite Forall_forall in *. intros p Hp. split; [apply H1 | apply H2]; exact Hp.
  - intros E. apply (acquire_in_place w j tmp_dir [] Hf E).
Qed.

(** C10 on the sample job, when the separation fails. *)
Lemma source_file_witness :
  ~ In (PyPath.of_str (lit "/home/ann/Music/My Song.wav"))
       (registry (tried Sample.crashing Sample.local_job
                    (PyPath.of_str (lit "/tmp"))))
  /\ ~ In (Unlink (PyPath.of_str (lit "/home/ann/Music/My Song.wav")))
          (run Sample.crashing Sample.local_job).
Proof.
  assert (Hb : valid_bitrate (bitrate Sample.local_job))
    by (do 3 right; left; reflexivity).
  destruct (source_file_is_kept Sample.crashing Sample.local_job
              (lit "/tmp") eq_refl Hb)
    as [H1 [H2 _]].
  split; [exact H1 | exact H2].
Defined.

(* ===================================================================== *)
(** * Further properties of the code *)
(* ===================================================================== *)

(** ** The shape of a sanitized name *)

Lemma tidy_no_space (s : str) (b : bool) :
  tidy b s = true -> Forall (fun c => is_space c = false) s.
Proof.
  revert b. induction s as [|c t IH]; intros b; [constructor|].
  simpl. destruct (is_sep c) eqn:Hs; intros H; apply andb_true_iff in H;
    destruct H as [H1 H2]; constructor; try (eapply IH; eassumption).
  - apply andb_true_iff in H1. destruct H1 as [_ H1].
    apply N.eqb_eq in H1. subst c. reflexivity.
  - unfold is_sep in Hs. apply orb_false_iff in Hs. apply Hs.
Qed.

Lemma tidy_no_pair (pre post : str) (b : bool) :
  tidy b (pre ++ underscore :: underscore :: post) = false.
Proof.
  revert b. induction pre as [|c pre IH]; intros b.
  - cbn [app tidy]. change (is_sep underscore) with true.
    cbn [negb andb]. rewrite !andb_false_r. reflexivity.
  - cbn [app tidy]. destruct (is_sep c); rewrite IH, ?andb_false_r;
      reflexivity.
Qed.

Lemma rstrip_last_kept (p : char -> bool) (s : str) :
  head_kept p (rev (rstrip p s)) = true.
Proof. unfold rstrip. rewrite rev_involutive. apply lstrip_head_kept. Qed.

Lemma sanitize_head_kept (s : str) :
  head_kept is_trim (sanitize_filename s) = true.
Proof.
  unfold sanitize_filename, strip.
  destruct (rstrip_split is_trim
              (lstrip is_trim (collapse_runs false (replace_unsafe s))))
    as [d [E _]].
  apply head_kept_prefix with (d := d). rewrite <- E. apply lstrip_head_kept.
Qed.

Lemma sanitize_last_kept (s : str) :
  head_kept is_trim (rev (sanitize_filename s)) = true.
Proof. unfold sanitize_filename, strip. apply rstrip_last_kept. Qed.

(** X1. A sanitized name holds none of the characters of the unsafe class
    and no whitespace. *)
Theorem sanitize_output_clean (s : str) :
  Forall (fun c => is_unsafe c = false /\ is_space c = false)
         (sanitize_filename s).
Proof.
  pose proof (tidy_safe _ _ (sanitize_tidy s)) as H1.
  pose proof (tidy_no_space _ _ (sanitize_tidy s)) as H2.
  rewrite Forall_forall in *. intros c Hc. split; auto.
Qed.

(** X2. A sanitized name neither begins nor ends with an underscore. *)
Theorem sanitize_edges_trimmed (s : str) :
  (forall t, sanitize_filename s <> underscore :: t)
  /\ (forall t, sanitize_filename s <> t ++ [underscore]).
Proof.
  split; intros t E.
  - pose proof (sanitize_head_kept s) as H. rewrite E in H. discriminate H.
  - pose proof (sanitize_last_kept s) as H. rewrite E, rev_unit in H.
    discriminate H.
Qed.

(** X3. A sanitized name never holds two underscores in a row. *)
Theorem sanitize_no_double_underscore (s pre post : str) :
  sanitize_filename s <> pre ++ underscore :: underscore :: post.
Proof.
  intros E. pose proof (sanitize_tidy s) as H.
  rewrite E, tidy_no_pair in H. discriminate H.
Qed.

(** X4. The characters that are neither unsafe, nor whitespace, nor
    underscores go through [sanitize_filename] untouched: the same ones,
    as many, in the same order. *)
Theorem sanitize_keeps_plain (s : str) :
  filter is_plain (sanitize_filename s) = filter is_plain s.
Proof.
  unfold sanitize_filename.
  rewrite filter_plain_strip, filter_plain_collapse, filter_plain_replace.
  reflexivity.
Qed.

Lemma tidy_not_plain_is_underscore (c : char) :
  is_unsafe c = false -> is_space c = false -> is_plain c = false ->
  c = underscore.
Proof.
  intros Hu Hs Hp. unfold is_plain, is_sep in Hp. rewrite Hu, Hs in Hp.
  cbn in Hp. apply negb_false_iff, N.eqb_eq in Hp. exact Hp.
Qed.

(** X5. The sanitized name is empty exactly when the name has no character
    that is neither unsafe, nor whitespace, nor an underscore. *)
Theorem sanitize_empty_iff (s : str) :
  sanitize_filename s = [] <-> filter is_plain s = [].
Proof.
  assert (K : filter is_plain (sanitize_filename s) = filter is_plain s).
  { unfold sanitize_filename.
    rewrite filter_plain_strip, filter_plain_collapse, filter_plain_replace.
    reflexivity. }
  split; intros H.
  - rewrite <- K, H. reflexivity.
  - rewrite <- K in H.
    pose proof (tidy_safe _ _ (sanitize_tidy s)) as Hu.
    pose proof (tidy_no_space _ _ (sanitize_tidy s)) as Hs.
    pose proof (sanitize_head_kept s) as Hh.
    destruct (sanitize_filename s) as [|c t]; [reflexivity|].
    exfalso. inversion Hu; inversion Hs; subst.
    cbn [filter] in H. destruct (is_plain c) eqn:Hp; [discriminate H|].
    assert (c = underscore)
      by (apply tidy_not_plain_is_underscore; assumption).
    subst c. discriminate Hh.
Qed.

Lemma lstrip_length (p : char -> bool) (s : str) :
  (List.length (lstrip p s) <= List.length s)%nat.
Proof.
  induction s as [|c t IH]; simpl; [lia|]. destruct (p c); simpl; lia.
Qed.

Lemma collapse_length (s : str) (b : bool) :
  (List.length (collapse_runs b s) <= List.length s)%nat.
Proof.
  revert b. induction s as [|c t IH]; intros b; simpl; [lia|].
  pose proof (IH true). pose proof (IH false).
  destruct (is_sep c); [destruct b|]; simpl; lia.
Qed.

(** X6. Sanitizing never makes a name longer. *)
Theorem sanitize_length (s : str) :
  (List.length (sanitize_filename s) <= List.length s)%nat.
Proof.
  unfold sanitize_filename, strip, rstrip.
  rewrite length_rev.
  eapply Nat.le_trans; [apply lstrip_length|]. rewrite length_rev.
  eapply Nat.le_trans; [apply lstrip_length|].
  eapply Nat.le_trans; [apply collapse_length|].
  unfold replace_unsafe. rewrite length_map. lia.
Qed.

Lemma clean_tidy (s : str) (b : bool) :
  Forall (fun c => is_unsafe c = false /\ is_space c = false) s ->
  (forall pre post, s <> pre ++ underscore :: underscore :: post) ->
  (b = true -> forall t, s <> underscore :: t) ->
  tidy b s = true.
Proof.
  revert b. induction s as [|c t IH]; intros b Hc Hp Hb; [reflexivity|].
  inversion Hc as [|? ? [Hu Hs] Hc']; subst.
  assert (Hp' : forall pre post,
             t <> pre ++ underscore :: underscore :: post).
  { intros pre post E. apply (Hp (c :: pre) post). rewrite E. reflexivity. }
  cbn [tidy]. destruct (is_sep c) eqn:Hsep.
  - unfold is_sep in Hsep. rewrite Hs in Hsep. cbn in Hsep.
    apply N.eqb_eq in Hsep. subst c.
    destruct b; [exfalso; exact (Hb eq_refl t eq_refl)|].
    rewrite N.eqb_refl. cbn [negb andb].
    apply IH; [exact Hc' | exact Hp' |].
    intros _ t' E. apply (Hp [] t'). rewrite E. reflexivity.
  - rewrite Hu. cbn [negb andb].
    apply IH; [exact Hc' | exact Hp' | discriminate].
Qed.

(** X7. The names that [sanitize_filename] gives back unchanged are
    exactly those with no unsafe character, no whitespace, no two
    underscores in a row and no underscore at either end. *)
Theorem sanitize_fixed_points (s : str) :
  sanitize_filename s = s <->
  Forall (fun c => is_unsafe c = false /\ is_space c = false) s
  /\ (forall pre post, s <> pre ++ underscore :: underscore :: post)
  /\ (forall t, s <> underscore :: t)
  /\ (forall t, s <> t ++ [underscore]).
Proof.
  split.
  - intros E.
    pose proof (sanitize_tidy s) as T. rewrite E in T.
    pose proof (sanitize_head_kept s) as Hh. rewrite E in Hh.
    pose proof (sanitize_last_kept s) as Hl. rewrite E in Hl.
    split; [|split; [|split]].
    + pose proof (tidy_safe _ _ T) as H1.
      pose proof (tidy_no_space _ _ T) as H2.
      rewrite Forall_forall in *. intros c Hc. split; auto.
    + intros pre post E'. rewrite E', tidy_no_pair in T. discriminate T.
    + intros t E'. rewrite E' in Hh. discriminate Hh.
    + intros t E'. rewrite E', rev_unit in Hl. discriminate Hl.
  - intros (Hc & Hp & Hh & Hl).
    assert (T : tidy false s = true)
      by (apply clean_tidy; [exact Hc | exact Hp | discriminate]).
    unfold sanitize_filename.
    rewrite (tidy_replace _ _ T), (tidy_collapse _ _ T).
    assert (Hhead : forall x, Forall (fun c => is_unsafe c = false
                                              /\ is_space c = false) x ->
                     (forall t, x <> underscore :: t) ->
                     head_kept is_trim x = true).
    { intros [|c x] Hx Hn; [reflexivity|]. cbn.
      inversion Hx as [|? ? [_ Hs] _]; subst.
      unfold is_trim. apply negb_true_iff, orb_false_iff. split.
      - apply N.eqb_neq. intros ->. exact (Hn x eq_refl).
      - apply N.eqb_neq. intros ->. discriminate Hs. }
    unfold strip. rewrite (head_kept_lstrip _ _ (Hhead s Hc Hh)).
    unfold rstrip. rewrite head_kept_lstrip; [apply rev_involutive|].
    apply Hhead; [apply Forall_rev, Hc|].
    intros t E. apply (Hl (rev t)).
    rewrite <- (rev_involutive s), E. reflexivity.
Qed.

(** ** The process runner *)

(** When the command cannot be started, the runner raises the error of
    [Popen] at once. *)
Lemma run_subprocess_spawn_error
    (spawn : list str -> outcome proc_output) (cmd : list str)
    (offset span : Z) (reg : list Path) (e : str) :
  spawn cmd = Raised e ->
  _run_subprocess spawn cmd offset span reg = mkStep [Popen cmd] reg (Raised e).
Proof.
  intros E. unfold _run_subprocess, bind, call. cbn. rewrite E. reflexivity.
Qed.

(** X8. With the default window (span 0, as for the encoder), the runner
    emits no [Progress] at all, whatever the command writes. *)
Theorem run_subprocess_no_span
    (spawn : list str -> outcome proc_output) (cmd : list str)
    (offset : Z) (reg : list Path) :
  progress_values (emitted (_run_subprocess spawn cmd offset 0 reg)) = [].
Proof.
  rewrite run_subprocess_emitted. cbn [progress_values flat_map app].
  fold (progress_values
          match spawn cmd with
          | Returned proc => flat_map (scan_line offset 0) (stderr_lines proc)
          | _ => []
          end).
  destruct (spawn cmd) as [proc|e|]; [|reflexivity|reflexivity].
  rewrite scan_progress. reflexivity.
Qed.

Lemma log_lines_app (a b : list effect) :
  log_lines (a ++ b) = log_lines a ++ log_lines b.
Proof. apply flat_map_app. Qed.

Lemma scan_line_log (offset span : Z) (line : str) :
  log_lines (scan_line offset span line) =
  if is_blank line then [] else [arrow_prefix ++ strip is_space line].
Proof.
  unfold scan_line, is_blank. rewrite log_lines_app.
  assert (E : log_lines
                (if span =? 0 then []
                 else match scrape_percent line with
                      | Some pct =>
                          [Emit (Progress (offset + pct * span / 100))]
                      | None => []
                      end) = []).
  { destruct (span =? 0); [reflexivity|].
    destruct (scrape_percent line); reflexivity. }
  rewrite E, app_nil_r. cbv zeta.
  destruct (strip is_space line); reflexivity.
Qed.

(** X9. The runner forwards every line of the diagnostic stream that is
    not blank, once, in order, as a [LogLine] made of the arrow prefix and
    the stripped line; blank lines are dropped; this does not depend on the
    progress window. *)
Theorem run_subprocess_forwards_lines
    (spawn : list str -> outcome proc_output) (cmd : list str)
    (offset span : Z) (reg : list Path) (proc : proc_output) :
  spawn cmd = Returned proc ->
  log_lines (emitted (_run_subprocess spawn cmd offset span reg))
  = List.map (fun line => arrow_prefix ++ strip is_space line)
             (filter (fun line => negb (is_blank line)) (stderr_lines proc)).
Proof.
  intros E. rewrite run_subprocess_emitted, E.
  change (log_lines (Popen cmd :: ?l)) with (log_lines l).
  induction (stderr_lines proc) as [|line rest IH]; [reflexivity|].
  cbn [flat_map filter]. rewrite log_lines_app, scan_line_log, IH.
  destruct (is_blank line); reflexivity.
Qed.

Lemma run_subprocess_forwards_witness :
  log_lines
    (emitted (_run_subprocess
                (fun _ => Returned (Sample.ok_proc
                                      [lit "  frame= 10 "; lit "   ";
                                       lit " 50%|#####"]))
                [lit "ffmpeg"] 40 50 []))
  = [arrow_prefix ++ lit "frame= 10"; arrow_prefix ++ lit "50%|#####"].
Proof.
  rewrite (run_subprocess_forwards_lines
             (fun _ => Returned (Sample.ok_proc
                                   [lit "  frame= 10 "; lit "   ";
                                    lit " 50%|#####"]))
             [lit "ffmpeg"] 40 50 [] _ eq_refl).
  vm_compute. reflexivity.
Defined.

(** X10. Once the command has been started, the runner ends as the
    first of these that applies: the loop over the diagnostic stream
    raises or waits for ever, and so does the runner; the loop over the
    other pipe does, and so does the runner; the exit code is not zero, and
    the runner raises the failure message; otherwise it returns. So it
    returns exactly when both pipes are read to the end and the exit code
    is zero. What it emits is decided by the lines received from the
    diagnostic stream alone (neither how a loop ends, nor the other pipe,
    nor the exit code changes it), and it never touches
    [files_to_cleanup]. *)
Theorem run_subprocess_outcome
    (spawn spawn' : list str -> outcome proc_output) (cmd : list str)
    (offset span : Z) (reg : list Path) (proc proc' : proc_output) :
  spawn cmd = Returned proc ->
  spawn' cmd = Returned proc' ->
  stderr_lines proc' = stderr_lines proc ->
  result (_run_subprocess spawn cmd offset span reg)
  = match stderr_end proc, stdout_end proc with
    | Returned _, Returned _ =>
        if returncode proc =? 0 then Returned tt
        else Raised (failure_message proc)
    | Returned _, Raised e => Raised e
    | Returned _, Stuck => Stuck
    | Raised e, _ => Raised e
    | Stuck, _ => Stuck
    end
  /\ (result (_run_subprocess spawn cmd offset span reg) = Returned tt
      <-> stderr_end proc = Returned tt /\ stdout_end proc = Returned tt
          /\ returncode proc = 0)
  /\ emitted (_run_subprocess spawn' cmd offset span reg)
     = emitted (_run_subprocess spawn cmd offset span reg)
  /\ registry (_run_subprocess spawn cmd offset span reg) = reg.
Proof.
  intros E E' Hs.
  assert (R : result (_run_subprocess spawn cmd offset span reg)
              = match stderr_end proc, stdout_end proc with
                | Returned _, Returned _ =>
                    if returncode proc =? 0 then Returned tt
                    else Raised (failure_message proc)
                | Returned _, Raised e => Raised e
                | Returned _, Stuck => Stuck
                | Raised e, _ => Raised e
                | Stuck, _ => Stuck
                end).
  { unfold _run_subprocess, bind, call, tell, ended. cbn. rewrite E. cbn.
    destruct (stderr_end proc) as [[]|e1|]; cbn; try reflexivity.
    destruct (stdout_end proc) as [[]|e2|]; cbn; try reflexivity.
    destruct (returncode proc =? 0); reflexivity. }
  split; [exact R|]. split; [|split].
  - rewrite R.
    destruct (stderr_end proc) as [[]|e1|];
      [destruct (stdout_end proc) as [[]|e2|];
       [destruct (Z.eqb_spec (returncode proc) 0) as [H|H]| |]| |];
      split; try discriminate; auto.
    + intros (_ & _ & H0). contradiction.
    + intros (_ & H0 & _). discriminate H0.
    + intros (_ & H0 & _). discriminate H0.
    + intros (H0 & _). discriminate H0.
    + intros (H0 & _). discriminate H0.
  - rewrite !run_subprocess_emitted, E, E', Hs. reflexivity.
  - apply run_subprocess_frames.
Qed.

(** X10 on a child whose diagnostic stream cannot be decoded: the runner
    raises the decoding error, and has forwarded the line it received. *)
Lemma run_subprocess_outcome_witness :
  result (_run_subprocess (fun _ => Returned Sample.garbled)
                          [lit "demucs"] 40 50 [])
  = Raised (lit "'utf-8' codec can't decode byte 0xff in position 0: invalid start byte")
  /\ emitted (_run_subprocess
                (fun _ => Returned
                            (Sample.ok_proc (stderr_lines Sample.garbled)))
                [lit "demucs"] 40 50 [])
     = emitted (_run_subprocess (fun _ => Returned Sample.garbled)
                                [lit "demucs"] 40 50 []).
Proof.
  destruct (run_subprocess_outcome
              (fun _ => Returned Sample.garbled)
              (fun _ => Returned (Sample.ok_proc (stderr_lines Sample.garbled)))
              [lit "demucs"] 40 50 [] Sample.garbled
              (Sample.ok_proc (stderr_lines Sample.garbled))
              eq_refl eq_refl eq_refl)
    as [H1 [_ [H2 _]]].
  split; [exact H1 | exact H2].
Defined.

Lemma digits_then_percent_length (k : nat) (s : str) (ds : list Z) :
  digits_then_percent k s = Some ds -> List.length ds = k.
Proof.
  revert s ds. induction k as [|k IH]; intros [|c t] ds; simpl;
    try discriminate.
  - destruct (c =? percent_sign)%N; [|discriminate].
    intros H; inversion H. reflexivity.
  - destruct (decimal_value c) as [d|]; [|discriminate].
    destruct (digits_then_percent k t) as [ds'|] eqn:E; [|discriminate].
    intros H. inversion H; subst. simpl. f_equal. eapply IH. exact E.
Qed.

Lemma match_here_length (s : str) (ds : list Z) :
  match_here s = Some ds -> (List.length ds <= 3)%nat.
Proof.
  unfold match_here.
  destruct (digits_then_percent 3 s) eqn:E3.
  - intros H; inversion H; subst.
    rewrite (digits_then_percent_length _ _ _ E3). lia.
  - destruct (digits_then_percent 2 s) eqn:E2.
    + intros H; inversion H; subst.
      rewrite (digits_then_percent_length _ _ _ E2). lia.
    + intros H. rewrite (digits_then_percent_length _ _ _ H). lia.
Qed.

Lemma search_length (s : str) (ds : list Z) :
  search s = Some ds -> (List.length ds <= 3)%nat.
Proof.
  induction s as [|c t IH].
  - discriminate.
  - rewrite search_cons.
    destruct (match_here (c :: t)) eqn:E; [|exact IH].
    intros H; inversion H; subst. eapply match_here_length; eassumption.
Qed.

Lemma scrape_percent_upper (line : str) (pct : Z) :
  scrape_percent line = Some pct -> pct <= 999.
Proof.
  intros H. unfold scrape_percent in H.
  destruct (search line) as [ds|] eqn:E; [|discriminate].
  inversion H; subst pct.
  pose proof (search_length _ _ E) as L.
  pose proof (search_range _ _ E) as R.
  destruct ds as [|d1 [|d2 [|d3 [|d4 ds]]]]; simpl in L; try lia;
    repeat match goal with
           | F : Forall _ (_ :: _) |- _ => inversion F; clear F; subst
           end;
    unfold int_of_digits; cbn [fold_left]; lia.
Qed.

(** X11. A scraped percentage is a number of at most three digits: it lies
    between 0 and 999. *)
Theorem scrape_percent_bounds (line : str) (pct : Z) :
  scrape_percent line = Some pct -> 0 <= pct <= 999.
Proof.
  intros H. split.
  - eapply scrape_percent_nonneg. exact H.
  - eapply scrape_percent_upper. exact H.
Qed.

Lemma scrape_percent_bounds_witness : 0 <= 100 <= 999.
Proof.
  exact (scrape_percent_bounds (lit "100%|##########|") 100 eq_refl).
Defined.

Lemma digits_then_percent_cons (k : nat) (c : char) (t : str) :
  digits_then_percent (S k) (c :: t) =
  match decimal_value c with
  | Some d => option_map (cons d) (digits_then_percent k t)
  | None => None
  end.
Proof. reflexivity. Qed.

Lemma digits_then_percent_shape (k : nat) (s : str) (ds : list Z) :
  digits_then_percent (S k) s = Some ds ->
  exists pre c d post,
    s = pre ++ c :: percent_sign :: post /\ decimal_value c = Some d.
Proof.
  revert s ds. induction k as [|k IH]; intros [|c t] ds;
    try discriminate; rewrite digits_then_percent_cons;
    destruct (decimal_value c) as [d|] eqn:Ed; try discriminate.
  - destruct t as [|x t']; [discriminate|]. cbn [digits_then_percent].
    destruct (N.eqb_spec x percent_sign); [|discriminate]. subst x.
    intros _. exists [], c, d, t'. split; [reflexivity | exact Ed].
  - destruct (digits_then_percent (S k) t) as [ds'|] eqn:E; [|discriminate].
    intros _. destruct (IH t ds' E) as [pre [c' [d' [post [Es Ed']]]]].
    exists (c :: pre), c', d', post.
    split; [rewrite Es; reflexivity | exact Ed'].
Qed.

Lemma match_here_shape (s : str) (ds : list Z) :
  match_here s = Some ds ->
  exists pre c d post,
    s = pre ++ c :: percent_sign :: post /\ decimal_value c = Some d.
Proof.
  unfold match_here.
  destruct (digits_then_percent 3 s) eqn:E3;
    [intros _; eapply digits_then_percent_shape; exact E3|].
  destruct (digits_then_percent 2 s) eqn:E2;
    [intros _; eapply digits_then_percent_shape; exact E2|].
  apply digits_then_percent_shape.
Qed.

(** X12. The pattern only matches where a decimal digit stands right
    before a percent sign: a line without one never moves the progress
    bar. *)
Theorem scrape_percent_needs_digit_percent (line : str) (pct : Z) :
  scrape_percent line = Some pct ->
  exists pre c d post,
    line = pre ++ c :: percent_sign :: post /\ decimal_value c = Some d.
Proof.
  unfold scrape_percent. destruct (search line) as [ds|] eqn:E; [|discriminate].
  intros _. clear pct. revert ds E.
  induction line as [|x t IH]; intros ds E; [discriminate E|].
  rewrite search_cons in E.
  destruct (match_here (x :: t)) as [ds'|] eqn:M.
  - eapply match_here_shape. exact M.
  - destruct (IH ds E) as [pre [c [d [post [Et Ed]]]]].
    exists (x :: pre), c, d, post. split; [rewrite Et; reflexivity | exact Ed].
Qed.

Lemma scrape_percent_needs_witness :
  exists pre c d post,
    lit " 45%|####" = pre ++ c :: percent_sign :: post
    /\ decimal_value c = Some d.
Proof.
  exact (scrape_percent_needs_digit_percent (lit " 45%|####") 45 eq_refl).
Defined.

(** ** The range of the progress values *)

Lemma progress_in_values (lo hi : Z) (tr : list effect) :
  Forall (progress_in lo hi) tr ->
  Forall (fun p => lo <= p <= hi) (progress_values tr).
Proof.
  induction 1 as [|x l Hx _ IH]; [constructor|].
  unfold progress_values. cbn [flat_map]. fold (progress_values l).
  destruct x as [[| |]| | | | | | | | | | |]; cbn [app]; try exact IH.
  constructor; [exact Hx | exact IH].
Qed.

Section ProgressRange.
Variable hi : Z.
Hypothesis hi_100 : 100 <= hi.

Ltac range_tac :=
  repeat first
    [ apply quiet_ret | apply quiet_raise | apply quiet_register
    | apply quiet_emit; cbn [progress_in]; first [exact I | lia]
    | apply quiet_call; exact I
    | apply quiet_bind; [| intros ]
    | match goal with
      | |- quiet _ (if ?b then _ else _) => destruct b
      | |- quiet _ (let '(_, _) := ?x in _) => destruct x
      end ].

Lemma run_subprocess_range_flat spawn cmd offset :
  quiet (progress_in 0 hi) (_run_subprocess spawn cmd offset 0).
Proof.
  intros reg. rewrite run_subprocess_emitted.
  constructor; [exact I|].
  destruct (spawn cmd) as [proc|e|]; [|constructor|constructor].
  apply Forall_flat_map, Forall_forall. intros line _.
  unfold scan_line. apply Forall_app. split.
  - destruct (strip is_space line); repeat constructor.
  - constructor.
Qed.

Lemma run_subprocess_range_capped spawn cmd cap :
  (forall proc, spawn cmd = Returned proc ->
                Forall (fun pct => pct <= cap) (scraped proc)) ->
  40 + cap * 50 / 100 <= hi ->
  quiet (progress_in 0 hi) (_run_subprocess spawn cmd 40 50).
Proof.
  intros Hcap Hhi reg. rewrite run_subprocess_emitted.
  constructor; [exact I|].
  destruct (spawn cmd) as [proc|e|] eqn:E; [|constructor|constructor].
  specialize (Hcap proc eq_refl).
  apply Forall_flat_map, Forall_forall. intros line Hl.
  unfold scan_line. apply Forall_app. split.
  - destruct (strip is_space line); repeat constructor.
  - change (50 =? 0) with false. cbv iota.
    destruct (scrape_percent line) as [pct|] eqn:Ep; [|constructor].
    constructor; [|constructor]. cbn [progress_in].
    pose proof (scrape_percent_nonneg _ _ Ep) as H0.
    assert (Hp : pct <= cap).
    { rewrite Forall_forall in Hcap. apply Hcap. unfold scraped.
      apply in_flat_map. exists line. rewrite Ep.
      split; [exact Hl | left; reflexivity]. }
    assert (0 <= pct * 50 / 100) by (apply Z.div_pos; lia).
    assert (pct * 50 / 100 <= cap * 50 / 100)
      by (apply Z.div_le_mono; lia).
    lia.
Qed.

Lemma acquire_range w j tmp_dir : quiet (progress_in 0 hi) (acquire w j tmp_dir).
Proof. unfold acquire. range_tac. Qed.

Lemma analyze_range w tmp_path : quiet (progress_in 0 hi) (analyze w tmp_path).
Proof. unfold analyze, analyze_bpm_key. range_tac. Qed.

Lemma transcode_range w j tmp_dir tmp_path title :
  quiet (progress_in 0 hi) (transcode w j tmp_dir tmp_path title).
Proof.
  unfold transcode.
  apply quiet_bind; [range_tac | intros _].
  apply quiet_bind; [range_tac | intros _].
  apply quiet_bind; [apply run_subprocess_range_flat | intros _].
  range_tac.
Qed.

Lemma separate_range w j tmp_dir mp3 cap :
  capped w cap -> 40 + cap * 50 / 100 <= hi ->
  quiet (progress_in 0 hi) (separate w j tmp_dir mp3).
Proof.
  intros Hcap Hhi. unfold separate.
  apply quiet_bind; [range_tac | intros _].
  apply quiet_bind;
    [apply run_subprocess_range_capped with (cap := cap);
     [intros proc; apply Hcap | exact Hhi] | intros _].
  range_tac.
Qed.

Lemma move_stems_range mv dest files i :
  quiet (progress_in 0 hi) (move_stems mv dest i files).
Proof.
  revert i. induction files as [|f rest IH]; intros i; cbn [move_stems].
  - apply quiet_ret.
  - apply quiet_bind; [range_tac | intros _].
    apply quiet_bind; [range_tac | intros _]. apply IH.
Qed.

Lemma relocate_range w j out fn mp3 title :
  quiet (progress_in 0 hi) (relocate w j out fn mp3 title).
Proof.
  unfold relocate.
  apply quiet_bind; [range_tac | intros _].
  apply quiet_bind; [range_tac | intros present].
  apply quiet_bind; [| intros _; range_tac].
  destruct present; [| range_tac].
  apply quiet_bind; [range_tac | intros _].
  apply quiet_bind; [range_tac | intros files].
  apply quiet_bind; [apply move_stems_range | intros _; range_tac].
Qed.

Lemma run_range w j cap :
  capped w cap -> 40 + cap * 50 / 100 <= hi ->
  Forall (fun p => 0 <= p <= hi) (progress_values (run w j)).
Proof.
  intros Hcap Hhi. apply progress_in_values.
  destruct (run_cases w j) as [[d Ed]|E0]; [|rewrite E0; constructor].
  rewrite (run_shape w j d Ed).
  assert (Hsweep : forall reg, Forall (progress_in 0 hi) (sweep w 0 reg)).
  { intros reg. eapply Forall_impl; [|apply sweep_only_probes].
    intros x [p [E|E]]; subst x; exact I. }
  apply Forall_app. split.
  - unfold body, stages, prepare.
    apply quiet_bind; [| intros [[title fn] mp3]].
    + apply quiet_bind; [apply acquire_range | intros [tmp_path title]].
      apply quiet_bind; [apply analyze_range | intros _].
      apply quiet_bind; [apply transcode_range | intros [fn mp3]].
      apply quiet_ret.
    + apply quiet_bind;
        [apply separate_range with (cap := cap); assumption | intros out].
      apply relocate_range.
  - destruct (result (body w j (PyPath.of_str d)));
      [apply Forall_app; split; [repeat constructor; cbn; lia | apply Hsweep]
      |apply Forall_app; split; [repeat constructor | apply Hsweep]
      |constructor].
Qed.

End ProgressRange.

Lemma always_capped (w : World) : capped w 999.
Proof.
  intros cmd proc _. unfold scraped.
  apply Forall_flat_map, Forall_forall. intros line _.
  destruct (scrape_percent line) as [pct|] eqn:E; repeat constructor.
  apply (scrape_percent_upper line pct E).
Qed.

(** X13. Whatever the external commands write, every [Progress] of a run
    lies between 0 and 539 (40 + 999 * 50 // 100). *)
Theorem progress_never_outside_0_539 (w : World) (j : Job) :
  Forall (fun p => 0 <= p <= 539) (progress_values (run w j)).
Proof.
  apply run_range with (cap := 999);
    [lia | apply always_capped | vm_compute; discriminate].
Qed.

(** X14. When no percentage scraped from the separation tool is above 100,
    every [Progress] of the run lies between 0 and 100, in whatever order
    the tool reports them. *)
Theorem progress_in_range_when_capped (w : World) (j : Job) :
  capped w 100 ->
  Forall (fun p => 0 <= p <= 100) (progress_values (run w j)).
Proof.
  intros H. apply run_range with (cap := 100);
    [lia | exact H | vm_compute; discriminate].
Qed.

Lemma progress_in_range_witness :
  capped Sample.restarting 100
  /\ Forall (fun p => 0 <= p <= 100)
            (progress_values (run Sample.restarting Sample.local_job)).
Proof.
  assert (H : capped Sample.restarting 100).
  { intros cmd proc E. injection E as E. subst proc.
    vm_compute. repeat constructor; discriminate. }
  split; [exact H|].
  exact (progress_in_range_when_capped Sample.restarting Sample.local_job H).
Defined.

(** ** The end of a run *)

Lemma run_events (w : World) (j : Job) (d : str) :
  gettempdir w = Returned d ->
  events (run w j) =
  events (emitted (body w j (PyPath.of_str d))) ++
  match result (body w j (PyPath.of_str d)) with
  | Returned dest => [Progress 100; Done (msg_finished dest)]
  | Raised e => [Done (msg_error e)]
  | Stuck => []
  end.
Proof.
  intros Ed. rewrite (run_shape w j d Ed), !events_app.
  destruct (result (body w j (PyPath.of_str d)));
    rewrite ?events_app, ?sweep_silent; reflexivity.
Qed.

(** A run either gets out of the [try] block and then ends with its only
    [Done], or does not and then has no [Done]. *)
Lemma run_events_cases (w : World) (j : Job) :
  (finishes w j
   /\ exists evs message,
       events (run w j) = evs ++ [Done message]
       /\ forall m, ~ In (Done m) evs)
  \/ (~ finishes w j /\ forall m, ~ In (Done m) (events (run w j))).
Proof.
  destruct (gettempdir w) as [d|e0|] eqn:Ed.
  - assert (Q : Forall not_done (emitted (body w j (PyPath.of_str d))))
      by apply (stages_quiet not_done not_done_passes).
    assert (F : result (body w j (PyPath.of_str d)) <> Stuck -> finishes w j).
    { intros H. exists d. split; [exact Ed|]. rewrite tried_result.
      destruct (result (body w j (PyPath.of_str d)));
        [discriminate | discriminate | destruct (H eq_refl)]. }
    rewrite (run_events w j d Ed).
    destruct (result (body w j (PyPath.of_str d))) as [dest|e|] eqn:Er.
    + left. split; [apply F; discriminate|].
      exists (events (emitted (body w j (PyPath.of_str d))) ++ [Progress 100]),
             (msg_finished dest).
      split; [rewrite <- app_assoc; reflexivity|].
      intros m H. apply in_app_or in H. destruct H as [H|[H|[]]].
      * exact (not_done_events _ _ Q H).
      * discriminate H.
    + left. split; [apply F; discriminate|].
      exists (events (emitted (body w j (PyPath.of_str d)))), (msg_error e).
      split; [reflexivity|]. intros m. apply not_done_events, Q.
    + right. split.
      * intros [d' [Ed' Hleft]]. rewrite Ed in Ed'. injection Ed' as Ed'.
        subst d'. rewrite tried_result, Er in Hleft. destruct (Hleft eq_refl).
      * intros m. rewrite app_nil_r. apply not_done_events, Q.
  - right. split.
    + intros [d [Ed' _]]. rewrite Ed in Ed'. discriminate Ed'.
    + intros m. rewrite run_idle; [intros [] | intros d; rewrite Ed; discriminate].
  - right. split.
    + intros [d [Ed' _]]. rewrite Ed in Ed'. discriminate Ed'.
    + intros m. rewrite run_idle; [intros [] | intros d; rewrite Ed; discriminate].
Qed.

(** X15. A run that finds the temp directory and gets out of the [try]
    block, whatever fails in it, emits exactly one [Done], and it is the
    last signal of the run; any other run emits no [Done] at all. *)
Theorem run_ends_with_one_done (w : World) (j : Job) :
  (finishes w j ->
   exists evs message,
     events (run w j) = evs ++ [Done message]
     /\ forall m, ~ In (Done m) evs)
  /\ (~ finishes w j -> forall m, ~ In (Done m) (events (run w j))).
Proof.
  destruct (run_events_cases w j) as [[Hf G]|[Hn G]]; split; intros H.
  - exact G.
  - contradiction.
  - contradiction.
  - exact G.
Qed.

(** X15 on three jobs: one that fails in the separation, one that finds no
    temp directory and one whose separation tool never closes its
    diagnostic stream. *)
Lemma run_ends_with_one_done_witness :
  (exists evs message,
      events (run Sample.crashing Sample.local_job) = evs ++ [Done message]
      /\ forall m, ~ In (Done m) evs)
  /\ (forall m, ~ In (Done m) (events (run Sample.homeless Sample.local_job)))
  /\ (forall m, ~ In (Done m) (events (run Sample.blocking Sample.local_job))).
Proof.
  split; [|split].
  - apply (proj1 (run_ends_with_one_done Sample.crashing Sample.local_job)).
    exists (lit "/tmp"). split; [reflexivity | vm_compute; discriminate].
  - apply (proj2 (run_ends_with_one_done Sample.homeless Sample.local_job)).
    intros [d [E _]]. discriminate E.
  - apply (proj2 (run_ends_with_one_done Sample.blocking Sample.local_job)).
    intros [d [E H]]. injection E as E. subst d. apply H.
    vm_compute. reflexivity.
Defined.

(** ** Failures before the separation *)

Lemma acquire_raised_registry (w : World) (j : Job) (tmp_dir : Path)
    (reg : list Path) (e : str) :
  result (acquire w j tmp_dir reg) = Raised e ->
  registry (acquire w j tmp_dir reg) = reg
  /\ progress_values (emitted (acquire w j tmp_dir reg))
     = (if is_file j then [] else
          match yt_dlp_import w with Returned _ => [0] | _ => [] end).
Proof.
  unfold acquire, bind, emit, call, register, ret.
  destruct (is_file j); cbn.
  - destruct (PyPath.eqb _ _); cbn; [discriminate|].
    destruct (local_copy w _ _); cbn; [discriminate| |discriminate]. auto.
  - destruct (yt_dlp_import w); cbn; [|auto|discriminate].
    destruct (yt_dlp_fetch w _ _); cbn; [discriminate| |discriminate]. auto.
Qed.

(** X16. When the temp directory is found and the first step fails (the
    copy of the local file, the import of yt-dlp or the download), nothing
    has been registered: the run is the effects of that step and one [Done]
    that carries the error; no file is looked at or deleted, and
    [Progress 10] is not reached. *)
Theorem acquisition_failure_deletes_nothing (w : World) (j : Job)
    (d e : str) :
  gettempdir w = Returned d ->
  result (acquire w j (PyPath.of_str d) []) = Raised e ->
  run w j
  = emitted (acquire w j (PyPath.of_str d) [])
    ++ [Emit (Done (msg_error e))]
  /\ registry (tried w j (PyPath.of_str d)) = []
  /\ ~ In 10 (progress_values (run w j)).
Proof.
  intros Ed H.
  destruct (acquire_raised_registry w j _ [] e H) as [Hr Hp].
  assert (Hbody : body w j (PyPath.of_str d)
                  = mkStep (emitted (acquire w j (PyPath.of_str d) []))
                           [] (Raised e)).
  { unfold body, stages, prepare.
    rewrite (bind_raised _ _ []
               (emitted (acquire w j (PyPath.of_str d) []))
               [] e); [reflexivity|].
    apply bind_raised.
    destruct (acquire w j (PyPath.of_str d) []) as [tr reg r].
    cbn in *. subst. reflexivity. }
  assert (Hrun : run w j
                 = emitted (acquire w j (PyPath.of_str d) [])
                   ++ [Emit (Done (msg_error e))]).
  { rewrite (run_shape w j d Ed), Hbody. cbn. reflexivity. }
  split; [exact Hrun|]. split; [rewrite registry_tried, Hbody; reflexivity|].
  rewrite Hrun, progress_values_app, Hp. cbn [progress_values flat_map app].
  destruct (is_file j); [cbn; intros []|].
  destruct (yt_dlp_import w); cbn;
    [intros [E|[]]; discriminate E | intros [] | intros []].
Qed.

Lemma acquisition_failure_witness :
  run Sample.full_disk Sample.local_job
  = [Emit (LogLine (msg_local_file ++ lit "My Song.wav"));
     Copy2 (PyPath.of_str (lit "/home/ann/Music/My Song.wav"))
           (PyPath.of_str (lit "/tmp/My_Song.wav"));
     Emit (Done (msg_error (lit "[Errno 28] No space left on device")))].
Proof.
  destruct (acquisition_failure_deletes_nothing
              Sample.full_disk Sample.local_job (lit "/tmp")
              (lit "[Errno 28] No space left on device") eq_refl eq_refl)
    as [H _].
  rewrite H. vm_compute. reflexivity.
Defined.

Lemma analyze_returned w tmp_path bpm key scale reg :
  essentia w (PyPath.to_str tmp_path) = Returned (bpm, key, scale) ->
  analyze w tmp_path reg
  = mkStep [Essentia (PyPath.to_str tmp_path);
            Emit (LogLine (msg_tempo ++ of_Z bpm ++ lit " BPM"));
            Emit (LogLine (msg_key ++ key ++ lit " " ++ scale))]
           reg (Returned tt).
Proof.
  intros E. unfold analyze, analyze_bpm_key, bind, call, emit, ret. cbn.
  rewrite E. reflexivity.
Qed.

Lemma transcode_failed w j tmp_dir tmp_path title proc reg :
  ffmpeg_proc w (ff_cmd j tmp_path
                   (tmp_dir // (title ++ lit "_" ++ bitrate j ++ lit "k.mp3")))
  = Returned proc ->
  stderr_end proc = Returned tt -> stdout_end proc = Returned tt ->
  returncode proc <> 0 ->
  transcode w j tmp_dir tmp_path title reg
  = mkStep (Emit (LogLine msg_transcoding)
            :: Popen (ff_cmd j tmp_path
                        (tmp_dir // (title ++ lit "_" ++ bitrate j
                                     ++ lit "k.mp3")))
            :: flat_map (scan_line 0 0) (stderr_lines proc))
           (reg ++ [tmp_dir // (title ++ lit "_" ++ bitrate j ++ lit "k.mp3")])
           (Raised (failure_message proc)).
Proof.
  intros E E1 E2 H. unfold transcode.
  rewrite (bind_returned _ _ reg [Emit (LogLine msg_transcoding)] reg tt
             eq_refl).
  rewrite (bind_returned _ _ reg []
             (reg ++ [tmp_dir // (title ++ lit "_" ++ bitrate j
                                  ++ lit "k.mp3")]) tt eq_refl).
  fold (ff_cmd j tmp_path
          (tmp_dir // (title ++ lit "_" ++ bitrate j ++ lit "k.mp3"))).
  rewrite (bind_raised _ _ _ _ _ _
             (run_subprocess_failed _ _ 0 0 proc _ E E1 E2 H)).
  reflexivity.
Qed.

(** X17. When the temp directory is found, the worker reads both pipes of
    the encoder to the end and the encoder exits with a code that is not
    zero, the job ends there with one [Done] that reports failure and holds
    the exit code and the encoder's output; [Progress 40] is not emitted
    and the separation tool is not started; the MP3 path, registered before
    the encoder ran, is swept with the input file. *)
Theorem encoder_failure_is_reported (w : World) (j : Job) (d : str)
    (tr : list effect) (reg : list Path) (tmp_path : Path) (title : str)
    (bpm : Z) (key scale : str) (proc : proc_output) :
  let tmp_dir := PyPath.of_str d in
  let mp3_temp_path :=
    tmp_dir // (title ++ lit "_" ++ bitrate j ++ lit "k.mp3") in
  gettempdir w = Returned d ->
  acquire w j tmp_dir [] = mkStep tr reg (Returned (tmp_path, title)) ->
  essentia w (PyPath.to_str tmp_path) = Returned (bpm, key, scale) ->
  ffmpeg_proc w (ff_cmd j tmp_path mp3_temp_path) = Returned proc ->
  stderr_end proc = Returned tt ->
  stdout_end proc = Returned tt ->
  returncode proc <> 0 ->
  run w j
  = tr
    ++ [Essentia (PyPath.to_str tmp_path);
        Emit (LogLine (msg_tempo ++ of_Z bpm ++ lit " BPM"));
        Emit (LogLine (msg_key ++ key ++ lit " " ++ scale));
        Emit (LogLine msg_transcoding);
        Popen (ff_cmd j tmp_path mp3_temp_path)]
    ++ flat_map (scan_line 0 0) (stderr_lines proc)
    ++ Emit (Done (msg_error (failure_message proc)))
       :: sweep w 0 (reg ++ [mp3_temp_path])
  /\ contains (msg_error (failure_message proc)) (of_Z (returncode proc))
  /\ contains (msg_error (failure_message proc))
              (List.concat (stderr_lines proc))
  /\ ~ succeeded (run w j).
Proof.
  intros tmp_dir mp3_temp_path Ed Hacq Hess Hff Herr Hout Hrc.
  assert (Hbody : body w j tmp_dir
                  = mkStep (tr
                            ++ [Essentia (PyPath.to_str tmp_path);
                                Emit (LogLine (msg_tempo ++ of_Z bpm
                                               ++ lit " BPM"));
                                Emit (LogLine (msg_key ++ key ++ lit " "
                                               ++ scale));
                                Emit (LogLine msg_transcoding);
                                Popen (ff_cmd j tmp_path mp3_temp_path)]
                            ++ flat_map (scan_line 0 0) (stderr_lines proc))
                           (reg ++ [mp3_temp_path])
                           (Raised (failure_message proc))).
  { unfold body, stages, prepare.
    erewrite (bind_raised _ _ []); [reflexivity|].
    rewrite (bind_returned _ _ _ _ _ _ Hacq). cbv iota beta.
    rewrite (bind_returned _ _ _ _ _ _
               (analyze_returned w tmp_path bpm key scale reg Hess)).
    rewrite (bind_raised _ _ _ _ _ _
               (transcode_failed w j tmp_dir tmp_path title proc reg
                  Hff Herr Hout Hrc)).
    f_equal. }
  split; [|split; [|split]].
  - rewrite (run_shape w j d Ed). fold tmp_dir. rewrite Hbody.
    cbn [emitted result registry]. rewrite <- !app_assoc. reflexivity.
  - unfold msg_error. do 2 apply contains_right.
    apply failure_message_exit_code.
  - unfold msg_error. do 2 apply contains_right.
    apply failure_message_stderr.
  - apply run_raised_not_succeeded with (d := d) (e := failure_message proc);
      [exact Ed|].
    fold tmp_dir. rewrite Hbody. reflexivity.
Qed.

Lemma encoder_failure_witness :
  ~ succeeded (run Sample.bad_codec Sample.local_job)
  /\ probed (run Sample.bad_codec Sample.local_job)
     = [PyPath.of_str (lit "/tmp/My_Song.wav");
        PyPath.of_str (lit "/tmp/My_Song_320k.mp3")].
Proof.
  pose (s := acquire Sample.bad_codec Sample.local_job
               (PyPath.of_str (lit "/tmp")) []).
  assert (Hacq : acquire Sample.bad_codec Sample.local_job
                   (PyPath.of_str (lit "/tmp")) []
                 = mkStep (emitted s) (registry s)
                     (Returned (PyPath.of_str (lit "/tmp/My_Song.wav"),
                                lit "My_Song")))
    by (vm_compute; reflexivity).
  destruct (encoder_failure_is_reported Sample.bad_codec Sample.local_job
              (lit "/tmp") _ _ _ _ 120 (lit "C") (lit "major") _
              eq_refl Hacq eq_refl eq_refl eq_refl eq_refl)
    as [Hrun [_ [_ Hn]]]; [discriminate|].
  split; [exact Hn|]. rewrite Hrun. vm_compute. reflexivity.
Defined.

(** ** Moving the stems *)

(** X18. When every move goes through, the loop moves each stem, in the
    order of the listing, to the destination folder under its own name,
    logs it, and returns. *)
Theorem move_stems_all_moved
    (mv : nat -> str -> str -> outcome unit) (stems_dest : Path)
    (files : list Path) (i : nat) (reg : list Path) :
  (forall n f,
      nth_error files n = Some f ->
      mv (i + n)%nat (PyPath.to_str f)
         (PyPath.to_str (stems_dest // PyPath.name f)) = Returned tt) ->
  move_stems mv stems_dest i files reg
  = mkStep (flat_map (moved stems_dest) files) reg (Returned tt).
Proof.
  revert i. induction files as [|f rest IH]; intros i H; [reflexivity|].
  cbn [move_stems flat_map].
  assert (H0 : mv i (PyPath.to_str f)
                  (PyPath.to_str (stems_dest // PyPath.name f))
               = Returned tt).
  { specialize (H 0%nat f eq_refl). rewrite Nat.add_0_r in H. exact H. }
  assert (IH' : move_stems mv stems_dest (S i) rest reg
                = mkStep (flat_map (moved stems_dest) rest) reg (Returned tt)).
  { apply IH. intros n g Hn. specialize (H (S n) g Hn).
    replace (S i + n)%nat with (i + S n)%nat by lia. exact H. }
  unfold bind, call, emit. cbn. rewrite H0. cbn. rewrite IH'. reflexivity.
Qed.

Lemma move_stems_all_witness :
  move_stems (fun _ _ _ => Returned tt)
             (PyPath.of_str (lit "/home/ann/stems/htdemucs/a"))
             0 Sample.three_stems []
  = mkStep (flat_map (moved (PyPath.of_str (lit "/home/ann/stems/htdemucs/a")))
                     Sample.three_stems)
           [] (Returned tt).
Proof.
  apply (move_stems_all_moved (fun _ _ _ => Returned tt)).
  intros n f _. reflexivity.
Defined.

(** X19. The loop stops at the first move that fails: the stems before it
    have been moved and logged, the failing move has been tried, no later
    stem is touched, and the error of the move is raised. *)
Theorem move_stems_stops_at_failure
    (mv : nat -> str -> str -> outcome unit) (stems_dest : Path)
    (before : list Path) (f : Path) (after : list Path) (i : nat)
    (reg : list Path) (e : str) :
  (forall n g,
      nth_error before n = Some g ->
      mv (i + n)%nat (PyPath.to_str g)
         (PyPath.to_str (stems_dest // PyPath.name g)) = Returned tt) ->
  mv (i + List.length before)%nat (PyPath.to_str f)
     (PyPath.to_str (stems_dest // PyPath.name f)) = Raised e ->
  move_stems mv stems_dest i (before ++ f :: after) reg
  = mkStep (flat_map (moved stems_dest) before
            ++ [Move (PyPath.to_str f)
                     (PyPath.to_str (stems_dest // PyPath.name f))])
           reg (Raised e).
Proof.
  revert i. induction before as [|g rest IH]; intros i H He.
  - cbn [app move_stems flat_map List.length] in *.
    rewrite Nat.add_0_r in He.
    unfold bind, call. cbn. rewrite He. reflexivity.
  - cbn [app move_stems flat_map List.length] in *.
    assert (H0 : mv i (PyPath.to_str g)
                    (PyPath.to_str (stems_dest // PyPath.name g))
                 = Returned tt).
    { specialize (H 0%nat g eq_refl). rewrite Nat.add_0_r in H. exact H. }
    assert (IH' : move_stems mv stems_dest (S i) (rest ++ f :: after) reg
                  = mkStep (flat_map (moved stems_dest) rest
                            ++ [Move (PyPath.to_str f)
                                  (PyPath.to_str
                                     (stems_dest // PyPath.name f))])
                           reg (Raised e)).
    { apply IH.
      - intros n h Hn. specialize (H (S n) h Hn).
        replace (S i + n)%nat with (i + S n)%nat by lia. exact H.
      - replace (S i + List.length rest)%nat
          with (i + S (List.length rest))%nat by lia.
        exact He. }
    unfold bind, call, emit. cbn. rewrite H0. cbn. rewrite IH'. reflexivity.
Qed.

Lemma move_stems_stops_witness :
  move_stems Sample.second_move_fails
             (PyPath.of_str (lit "/home/ann/stems/htdemucs/a"))
             0 Sample.three_stems []
  = mkStep
      [Move (lit "/tmp/demucs_output/htdemucs/a_320k/bass.wav")
            (lit "/home/ann/stems/htdemucs/a/bass.wav");
       Emit (LogLine (arrow_prefix ++ lit "bass.wav"));
       Move (lit "/tmp/demucs_output/htdemucs/a_320k/drums.wav")
            (lit "/home/ann/stems/htdemucs/a/drums.wav")]
      [] (Raised (lit "[Errno 13] Permission denied")).
Proof.
  assert (H : forall n g,
             nth_error [PyPath.of_str
                          (lit "/tmp/demucs_output/htdemucs/a_320k/bass.wav")]
                       n = Some g ->
             Sample.second_move_fails (0 + n)
               (PyPath.to_str g)
               (PyPath.to_str
                  (PyPath.of_str (lit "/home/ann/stems/htdemucs/a")
                   // PyPath.name g)) = Returned tt).
  { intros [|[|n]] g Hn; try discriminate Hn. reflexivity. }
  refine (eq_trans
            (move_stems_stops_at_failure Sample.second_move_fails
             (PyPath.of_str (lit "/home/ann/stems/htdemucs/a"))
             [PyPath.of_str (lit "/tmp/demucs_output/htdemucs/a_320k/bass.wav")]
             (PyPath.of_str (lit "/tmp/demucs_output/htdemucs/a_320k/drums.wav"))
             [PyPath.of_str (lit "/tmp/demucs_output/htdemucs/a_320k/vocals.wav")]
             0 [] (lit "[Errno 13] Permission denied") H eq_refl) _).
  vm_compute. reflexivity.
Defined.

(** ** The paths the worker builds *)

Lemma skipn_length_app {A} (x y : list A) : skipn (List.length x) (x ++ y) = y.
Proof. induction x as [|a x IH]; [reflexivity | exact IH]. Qed.

(** X20. For a title and a bitrate without a slash, the transcoded file
    is the file [<title>_<bitrate>k.mp3] of the temp directory, and its
    stem, the folder the separation output is looked up under, is
    [<title>_<bitrate>k], dots in the title included. *)
Theorem mp3_temp_path_parts (tmp_dir : Path) (title b : str) :
  no_slash title -> no_slash b ->
  PyPath.name (tmp_dir // (title ++ lit "_" ++ b ++ lit "k.mp3"))
  = title ++ lit "_" ++ b ++ lit "k.mp3"
  /\ PyPath.stem (tmp_dir // (title ++ lit "_" ++ b ++ lit "k.mp3"))
     = title ++ lit "_" ++ b ++ lit "k"
  /\ PyPath.suffix (tmp_dir // (title ++ lit "_" ++ b ++ lit "k.mp3"))
     = lit ".mp3".
Proof.
  intros Ht Hb.
  set (x := title ++ lit "_" ++ b ++ lit "k").
  assert (Ex : title ++ lit "_" ++ b ++ lit "k.mp3"
               = x ++ PyPath.dot :: lit "mp3").
  { unfold x. change (lit "k.mp3") with (lit "k" ++ PyPath.dot :: lit "mp3").
    rewrite <- !app_assoc. reflexivity. }
  assert (Lx : (2 <= List.length x)%nat).
  { unfold x. rewrite !length_app. simpl. lia. }
  assert (Hs : no_slash (x ++ PyPath.dot :: lit "mp3")).
  { unfold x. repeat apply no_slash_app; try assumption;
      repeat constructor; discriminate. }
  rewrite Ex.
  assert (Hn : PyPath.name (tmp_dir // (x ++ PyPath.dot :: lit "mp3"))
               = x ++ PyPath.dot :: lit "mp3").
  { apply div_name; [exact Hs|]. rewrite length_app. lia. }
  split; [exact Hn|]. split.
  - apply stem_of_mp3_name; [exact Hn | lia].
  - unfold PyPath.suffix, PyPath.suffix_index.
    rewrite Hn, rfind_mp3, length_app.
    change (List.length (PyPath.dot :: lit "mp3")) with 4%nat.
    destruct (0 <? Z.of_nat (List.length x)) eqn:H1;
      [|apply Z.ltb_ge in H1; lia].
    destruct (Z.of_nat (List.length x)
              <? Z.of_nat (List.length x + 4) - 1) eqn:H2;
      [|apply Z.ltb_ge in H2; lia].
    cbn [andb]. apply skipn_length_app.
Qed.

Lemma mp3_temp_path_parts_witness :
  PyPath.stem (PyPath.of_str (lit "/tmp")
               // (lit "Vol.2_live" ++ lit "_" ++ lit "192" ++ lit "k.mp3"))
  = lit "Vol.2_live" ++ lit "_" ++ lit "192" ++ lit "k".
Proof.
  assert (H1 : no_slash (lit "Vol.2_live"))
    by (repeat constructor; discriminate).
  assert (H2 : no_slash (lit "192")) by (repeat constructor; discriminate).
  exact (proj1 (proj2 (mp3_temp_path_parts (PyPath.of_str (lit "/tmp"))
                         (lit "Vol.2_live") (lit "192") H1 H2))).
Defined.

Lemma div_empty (d : Path) : d // [] = d.
Proof. destruct d as [r ps]. unfold PyPath.div. cbn. rewrite app_nil_r. reflexivity. Qed.

(** X21. For a local file whose stem has no character that survives
    sanitizing and that has no suffix, the scratch path is the temp
    directory [d] itself: the file is copied onto that path, and it is the
    temp directory that is registered for deletion. *)
Theorem nameless_source_targets_temp_dir (w : World) (j : Job) (d : str) :
  gettempdir w = Returned d ->
  is_file j = true ->
  filter is_plain (PyPath.stem (PyPath.of_str (url j))) = [] ->
  PyPath.suffix (PyPath.of_str (url j)) = [] ->
  PyPath.of_str (url j) <> PyPath.of_str d ->
  local_copy w (PyPath.of_str (url j)) (PyPath.of_str d)
  = Returned tt ->
  acquire w j (PyPath.of_str d) []
  = mkStep [Emit (LogLine (msg_local_file
                           ++ PyPath.name (PyPath.of_str (url j))));
            Copy2 (PyPath.of_str (url j)) (PyPath.of_str d);
            Emit (Progress 10)]
           [PyPath.of_str d]
           (Returned (PyPath.of_str d, [])).
Proof.
  intros _ Hf Hp Hs Hne Hcp.
  assert (Ht : sanitize_filename (PyPath.stem (PyPath.of_str (url j))) = []).
  { assert (K : filter is_plain
                  (sanitize_filename (PyPath.stem (PyPath.of_str (url j))))
                = []).
    { unfold sanitize_filename.
      rewrite filter_plain_strip, filter_plain_collapse, filter_plain_replace.
      exact Hp. }
    pose proof (tidy_safe _ _ (sanitize_tidy
                                 (PyPath.stem (PyPath.of_str (url j))))) as Hu.
    pose proof (tidy_no_space _ _ (sanitize_tidy
                                     (PyPath.stem (PyPath.of_str (url j)))))
      as Hsp.
    pose proof (sanitize_head_kept (PyPath.stem (PyPath.of_str (url j)))) as Hh.
    destruct (sanitize_filename (PyPath.stem (PyPath.of_str (url j))))
      as [|c t]; [reflexivity|].
    exfalso. inversion Hu; inversion Hsp; subst.
    cbn [filter] in K. destruct (is_plain c) eqn:Hpc; [discriminate K|].
    assert (c = underscore)
      by (apply tidy_not_plain_is_underscore; assumption).
    subst c. discriminate Hh. }
  assert (Hneq : PyPath.eqb (PyPath.of_str (url j))
                            (PyPath.of_str d) = false).
  { destruct (PyPath.eqb _ _) eqn:E; [|reflexivity].
    apply path_eqb_eq in E. contradiction. }
  unfold acquire. rewrite Hf, Ht, Hs. cbn [app]. rewrite div_empty.
  unfold bind, emit, call, register, ret. cbn. rewrite Hneq. cbn.
  rewrite Hcp. reflexivity.
Qed.

Lemma nameless_source_witness :
  registry (acquire Sample.fair Sample.nameless_job
              (PyPath.of_str (lit "/tmp")) [])
  = [PyPath.of_str (lit "/tmp")].
Proof.
  assert (Hne : PyPath.of_str (url Sample.nameless_job)
                <> PyPath.of_str (lit "/tmp"))
    by discriminate.
  rewrite (nameless_source_targets_temp_dir Sample.fair Sample.nameless_job
             (lit "/tmp") eq_refl eq_refl eq_refl eq_refl Hne eq_refl).
  reflexivity.
Defined.

(** ** The window *)

Lemma chars_accepts (p : str) : accepts (Re.chars p) [p].
Proof.
  intros k s. revert s. induction p as [|c p IH]; intros s.
  - cbn [Re.chars]. split.
    + intros H. exists [], s. repeat split; [left; reflexivity | exact H].
    + intros (q & rest & [E|[]] & Es & Hk). subst q s. exact Hk.
  - cbn [Re.chars]. destruct s as [|x s'].
    + split; [discriminate|].
      intros (q & rest & [E|[]] & Es & _). subst q. discriminate Es.
    + rewrite andb_true_iff, IH. split.
      * intros (Hx & q & rest & [E|[]] & Es & Hk). apply N.eqb_eq in Hx.
        subst q x s'. exists (c :: p), rest.
        repeat split; [left; reflexivity | exact Hk].
      * intros (q & rest & [E|[]] & Es & Hk). subst q. inversion Es; subst.
        split; [apply N.eqb_refl|]. exists p, rest.
        repeat split; [left; reflexivity | exact Hk].
Qed.

Lemma opt_accepts (m : Re.matcher) (l : list str) :
  accepts m l -> accepts (Re.opt m) (l ++ [[]]).
Proof.
  intros Hm k s. unfold Re.opt. rewrite orb_true_iff, (Hm k s). split.
  - intros [(p & rest & Hp & Es & Hk)|Hk].
    + exists p, rest. repeat split; auto. apply in_or_app. left. exact Hp.
    + exists [], s. repeat split; auto. apply in_or_app. right. left.
      reflexivity.
  - intros (p & rest & Hp & Es & Hk). apply in_app_or in Hp.
    destruct Hp as [Hp|[Hp|[]]].
    + left. exists p, rest. auto.
    + right. subst. exact Hk.
Qed.

Lemma alt_accepts (m1 m2 : Re.matcher) (l1 l2 : list str) :
  accepts m1 l1 -> accepts m2 l2 -> accepts (Re.alt m1 m2) (l1 ++ l2).
Proof.
  intros H1 H2 k s. unfold Re.alt.
  rewrite orb_true_iff, (H1 k s), (H2 k s). split.
  - intros [(p & rest & Hp & E)|(p & rest & Hp & E)]; exists p, rest;
      (split; [apply in_or_app; auto | exact E]).
  - intros (p & rest & Hp & E). apply in_app_or in Hp.
    destruct Hp as [Hp|Hp]; [left | right]; exists p, rest; auto.
Qed.

Lemma seq_accepts (m1 m2 : Re.matcher) (l1 l2 : list str) :
  accepts m1 l1 -> accepts m2 l2 -> accepts (Re.seq m1 m2) (products l1 l2).
Proof.
  intros H1 H2 k s. unfold Re.seq, products. rewrite (H1 (m2 k) s). split.
  - intros (p & rest & Hp & Es & Hk). apply (H2 k rest) in Hk.
    destruct Hk as (q & rest' & Hq & Er & Hk).
    exists (p ++ q), rest'. split; [|split; [|exact Hk]].
    + apply in_flat_map. exists p. split; [exact Hp|].
      apply in_map. exact Hq.
    + subst. rewrite app_assoc. reflexivity.
  - intros (pq & rest & Hpq & Es & Hk). apply in_flat_map in Hpq.
    destruct Hpq as (p & Hp & Hq). apply in_map_iff in Hq.
    destruct Hq as (q & E & Hq). subst pq.
    exists p, (q ++ rest). split; [exact Hp|]. split.
    + subst. rewrite app_assoc. reflexivity.
    + apply (H2 k (q ++ rest)). exists q, rest. auto.
Qed.

Lemma scheme_www_accepts (host : Re.matcher) (hosts : list str) :
  accepts host hosts ->
  accepts (MainWindow.scheme_www host)
    (products
       (products [lit "http"] (products ([lit "s"] ++ [[]]) [lit "://"])
        ++ [[]])
       (products ([lit "www."] ++ [[]]) (products hosts [lit "/"]))).
Proof.
  intros H. unfold MainWindow.scheme_www.
  repeat first [ apply seq_accepts | apply opt_accepts | apply chars_accepts
               | exact H ].
Qed.

Lemma all_among_incl (l1 l2 : list str) :
  all_among l1 l2 = true -> incl l1 l2.
Proof.
  unfold all_among. rewrite forallb_forall. intros H p Hp.
  specialize (H p Hp). apply existsb_exists in H.
  destruct H as (q & Hq & E). apply str_eqb_eq in E. subst q. exact Hq.
Qed.

Lemma in_products (l1 l2 : list str) (p : str) :
  In p (products l1 l2) <-> exists a b, In a l1 /\ In b l2 /\ p = a ++ b.
Proof.
  unfold products. rewrite in_flat_map. split.
  - intros (a & Ha & Hb). apply in_map_iff in Hb.
    destruct Hb as (b & E & Hb). exists a, b. auto.
  - intros (a & b & Ha & Hb & E). exists a. split; [exact Ha|].
    apply in_map_iff. exists b. auto.
Qed.

Lemma startswith_app (s p u : str) : startswith s p -> startswith (s ++ u) p.
Proof.
  intros [rest E]. exists (rest ++ u). rewrite E, app_assoc. reflexivity.
Qed.

Lemma is_valid_url_heads (text : str) :
  MainWindow._is_valid_url text = true <->
  exists p, In p url_heads /\ startswith text p.
Proof.
  pose proof (scheme_www_accepts _ _
                (alt_accepts _ _ _ _ (chars_accepts (lit "youtube.com"))
                                     (chars_accepts (lit "youtu.be")))) as Hy.
  pose proof (scheme_www_accepts _ _ (chars_accepts (lit "soundcloud.com")))
    as Hs.
  unfold MainWindow._is_valid_url. cbn [existsb]. rewrite orb_false_r.
  rewrite orb_true_iff. unfold Re.matches.
  unfold MainWindow.youtube_pattern, MainWindow.soundcloud_pattern.
  rewrite (Hy (fun _ => true) text), (Hs (fun _ => true) text).
  split.
  - intros [(p & rest & Hp & E & _)|(p & rest & Hp & E & _)];
      exists p; (split; [|exists rest; exact E]);
      (eapply all_among_incl; [|exact Hp]); vm_compute; reflexivity.
  - intros (p & Hp & rest & E).
    assert (Hall : incl url_heads
              (products
                 (products [lit "http"]
                    (products ([lit "s"] ++ [[]]) [lit "://"]) ++ [[]])
                 (products ([lit "www."] ++ [[]])
                    (products ([lit "youtube.com"] ++ [lit "youtu.be"])
                       [lit "/"]))
               ++ products
                 (products [lit "http"]
                    (products ([lit "s"] ++ [[]]) [lit "://"]) ++ [[]])
                 (products ([lit "www."] ++ [[]])
                    (products [lit "soundcloud.com"] [lit "/"]))))
      by (apply all_among_incl; vm_compute; reflexivity).
    apply Hall in Hp. apply in_app_or in Hp.
    destruct Hp as [Hp|Hp]; [left | right]; exists p, rest; auto.
Qed.

(** X22. [_is_valid_url] accepts exactly the texts that begin with an
    optional [http://] or [https://], an optional [www.], one of the hosts
    [youtube.com], [youtu.be], [soundcloud.com], and a slash; what follows
    is not looked at. *)
Theorem is_valid_url_characterized (text : str) :
  MainWindow._is_valid_url text = true <->
  exists scheme www host,
    In scheme [lit "https://"; lit "http://"; []]
    /\ In www [lit "www."; []]
    /\ In host [lit "youtube.com"; lit "youtu.be"; lit "soundcloud.com"]
    /\ startswith text (scheme ++ www ++ host ++ lit "/").
Proof.
  rewrite is_valid_url_heads. unfold url_heads. split.
  - intros (p & Hp & Hs).
    apply in_products in Hp. destruct Hp as (scheme & r1 & H1 & Hr1 & E1).
    apply in_products in Hr1. destruct Hr1 as (www & r2 & H2 & Hr2 & E2).
    apply in_products in Hr2. destruct Hr2 as (host & sl & H3 & Hsl & E3).
    destruct Hsl as [Hsl|[]]. subst.
    exists scheme, www, host. auto.
  - intros (scheme & www & host & H1 & H2 & H3 & Hs).
    exists (scheme ++ www ++ host ++ lit "/"). split; [|exact Hs].
    apply in_products. exists scheme, (www ++ host ++ lit "/").
    split; [exact H1|]. split; [|reflexivity].
    apply in_products. exists www, (host ++ lit "/").
    split; [exact H2|]. split; [|reflexivity].
    apply in_products. exists host, (lit "/").
    split; [exact H3|]. split; [left; reflexivity | reflexivity].
Qed.

(** X23. A text that [_is_valid_url] accepts is still accepted with
    anything appended to it; in particular nothing after the first slash of
    the link is checked. *)
Theorem is_valid_url_extends (text more : str) :
  MainWindow._is_valid_url text = true ->
  MainWindow._is_valid_url (text ++ more) = true.
Proof.
  rewrite !is_valid_url_heads. intros (p & Hp & Hs).
  exists p. split; [exact Hp | apply startswith_app, Hs].
Qed.

Lemma is_valid_url_extends_witness :
  MainWindow._is_valid_url (lit "youtu.be/" ++ lit " not a link at all") = true.
Proof.
  exact (is_valid_url_extends (lit "youtu.be/") (lit " not a link at all")
           eq_refl).
Defined.

Lemma run_enabled_after_app (a b : list MainWindow.gui_effect) (st : bool) :
  run_enabled_after (a ++ b) st = run_enabled_after b (run_enabled_after a st).
Proof. apply fold_left_app. Qed.

Lemma strip_blank_or_not (line : str) :
  is_blank line = true <-> strip is_space line = [].
Proof.
  unfold is_blank. destruct (strip is_space line); split; auto; discriminate.
Qed.

(** X24. [start_job] starts a worker exactly when the file test made on
    the stripped text of the field returns, the text is not blank, and the
    test for the wrapper script returns true; the worker then gets the
    stripped text, which is not empty and has no whitespace at either end,
    the values of the widgets, and the result of the file test. When the
    file test does not return, the handler does nothing at all, whatever
    the text; when the text is not blank and the test for the script does
    not return, nothing either. *)
Theorem start_job_starts_iff (g : MainWindow.Window) (j : Job) :
  let url := strip is_space (MainWindow.url_text g) in
  (MainWindow.started (MainWindow.start_job g) = Some j <->
   exists is_file,
     MainWindow.path_is_file g (PyPath.of_str url) = Returned is_file
     /\ is_blank (MainWindow.url_text g) = false
     /\ MainWindow.runner_exists g = Returned true
     /\ j = {| url := url;
               bitrate := MainWindow.bitrate_data g;
               model := MainWindow.model_data g;
               two_stem := MainWindow.two_checked g;
               outdir := MainWindow.out_dir g;
               is_file := is_file |}
     /\ url <> []
     /\ head_kept is_space url = true
     /\ head_kept is_space (rev url) = true)
  /\ ((forall b, MainWindow.path_is_file g (PyPath.of_str url) <> Returned b)
      -> MainWindow.start_job g = [])
  /\ (is_blank (MainWindow.url_text g) = false ->
      (forall b, MainWindow.runner_exists g <> Returned b) ->
      MainWindow.start_job g = []).
Proof.
  intros url. unfold MainWindow.start_job, is_blank. fold url.
  assert (Hk : head_kept is_space url = true
               /\ head_kept is_space (rev url) = true).
  { unfold url. split.
    - unfold strip.
      destruct (rstrip_split is_space
                  (lstrip is_space (MainWindow.url_text g)))
        as [d [E _]].
      apply head_kept_prefix with (d := d). rewrite <- E.
      apply lstrip_head_kept.
    - unfold strip. apply rstrip_last_kept. }
  split; [|split].
  - destruct (MainWindow.path_is_file g (PyPath.of_str url)) as [b|e|].
    + unfold MainWindow.start_job_from.
      destruct url as [|c t] eqn:Es.
      * cbn. split; [discriminate|].
        intros (b' & _ & H & _). discriminate H.
      * destruct (MainWindow.runner_exists g) as [[|]|e|]; cbn.
        -- split.
           ++ intros H. inversion H; subst j. exists b.
              split; [reflexivity|]. split; [reflexivity|].
              split; [reflexivity|]. split; [reflexivity|].
              split; [discriminate | exact Hk].
           ++ intros (b' & Hb & _ & _ & H & _). inversion Hb; subst b' j.
              reflexivity.
        -- split; [discriminate|].
           intros (b' & _ & _ & H & _). discriminate H.
        -- split; [discriminate|].
           intros (b' & _ & _ & H & _). discriminate H.
        -- split; [discriminate|].
           intros (b' & _ & _ & H & _). discriminate H.
    + cbn. split; [discriminate | intros (b' & H & _); discriminate H].
    + cbn. split; [discriminate | intros (b' & H & _); discriminate H].
  - intros H.
    destruct (MainWindow.path_is_file g (PyPath.of_str url)) as [b|e|];
      [destruct (H b eq_refl) | reflexivity | reflexivity].
  - intros Hb H.
    destruct (MainWindow.path_is_file g (PyPath.of_str url)) as [b|e|];
      [|reflexivity|reflexivity].
    unfold MainWindow.start_job_from.
    destruct url as [|c t]; [discriminate Hb|].
    destruct (MainWindow.runner_exists g) as [b'|e|];
      [destruct (H b' eq_refl) | reflexivity | reflexivity].
Qed.

(** X24 on a window whose field holds a text too long for a file name: the
    click does nothing. *)
Lemma start_job_starts_witness :
  MainWindow.start_job Sample.long_text_window = [].
Proof.
  apply (proj1 (proj2 (start_job_starts_iff Sample.long_text_window
                         Sample.local_job))).
  intros b. discriminate.
Defined.

Lemma signals_keep_button (evs : list event) (st : bool) :
  (forall m, ~ In (Done m) evs) ->
  run_enabled_after (flat_map MainWindow.on_signal evs) st = st.
Proof.
  revert st. induction evs as [|e evs IH]; intros st H; [reflexivity|].
  cbn [flat_map]. rewrite run_enabled_after_app.
  rewrite IH; [|intros m Hm; apply (H m); right; exact Hm].
  destruct e as [t|p|m]; [reflexivity | reflexivity|].
  destruct (H m). left. reflexivity.
Qed.

Lemma signals_enable_button (evs : list event) (message : str) (st : bool) :
  run_enabled_after
    (flat_map MainWindow.on_signal (evs ++ [Done message])) st = true.
Proof.
  rewrite flat_map_app, run_enabled_after_app. reflexivity.
Qed.

(** The button after the click alone: disabled exactly when a worker has
    been started. *)
Lemma start_job_button (g : MainWindow.Window) :
  run_enabled_after (MainWindow.start_job g) true
  = match MainWindow.started (MainWindow.start_job g) with
    | Some _ => false
    | None => true
    end.
Proof.
  unfold MainWindow.start_job.
  destruct (MainWindow.path_is_file g _) as [b|e|]; try reflexivity.
  unfold MainWindow.start_job_from.
  destruct (strip is_space (MainWindow.url_text g)); [reflexivity|].
  destruct (MainWindow.runner_exists g) as [[|]|e|]; reflexivity.
Qed.

(** X25. The run button is enabled before the click. When the click starts
    no worker, it stays enabled. When it starts one, the button is enabled
    again, once the click and all the signals of the worker have been
    handled, exactly when the worker finds the temp directory and gets out
    of its [try] block, however the job ends there; a worker that does not
    leaves the button disabled. *)
Theorem run_button_enabled_again (g : MainWindow.Window) (w : World) :
  match MainWindow.started (MainWindow.start_job g) with
  | Some j =>
      run_enabled_after (window_session g w) true = true <-> finishes w j
  | None => run_enabled_after (window_session g w) true = true
  end.
Proof.
  unfold window_session.
  pose proof (start_job_button g) as B.
  destruct (MainWindow.started (MainWindow.start_job g)) as [j|].
  - rewrite run_enabled_after_app, B.
    destruct (run_events_cases w j) as [[Hf (evs & m & E & _)]|[Hn G]].
    + rewrite E, signals_enable_button. split; auto.
    + rewrite signals_keep_button by exact G.
      split; [discriminate | contradiction].
  - rewrite app_nil_r. exact B.
Qed.

(** X25 on three clicks: a job that fails in the separation, a worker that
    finds no temp directory, and a field left empty. *)
Lemma run_button_enabled_witness :
  run_enabled_after
    (window_session (Sample.window (lit " https://youtu.be/abc ")
                       (Returned true)) Sample.crashing) true = true
  /\ run_enabled_after
       (window_session (Sample.window (lit " https://youtu.be/abc ")
                          (Returned true)) Sample.homeless) true = false
  /\ run_enabled_after
       (window_session (Sample.window (lit "  ") (Returned true))
          Sample.homeless) true = true.
Proof.
  split; [|split].
  - apply (run_button_enabled_again
             (Sample.window (lit " https://youtu.be/abc ") (Returned true))
             Sample.crashing).
    exists (lit "/tmp"). split; [reflexivity | vm_compute; discriminate].
  - destruct (run_enabled_after
                (window_session
                   (Sample.window (lit " https://youtu.be/abc ")
                      (Returned true)) Sample.homeless) true) eqn:E;
      [|reflexivity].
    apply (run_button_enabled_again
             (Sample.window (lit " https://youtu.be/abc ") (Returned true))
             Sample.homeless) in E.
    destruct E as [d [E _]]. discriminate E.
  - exact (run_button_enabled_again
             (Sample.window (lit "  ") (Returned true)) Sample.homeless).
Defined.

(** ** The wrapper around the separation tool *)

Lemma bits_is_spec (bits : option Z) (n : Z) :
  DemucsRunner.bits_is bits n = true <-> bits = Some n.
Proof.
  unfold DemucsRunner.bits_is. destruct bits as [b|]; [|split; discriminate].
  rewrite Z.eqb_eq. split;
    [intros ->; reflexivity | intros H; inversion H; reflexivity].
Qed.

Lemma bits_is_not (bits : option Z) (n : Z) :
  DemucsRunner.bits_is bits n = false <-> bits <> Some n.
Proof.
  rewrite <- bits_is_spec. destruct (DemucsRunner.bits_is bits n); split;
    try discriminate; auto. intros H. exfalso. apply H. reflexivity.
Qed.

(** X26. [patched_save] leaves the choice of the subtype to [soundfile]
    exactly when the format is neither [wav] nor [flac], in lower case as
    written. *)
Theorem save_subtype_none_iff (format : str) (bits : option Z) :
  DemucsRunner.save_subtype format bits = None
  <-> format <> lit "wav" /\ format <> lit "flac".
Proof.
  unfold DemucsRunner.save_subtype.
  destruct (PyStr.eqb format (lit "wav")) eqn:Ew.
  - apply str_eqb_eq in Ew. subst format.
    split; [|intros [H _]; exfalso; apply H; reflexivity].
    destruct (DemucsRunner.bits_is bits 16), (DemucsRunner.bits_is bits 24),
      (DemucsRunner.bits_is bits 32); discriminate.
  - destruct (PyStr.eqb format (lit "flac")) eqn:Ef.
    + apply str_eqb_eq in Ef. subst format.
      split; [|intros [_ H]; exfalso; apply H; reflexivity].
      destruct (DemucsRunner.bits_is bits 16), (DemucsRunner.bits_is bits 24);
        discriminate.
    + split; [|reflexivity]. intros _.
      split; intros E; subst format; discriminate.
Qed.

(** X27. A FLAC file is written with 16 bits when 16 bits are asked for and
    with 24 bits in every other case: when 32 bits are asked for, when
    nothing is asked for, or for any other number. *)
Theorem flac_is_16_or_24_bits (bits : option Z) :
  (DemucsRunner.save_subtype (lit "flac") bits = Some DemucsRunner.PCM_16
   <-> bits = Some 16)
  /\ (DemucsRunner.save_subtype (lit "flac") bits = Some DemucsRunner.PCM_24
      <-> bits <> Some 16).
Proof.
  unfold DemucsRunner.save_subtype.
  change (PyStr.eqb (lit "flac") (lit "wav")) with false.
  change (PyStr.eqb (lit "flac") (lit "flac")) with true. cbv iota.
  destruct (DemucsRunner.bits_is bits 16) eqn:E16.
  - apply bits_is_spec in E16. subst bits. split; split; auto;
      try discriminate. intros H. exfalso. apply H. reflexivity.
  - apply bits_is_not in E16.
    destruct (DemucsRunner.bits_is bits 24); split; split; auto;
      try discriminate; intros H; contradiction.
Qed.

(** X28. A WAV file is written as 32-bit float exactly when the bits asked
    for are none of 16, 24 and 32, nothing asked for included. *)
Theorem wav_defaults_to_float (bits : option Z) :
  DemucsRunner.save_subtype (lit "wav") bits = Some DemucsRunner.FLOAT
  <-> bits <> Some 16 /\ bits <> Some 24 /\ bits <> Some 32.
Proof.
  unfold DemucsRunner.save_subtype.
  change (PyStr.eqb (lit "wav") (lit "wav")) with true. cbv iota.
  rewrite <- !bits_is_not.
  destruct (DemucsRunner.bits_is bits 16), (DemucsRunner.bits_is bits 24),
    (DemucsRunner.bits_is bits 32); split; auto; try discriminate;
    intros (H1 & H2 & H3); discriminate.
Qed.

Lemma rfind_absent (c : char) (s : str) :
  ~ In c s -> PyPath.rfind c s = None.
Proof.
  induction s as [|x t IH]; intros H; [reflexivity|].
  cbn [PyPath.rfind]. rewrite IH by (intros K; apply H; right; exact K).
  destruct (N.eqb_spec x c); [|reflexivity].
  exfalso. apply H. left. assumption.
Qed.

Lemma rfind_last (c : char) (base ext : str) :
  ~ In c ext -> PyPath.rfind c (base ++ c :: ext) = Some (List.length base).
Proof.
  intros H. induction base as [|x base IH].
  - cbn [app PyPath.rfind List.length]. rewrite (rfind_absent c ext H).
    rewrite N.eqb_refl. reflexivity.
  - cbn [app PyPath.rfind List.length]. rewrite IH. reflexivity.
Qed.

Lemma skipn_past_separator {A} (base : list A) (c : A) (ext : list A) :
  skipn (S (List.length base)) (base ++ c :: ext) = ext.
Proof. induction base as [|x base IH]; [reflexivity | exact IH]. Qed.

(** X29. Without a format argument, [patched_save] takes the format from
    the file name: for a name [<base>.<ext>] whose [ext] has no dot, the
    subtype is the one of [ext] in lower case, whatever [base] is; for a
    name without any dot, the whole name in lower case is taken as the
    format. *)
Theorem format_comes_from_extension (lower : str -> str)
    (base ext : str) (bits : option Z) :
  ~ In PyPath.dot ext ->
  DemucsRunner.patched_save lower (base ++ PyPath.dot :: ext) None bits
  = (base ++ PyPath.dot :: ext, DemucsRunner.save_subtype (lower ext) bits)
  /\ DemucsRunner.patched_save lower ext None bits
     = (ext, DemucsRunner.save_subtype (lower ext) bits).
Proof.
  intros H. unfold DemucsRunner.patched_save, DemucsRunner.save_format,
    DemucsRunner.after_last_dot.
  rewrite (rfind_last _ base ext H), (rfind_absent _ ext H).
  rewrite skipn_past_separator. split; reflexivity.
Qed.

Lemma format_comes_from_extension_witness :
  DemucsRunner.patched_save Sample.ascii_lower
    (lit "/tmp/demucs_output/htdemucs/a.b/vocals" ++ PyPath.dot :: lit "WAV")
    None (Some 24)
  = (lit "/tmp/demucs_output/htdemucs/a.b/vocals.WAV",
     Some DemucsRunner.PCM_24).
Proof.
  assert (H : ~ In PyPath.dot (lit "WAV"))
    by (intros [E|[E|[E|[]]]]; discriminate E).
  rewrite (proj1 (format_comes_from_extension Sample.ascii_lower
                    (lit "/tmp/demucs_output/htdemucs/a.b/vocals")
                    (lit "WAV") (Some 24) H)).
  reflexivity.
Defined.

(** X30. The argument list that [main] hands to the separation tool is the
    one the wrapper was started with, unchanged, script name included,
    also when it is empty. *)
Theorem main_argv_unchanged (argv : list str) :
  DemucsRunner.main_argv argv = argv.
Proof. unfold DemucsRunner.main_argv. apply firstn_skipn. Qed.
